(** * Labelled block-sparse tensor maps: a shallow embedding

    The development follows the Python sources of the repository:
    - [operations/_dispatch.py] (both generations of the module): the
      run-time dispatch over the two array backends;
    - [operations/divide.py]: element-wise division with gradients;
    - [operations/allclose.py]: comparison of tensor maps;
    - [tests/tensor.py]: the behaviour expected from the core container
      (block selection, [keys_to_properties], [keys_to_samples]).

    Array entries are exact rationals extended with the two infinities and
    NaN; rounding and signed zeros are not represented.  An array of shape
    [(n_samples, *components, n_properties)] is a list of rows, a row being a
    list (flattened component axes, row-major) of lists of entries (the
    property axis). *)

From Stdlib Require Import QArith Qcanon Qcabs Bool List ZArith Lia String
  DecimalString Sorting.Sorted Sorting.Permutation.
Import ListNotations.

Set Warnings "-register-all".
Set Implicit Arguments.

Open Scope string_scope.
Open Scope list_scope.

(** ** Exceptions and results *)

Inductive exn : Type :=
| TypeError (msg : string)
| ValueError (msg : string)
| IndexError (msg : string)
| AttributeError (msg : string)
| NotImplementedError (msg : string)
| AssertionError
| NotEqualError (msg : string) (cause : option exn)
| ShapeMismatchError
| DuplicateKeyError
| LengthMismatchError
| InconsistentMetadataError
| NoMatchError (msg : string)
| AmbiguousMatchError (msg : string)
| TooManyArgumentsError (msg : string)
| NotFoundError (msg : string)
| DuplicateGradientError
| GradientShapeMismatchError.

Inductive result (A : Type) : Type :=
| Ok (a : A)
| Raise (e : exn).

Arguments Ok {A} a.
Arguments Raise {A} e.

Definition bindR {A B : Type} (m : result A) (k : A -> result B) : result B :=
  match m with
  | Ok a => k a
  | Raise e => Raise e
  end.

Notation "x <- m ;; k" := (bindR m (fun x => k))
  (at level 61, m at next level, right associativity).

Fixpoint mapR {A B : Type} (f : A -> result B) (l : list A) : result (list B) :=
  match l with
  | [] => Ok []
  | x :: l' => y <- f x ;; ys <- mapR f l' ;; Ok (y :: ys)
  end.

Fixpoint foldR {A S : Type} (f : S -> A -> result S) (l : list A) (s : S)
  : result S :=
  match l with
  | [] => Ok s
  | x :: l' => s' <- f s x ;; foldR f l' s'
  end.

(** What a call did, in order: the operations record each metadata check
    and each array kernel they run. *)
Inductive event : Type :=
| Validation (fn : string)
| Kernel (fn : string).

Definition M (A : Type) : Type := (list event * result A)%type.

Definition trace {A : Type} (m : M A) : list event := fst m.
Definition outcome {A : Type} (m : M A) : result A := snd m.

Definition retM {A : Type} (a : A) : M A := ([], Ok a).
Definition raiseM {A : Type} (e : exn) : M A := ([], Raise e).
Definition liftM {A : Type} (r : result A) : M A := ([], r).
Definition validation {A : Type} (fn : string) (r : result A) : M A :=
  ([Validation fn], r).
Definition kernel {A : Type} (fn : string) (r : result A) : M A :=
  ([Kernel fn], r).

Definition bindM {A B : Type} (m : M A) (k : A -> M B) : M B :=
  match m with
  | (t, Ok a) => let '(t', r) := k a in (t ++ t', r)
  | (t, Raise e) => (t, Raise e)
  end.

Notation "x <~ m ;; k" := (bindM m (fun x => k))
  (at level 61, m at next level, right associativity).

(** [try: m except NotEqualError as e: h e] *)
Definition catch_NotEqualError {A : Type} (m : M A) (h : exn -> M A) : M A :=
  match m with
  | (t, Raise (NotEqualError msg c)) =>
      let '(t', r) := h (NotEqualError msg c) in (t ++ t', r)
  | _ => m
  end.

(** [try: m except ValueError as e: h e] *)
Definition catch_ValueError {A : Type} (m : M A) (h : exn -> M A) : M A :=
  match m with
  | (t, Raise (ValueError msg)) =>
      let '(t', r) := h (ValueError msg) in (t ++ t', r)
  | _ => m
  end.

Fixpoint forM {A B : Type} (f : A -> M B) (l : list A) : M (list B) :=
  match l with
  | [] => retM []
  | x :: l' => y <~ f x ;; ys <~ forM f l' ;; retM (y :: ys)
  end.

Fixpoint foldM {A S : Type} (f : S -> A -> M S) (l : list A) (s : S) : M S :=
  match l with
  | [] => retM s
  | x :: l' => s' <~ f s x ;; foldM f l' s'
  end.

(** The text of an exception, [str(e)]. *)
Definition exn_message (e : exn) : string :=
  match e with
  | TypeError m | ValueError m | IndexError m | AttributeError m
  | NotImplementedError m | NotEqualError m _ | NoMatchError m
  | AmbiguousMatchError m | TooManyArgumentsError m | NotFoundError m => m
  | AssertionError => ""
  | ShapeMismatchError => "shape mismatch"
  | DuplicateKeyError => "duplicate key"
  | LengthMismatchError => "length mismatch"
  | InconsistentMetadataError => "inconsistent metadata"
  | DuplicateGradientError => "duplicate gradient"
  | GradientShapeMismatchError => "gradient shape mismatch"
  end.

Definition Z_to_string (z : Z) : string := NilZero.string_of_int (Z.to_int z).
Definition nat_to_string (n : nat) : string := Z_to_string (Z.of_nat n).

Fixpoint join (sep : string) (l : list string) : string :=
  match l with
  | [] => ""
  | [s] => s
  | s :: l' => s ++ sep ++ join sep l'
  end.

(** [str] of a key taken from a tensor map, which prints like a tuple:
    [(0,)], [(2, 3)]. *)
Definition tuple_str (row : list Z) : string :=
  match row with
  | [z] => "(" ++ Z_to_string z ++ ",)"
  | _ => "(" ++ join ", " (map Z_to_string row) ++ ")"
  end.

(** ** Array entries *)

Inductive fval : Type :=
| NaN
| Inf (negative : bool)
| Fin (q : Qc).

Definition Qc_is_zero (q : Qc) : bool := Qeq_bool q 0.
Definition Qc_is_neg (q : Qc) : bool := negb (Qle_bool 0 q).

Definition fzero : fval := Fin (Q2Qc 0).

Definition fneg (x : fval) : fval :=
  match x with
  | NaN => NaN
  | Inf s => Inf (negb s)
  | Fin q => Fin (- q)%Qc
  end.

Definition fadd (x y : fval) : fval :=
  match x, y with
  | NaN, _ | _, NaN => NaN
  | Inf s, Inf t => if Bool.eqb s t then Inf s else NaN
  | Inf s, Fin _ => Inf s
  | Fin _, Inf t => Inf t
  | Fin a, Fin b => Fin (a + b)%Qc
  end.

Definition fsub (x y : fval) : fval := fadd x (fneg y).

Definition fmul (x y : fval) : fval :=
  match x, y with
  | NaN, _ | _, NaN => NaN
  | Inf s, Inf t => Inf (xorb s t)
  | Inf s, Fin b => if Qc_is_zero b then NaN else Inf (xorb s (Qc_is_neg b))
  | Fin a, Inf t => if Qc_is_zero a then NaN else Inf (xorb (Qc_is_neg a) t)
  | Fin a, Fin b => Fin (a * b)%Qc
  end.

Definition fdiv (x y : fval) : fval :=
  match x, y with
  | NaN, _ | _, NaN => NaN
  | Inf _, Inf _ => NaN
  | Inf s, Fin b => Inf (xorb s (Qc_is_neg b))
  | Fin _, Inf _ => Fin (Q2Qc 0)
  | Fin a, Fin b =>
      if Qc_is_zero b
      then (if Qc_is_zero a then NaN else Inf (Qc_is_neg a))
      else Fin (a / b)%Qc
  end.

(** [x ** 2] *)
Definition fsquare (x : fval) : fval := fmul x x.

Definition is_nan (x : fval) : bool :=
  match x with NaN => true | _ => false end.

(** [isclose(x, y, rtol, atol, equal_nan)]: finite entries are compared
    within the tolerance, [|x - y| <= atol + rtol * |y|]; the others by
    equality, two NaN being equal only when [equal_nan] is set. *)
Definition isclose (rtol atol : Qc) (equal_nan : bool) (x y : fval) : bool :=
  match x, y with
  | Fin a, Fin b => Qle_bool (Qcabs (a - b)) (atol + rtol * Qcabs b)%Qc
  | Inf s, Inf t => Bool.eqb s t
  | NaN, NaN => equal_nan
  | _, _ => false
  end.

Definition feqb (x y : fval) : bool :=
  match x, y with
  | NaN, NaN => true
  | Inf s, Inf t => Bool.eqb s t
  | Fin a, Fin b => Qeq_bool a b
  | _, _ => false
  end.

(** ** Arrays and broadcasting

    The operations below are those of numpy, with which torch agrees on the
    arrays of a block; which of the two libraries a call reaches is the
    subject of the module [Dispatch] further down. *)

Definition row : Type := list (list fval).
Definition array : Type := list row.

Definition BROADCAST_ERROR : string :=
  "operands could not be broadcast together".

Fixpoint zip_with {A B C : Type} (f : A -> B -> result C)
  (xs : list A) (ys : list B) : result (list C) :=
  match xs, ys with
  | [], [] => Ok []
  | x :: xs', y :: ys' =>
      c <- f x y ;; cs <- zip_with f xs' ys' ;; Ok (c :: cs)
  | _, _ => Raise (ValueError BROADCAST_ERROR)
  end.

(** One axis of the broadcasting rule: equal lengths are paired, an axis of
    length one is stretched.  An in-place operation cannot stretch its left
    operand, which is also its output. *)
Definition broadcast {A B C : Type} (inplace : bool) (f : A -> B -> result C)
  (xs : list A) (ys : list B) : result (list C) :=
  match ys with
  | [y] => mapR (fun x => f x y) xs
  | _ =>
      match xs with
      | [x] =>
          if inplace then Raise (ValueError BROADCAST_ERROR)
          else mapR (fun y => f x y) ys
      | _ => zip_with f xs ys
      end
  end.

Definition ew_row {C : Type} (inplace : bool) (f : fval -> fval -> C)
  (a b : row) : result (list (list C)) :=
  broadcast inplace (broadcast inplace (fun x y => Ok (f x y))) a b.

(** [a op b] for two arrays of rank three. *)
Definition ew_array {C : Type} (inplace : bool) (f : fval -> fval -> C)
  (a b : array) : result (list (list (list C))) :=
  broadcast inplace (ew_row inplace f) a b.

(** [a op rows]: a sub-array [a] of shape [(components, properties)] against
    the rows of an array, its missing leading axis being stretched. *)
Definition ew_row_array (f : fval -> fval -> fval) (a : row) (rows : array)
  : result array :=
  mapR (fun r => ew_row false f a r) rows.

Definition ew_array_row (f : fval -> fval -> fval) (rows : array) (b : row)
  : result array :=
  mapR (fun r => ew_row false f r b) rows.

Definition map_row (f : fval -> fval) (a : row) : row := map (map f) a.
Definition map_array (f : fval -> fval) (a : array) : array :=
  map (map_row f) a.

(** [values[i]] *)
Definition getitem (a : array) (i : nat) : result row :=
  match nth_error a i with
  | Some r => Ok r
  | None => Raise (IndexError "index out of bounds")
  end.

(** [values[indices]] for an array of indices *)
Definition take (a : array) (indices : list nat) : result array :=
  mapR (getitem a) indices.

(** The shape of an array; the inner axes of an empty array read as zero. *)
Definition shape (a : array) : nat * nat * nat :=
  (List.length a, List.length (hd [] a), List.length (hd [] (hd [] a))).

Definition shape_eqb (s t : nat * nat * nat) : bool :=
  let '(a, b, c) := s in
  let '(a', b', c') := t in
  (a =? a')%nat && (b =? b')%nat && (c =? c')%nat.

Definition full (n c p : nat) (v : fval) : array :=
  repeat (repeat (repeat v p) c) n.

Definition array_has_nan (a : array) : bool :=
  existsb (existsb (existsb is_nan)) a.

(** [np.where(mask)[0]]: the positions at which a mask is true. *)
Fixpoint where_from (mask : list bool) (i : nat) : list nat :=
  match mask with
  | [] => []
  | b :: mask' =>
      if b then i :: where_from mask' (S i) else where_from mask' (S i)
  end.

Definition where_ (mask : list bool) : list nat := where_from mask 0.

(** ** Labels *)

(** Modelled from the spec: the class [Labels] (not part of the sources);
    §3: named integer columns and an ordered sequence of rows. *)
Record Labels : Type := mkLabels {
  names : list string;
  rows : list (list Z)
}.

Fixpoint list_eqb {A : Type} (eqb : A -> A -> bool) (l l' : list A) : bool :=
  match l, l' with
  | [], [] => true
  | x :: k, y :: k' => eqb x y && list_eqb eqb k k'
  | _, _ => false
  end.

Definition names_eqb : list string -> list string -> bool :=
  list_eqb String.eqb.
Definition row_eqb : list Z -> list Z -> bool := list_eqb Z.eqb.

Definition labels_eqb (a b : Labels) : bool :=
  names_eqb (names a) (names b) && list_eqb row_eqb (rows a) (rows b).

Definition len (l : Labels) : nat := List.length (rows l).

Fixpoint index_of {A : Type} (eqb : A -> A -> bool) (x : A) (l : list A)
  : option nat :=
  match l with
  | [] => None
  | y :: l' =>
      if eqb x y then Some 0%nat
      else match index_of eqb x l' with
           | Some i => Some (S i)
           | None => None
           end
  end.

Definition mem {A : Type} (eqb : A -> A -> bool) (x : A) (l : list A) : bool :=
  existsb (eqb x) l.

Fixpoint nodupb {A : Type} (eqb : A -> A -> bool) (l : list A) : bool :=
  match l with
  | [] => true
  | x :: l' => negb (mem eqb x l') && nodupb eqb l'
  end.

(** First-seen deduplication. *)
Fixpoint dedup_acc {A : Type} (eqb : A -> A -> bool) (seen l : list A)
  : list A :=
  match l with
  | [] => []
  | x :: l' =>
      if mem eqb x seen then dedup_acc eqb seen l'
      else x :: dedup_acc eqb (x :: seen) l'
  end.

Definition dedup {A : Type} (eqb : A -> A -> bool) (l : list A) : list A :=
  dedup_acc eqb [] l.

(** Modelled from the spec: [Labels.position] (not part of the sources);
    §4.1: the index of a row, or not found. *)
Definition position (l : Labels) (r : list Z) : option nat :=
  index_of row_eqb r (rows l).

(** Modelled from the spec: [Labels.column] (not part of the sources);
    §4.1: the values of the column of that name; the spec does not say how an
    unknown name fails, a [ValueError] here. *)
Definition column (l : Labels) (name : string) : result (list Z) :=
  match index_of String.eqb name (names l) with
  | Some j => Ok (map (fun r => nth j r 0%Z) (rows l))
  | None =>
      Raise (ValueError ("'" ++ name ++ "' not found in the dimensions of these Labels"))
  end.

(** The invariant of §3: rows of the width of the names, no two names and
    no two rows equal. *)
Definition labels_wf (l : Labels) : bool :=
  nodupb String.eqb (names l)
  && nodupb row_eqb (rows l)
  && forallb (fun r => (List.length r =? List.length (names l))%nat) (rows l).

(** One row of a [Labels], with the names of its columns. *)
Record LabelsEntry : Type := mkEntry {
  entry_names : list string;
  entry_values : list Z
}.

(** ** Blocks *)

(** Modelled from the spec: the class [TensorBlock] (not part of the
    sources); §3: values, samples, components, properties, and the gradients
    by parameter, in the order they were added. *)
Inductive TensorBlock : Type := mkBlock {
  values : array;
  samples : Labels;
  components : list Labels;
  properties : Labels;
  gradient_store : list (string * TensorBlock)
}.

(** Modelled from the spec: [TensorBlock.gradients], [gradients_list] and
    [gradient] (not part of the sources); §4.2: [gradient(parameter)] fails
    with [NotFoundError] when the parameter is absent. *)
Definition gradients (b : TensorBlock) : list (string * TensorBlock) :=
  gradient_store b.

Definition gradients_list (b : TensorBlock) : list string :=
  map fst (gradient_store b).

Fixpoint assoc {A : Type} (k : string) (l : list (string * A)) : option A :=
  match l with
  | [] => None
  | (k', v) :: l' => if String.eqb k k' then Some v else assoc k l'
  end.

Definition gradient (b : TensorBlock) (parameter : string)
  : result TensorBlock :=
  match assoc parameter (gradient_store b) with
  | Some g => Ok g
  | None =>
      Raise (NotFoundError ("can not find gradients with respect to '" ++ parameter ++ "' in this block"))
  end.

Definition n_components (cs : list Labels) : nat :=
  fold_right (fun l n => (len l * n)%nat) 1%nat cs.

Definition shape_ok (v : array) (s : Labels) (cs : list Labels) (p : Labels)
  : bool :=
  (List.length v =? len s)%nat
  && forallb (fun r =>
       (List.length r =? n_components cs)%nat
       && forallb (fun c => (List.length c =? len p)%nat) r) v.

(** Modelled from the spec: the constructor of [TensorBlock] (the class is
    not part of the sources); §4.2: it checks the shape of the values
    against the sizes of the labels and fails with [ShapeMismatchError]. *)
Definition new_TensorBlock (v : array) (s : Labels) (cs : list Labels)
  (p : Labels) : result TensorBlock :=
  if shape_ok v s cs p then Ok (mkBlock v s cs p [])
  else Raise ShapeMismatchError.

(** Modelled from the spec: [TensorBlock.add_gradient] (not part of the
    sources); §4.2: [DuplicateGradientError] when the parameter is already
    there, [GradientShapeMismatchError] when components or properties differ
    from the parent's. *)
Definition add_gradient (b : TensorBlock) (parameter : string)
  (g : TensorBlock) : result TensorBlock :=
  if mem String.eqb parameter (gradients_list b)
  then Raise DuplicateGradientError
  else if list_eqb labels_eqb (components g) (components b)
          && labels_eqb (properties g) (properties b)
       then Ok (mkBlock (values b) (samples b) (components b) (properties b)
                  (gradient_store b ++ [(parameter, g)]))
       else Raise GradientShapeMismatchError.

(** ** Tensor maps *)

(** Modelled from the spec: the class [TensorMap] (not part of the sources);
    §3: the keys and as many blocks, aligned by index. *)
Record TensorMap : Type := mkTensorMap {
  keys : Labels;
  block_store : list TensorBlock
}.

Definition same_names (bs : list TensorBlock) : bool :=
  match bs with
  | [] => true
  | b :: bs' =>
      forallb (fun b' =>
        names_eqb (names (properties b')) (names (properties b))
        && list_eqb names_eqb (map names (components b'))
             (map names (components b))) bs'
  end.

(** Modelled from the spec: the constructor of [TensorMap] (the class is not
    part of the sources); §4.3: [DuplicateKeyError], [LengthMismatchError],
    [InconsistentMetadataError]. *)
Definition new_TensorMap (k : Labels) (bs : list TensorBlock)
  : result TensorMap :=
  if negb (nodupb row_eqb (rows k)) then Raise DuplicateKeyError
  else if negb (len k =? List.length bs)%nat then Raise LengthMismatchError
  else if negb (same_names bs) then Raise InconsistentMetadataError
  else Ok (mkTensorMap k bs).

(** Modelled from the spec: [TensorMap.items] and iteration (not part of
    the sources); §4.3: the pairs of a key and its block, in key order. *)
Definition items (T : TensorMap) : list (LabelsEntry * TensorBlock) :=
  combine (map (mkEntry (names (keys T))) (rows (keys T))) (block_store T).

(** Positional selectors of [block] and [blocks]. *)
Inductive selector : Type :=
| ByIndex (i : nat)
| ByEntry (e : LabelsEntry).

Definition constraints_of (e : LabelsEntry) : list (string * Z) :=
  combine (entry_names e) (entry_values e).

Definition row_matches (knames : list string) (cs : list (string * Z))
  (r : list Z) : bool :=
  forallb (fun c =>
    match index_of String.eqb (fst c) knames with
    | Some j =>
        match nth_error r j with
        | Some x => Z.eqb x (snd c)
        | None => false
        end
    | None => false
    end) cs.

Definition selection_str (cs : list (string * Z)) : string :=
  join ", " (map (fun c => (fst c ++ " = " ++ Z_to_string (snd c))%string) cs).

(** Modelled from the spec: the selection behind [TensorMap.block] and
    [TensorMap.blocks] (not part of the sources); §4.3: at most one
    positional selector (an index or a key row) and named key-column
    constraints; the messages are those [tests/tensor.py] expects. *)
Definition blocks_matching (T : TensorMap) (args : list selector)
  (kwargs : list (string * Z)) : result (list nat * string) :=
  match args with
  | _ :: _ :: _ =>
      Raise (TooManyArgumentsError
               ("only one non-keyword argument is supported, "
                ++ nat_to_string (List.length args) ++ " are given"))
  | [ByIndex i] =>
      Ok (if (i <? len (keys T))%nat then [i] else [], nat_to_string i)
  | [ByEntry e] =>
      let cs := constraints_of e ++ kwargs in
      Ok (where_ (map (row_matches (names (keys T)) cs) (rows (keys T))),
          selection_str cs)
  | [] =>
      Ok (where_ (map (row_matches (names (keys T)) kwargs) (rows (keys T))),
          selection_str kwargs)
  end.

Definition block_by_id (T : TensorMap) (i : nat) : result TensorBlock :=
  match nth_error (block_store T) i with
  | Some b => Ok b
  | None => Raise (IndexError "block index out of bounds")
  end.

(** Modelled from the spec: [TensorMap.block] (not part of the sources);
    §4.3: [NoMatchError] when no block qualifies, [AmbiguousMatchError] when
    several do. *)
Definition block (T : TensorMap) (args : list selector)
  (kwargs : list (string * Z)) : result TensorBlock :=
  m <- blocks_matching T args kwargs ;;
  match fst m with
  | [] =>
      Raise (NoMatchError
               ("Couldn't find any block matching the selection '"
                ++ snd m ++ "'"))
  | [i] => block_by_id T i
  | _ =>
      Raise (AmbiguousMatchError
               ("more than one block matched '" ++ snd m
                ++ "', use `TensorMap.blocks` if you want to get all of them"))
  end.

(** Modelled from the spec: [TensorMap.blocks] (not part of the sources);
    §4.3: all the matching blocks, possibly none. *)
Definition blocks (T : TensorMap) (args : list selector)
  (kwargs : list (string * Z)) : result (list TensorBlock) :=
  m <- blocks_matching T args kwargs ;;
  mapR (block_by_id T) (fst m).

(** Well-formed blocks and maps: what the constructors of §4.2 and §4.3 and
    the invariant of §3 on gradients guarantee. *)
Definition gradient_wf (parent g : TensorBlock) : bool :=
  shape_ok (values g) (samples g) (components g) (properties g)
  && list_eqb labels_eqb (components g) (components parent)
  && labels_eqb (properties g) (properties parent)
  && match names (samples g) with
     | n :: _ => String.eqb n "sample"
     | [] => false
     end
  && forallb (fun r =>
       match r with
       | i :: _ => (0 <=? i)%Z && (i <? Z.of_nat (len (samples parent)))%Z
       | [] => false
       end) (rows (samples g)).

Definition block_wf (b : TensorBlock) : bool :=
  shape_ok (values b) (samples b) (components b) (properties b)
  && nodupb String.eqb (gradients_list b)
  && forallb (fun pg => gradient_wf b (snd pg)) (gradient_store b).

Definition tensormap_wf (T : TensorMap) : bool :=
  labels_wf (keys T)
  && (len (keys T) =? List.length (block_store T))%nat
  && forallb block_wf (block_store T).

(** [np.concatenate(arrays, 0)] as [_dispatch.concatenate] reaches it: the
    dispatch reads [arrays[0]], which fails on an empty list.  That the
    pieces agree on their inner axes is left to the block constructor. *)
Definition concatenate (arrays : list array) : result array :=
  match arrays with
  | [] => Raise (IndexError "list index out of range")
  | _ :: _ => Ok (List.concat arrays)
  end.

(** [np.allclose(a, b, rtol, atol, equal_nan)] *)
Definition array_allclose (a b : array) (rtol atol : Qc) (equal_nan : bool)
  : result bool :=
  c <- ew_array false (isclose rtol atol equal_nan) a b ;;
  Ok (forallb (forallb (forallb (fun x : bool => x))) c).

Definition newline : string :=
  String (Ascii.ascii_of_nat 10) EmptyString.

(** ** Metadata checks *)

Module Utils.

Definition same_keys (a b : TensorMap) : bool :=
  names_eqb (names (keys a)) (names (keys b))
  && forallb (fun r => mem row_eqb r (rows (keys b))) (rows (keys a))
  && forallb (fun r => mem row_eqb r (rows (keys a))) (rows (keys b)).

(** Modelled from the spec: [_check_same_keys] of [_utils.py] (not part of
    the sources); §4.5: the two maps must have the same key set, in any
    order; a violation is a comparison error. *)
Definition _check_same_keys (a b : TensorMap) (fname : string) : result unit :=
  if same_keys a b then Ok tt
  else Raise (NotEqualError
                ("inputs to '" ++ fname ++ "' should have the same keys") None).

(** Modelled from the spec: [_check_same_keys_raise] of [_utils.py] (not
    part of the sources); §4.5: the same requirement, for [divide]. *)
Definition _check_same_keys_raise (a b : TensorMap) (fname : string)
  : result unit :=
  _check_same_keys a b fname.

(** The first of the requested axes on which two blocks differ, and whether
    they differ by the names already. *)
Fixpoint first_mismatch (a b : TensorBlock) (props : list string)
  : option (string * bool) :=
  match props with
  | [] => None
  | p :: props' =>
      let '(same, same_names) :=
        if String.eqb p "samples"
        then (labels_eqb (samples a) (samples b),
              names_eqb (names (samples a)) (names (samples b)))
        else if String.eqb p "properties"
        then (labels_eqb (properties a) (properties b),
              names_eqb (names (properties a)) (names (properties b)))
        else if String.eqb p "components"
        then (list_eqb labels_eqb (components a) (components b),
              list_eqb names_eqb (map names (components a))
                (map names (components b)))
        else (true, true) in
      if same then first_mismatch a b props' else Some (p, negb same_names)
  end.

Definition mismatch_message (fname : string) (m : string * bool) : string :=
  "inputs to '" ++ fname ++ "' should have the same " ++ fst m ++ ":"
  ++ newline ++ fst m ++ (if snd m then " names" else "")
  ++ " are not the same or not in the same order".

(** Modelled from the spec: [_check_blocks] of [_utils.py] (not part of the
    sources); §4.5: samples, components and properties must be identical in
    content and order.  [allclose.py] catches its [ValueError]. *)
Definition _check_blocks (a b : TensorBlock) (props : list string)
  (fname : string) : result unit :=
  match first_mismatch a b props with
  | None => Ok tt
  | Some p => Raise (ValueError (mismatch_message fname p))
  end.

Definition all_props : list string := ["samples"; "components"; "properties"].

(** Modelled from the spec: [_check_blocks_raise] of [_utils.py] (not part
    of the sources); §4.5: a metadata error naming the offending axis. *)
Definition _check_blocks_raise (a b : TensorBlock) (fname : string)
  : result unit :=
  match first_mismatch a b all_props with
  | None => Ok tt
  | Some p => Raise (NotEqualError (mismatch_message fname p) None)
  end.

Definition same_parameters (a b : TensorBlock) : bool :=
  forallb (fun p => mem String.eqb p (gradients_list b)) (gradients_list a)
  && forallb (fun p => mem String.eqb p (gradients_list a)) (gradients_list b).

Fixpoint gradients_mismatch (gs : list (string * TensorBlock))
  (b : TensorBlock) (props : list string) : option string :=
  match gs with
  | [] => None
  | (parameter, grad_a) :: gs' =>
      match assoc parameter (gradient_store b) with
      | None => Some parameter
      | Some grad_b =>
          match first_mismatch grad_a grad_b props with
          | Some _ => Some parameter
          | None => gradients_mismatch gs' b props
          end
      end
  end.

(** Modelled from the spec: [_check_same_gradients] of [_utils.py] (not part
    of the sources); §4.5: gradients present on one side must be present on
    the other, under the same parameter names, with identical labels; a
    violation is a comparison error. *)
Definition _check_same_gradients (a b : TensorBlock) (props : list string)
  (fname : string) : result unit :=
  if negb (same_parameters a b)
  then Raise (NotEqualError
                ("inputs to '" ++ fname
                 ++ "' should have the same gradient parameters") None)
  else match gradients_mismatch (gradients a) b props with
       | None => Ok tt
       | Some parameter =>
           Raise (NotEqualError
                    ("inputs to '" ++ fname
                     ++ "' should have the same gradients: gradient '"
                     ++ parameter ++ "' differs") None)
       end.

(** Modelled from the spec: [_check_same_gradients_raise] of [_utils.py]
    (not part of the sources); §4.5: the same requirement on all three
    axes, for [divide]. *)
Definition _check_same_gradients_raise (a b : TensorBlock) (fname : string)
  : result unit :=
  _check_same_gradients a b all_props fname.

End Utils.

(** ** The array backends: [metatensor/operations/_dispatch.py]

    Every function of the module inspects the class of its argument and hands
    the work to numpy or to torch.  What is modelled is that choice. *)

Module Dispatch.

(** An argument as the [isinstance] tests see it, with what
    [to_index_array] and [dot] read from it. *)
Inductive pyobj : Type :=
| NdArray (ndim : nat) (integral : bool)
| Tensor (ndim : nat) (floating : bool)
| Other (cls : string) (ndim : option nat).

Inductive lib : Type := numpy | torch.

Inductive answer : Type :=
| Calls (l : lib) (routine : string)
| Returns (value : pyobj)
| ReturnsNone
| Raises (e : exn).

Definition UNKNOWN_ARRAY_TYPE : string :=
  "unknown array type, only numpy arrays and torch tensors are supported".

Definition type_str (a : pyobj) : string :=
  match a with
  | NdArray _ _ => "<class 'numpy.ndarray'>"
  | Tensor _ _ => "<class 'torch.Tensor'>"
  | Other cls _ => "<class '" ++ cls ++ "'>"
  end.

Definition ndim_of (a : pyobj) : option nat :=
  match a with
  | NdArray n _ | Tensor n _ => Some n
  | Other _ n => n
  end.

Fixpoint _check_all_torch_tensor (arrays : list pyobj) : result unit :=
  match arrays with
  | [] => Ok tt
  | Tensor _ _ :: arrays' => _check_all_torch_tensor arrays'
  | a :: _ =>
      Raise (TypeError ("expected argument to be a torch.Tensor, but got "
                        ++ type_str a))
  end.

Fixpoint _check_all_np_ndarray (arrays : list pyobj) : result unit :=
  match arrays with
  | [] => Ok tt
  | NdArray _ _ :: arrays' => _check_all_np_ndarray arrays'
  | a :: _ =>
      Raise (TypeError ("expected argument to be a np.ndarray, but got "
                        ++ type_str a))
  end.

Definition guard (r : result unit) (k : answer) : answer :=
  match r with
  | Ok _ => k
  | Raise e => Raises e
  end.

Definition all (a : pyobj) : answer :=
  match a with
  | Tensor _ _ => Calls torch "all"
  | NdArray _ _ => Calls numpy "all"
  | Other _ _ => Raises (TypeError UNKNOWN_ARRAY_TYPE)
  end.

Definition allclose (a b : pyobj) : answer :=
  match a with
  | Tensor _ _ => guard (_check_all_torch_tensor [b]) (Calls torch "allclose")
  | NdArray _ _ => guard (_check_all_np_ndarray [b]) (Calls numpy "allclose")
  | Other _ _ => Raises (TypeError UNKNOWN_ARRAY_TYPE)
  end.

Definition bincount (input : pyobj) (weights : option pyobj) : answer :=
  match input with
  | Tensor _ _ =>
      guard (match weights with
             | Some w => _check_all_torch_tensor [w]
             | None => Ok tt
             end) (Calls torch "bincount")
  | NdArray _ _ =>
      guard (match weights with
             | Some w => _check_all_np_ndarray [w]
             | None => Ok tt
             end) (Calls numpy "bincount")
  | Other _ _ => Raises (TypeError UNKNOWN_ARRAY_TYPE)
  end.

Definition copy (array : pyobj) : answer :=
  match array with
  | Tensor _ _ => Calls torch "clone"
  | NdArray _ _ => Calls numpy "copy"
  | Other _ _ => Raises (TypeError UNKNOWN_ARRAY_TYPE)
  end.

Definition eye_like (array : pyobj) : answer :=
  match array with
  | Tensor _ _ => Calls torch "eye"
  | NdArray _ _ => Calls numpy "eye"
  | Other _ _ => Raises (TypeError UNKNOWN_ARRAY_TYPE)
  end.

Definition list_to_array (array : pyobj) : answer :=
  match array with
  | Tensor _ _ => Calls torch "tensor"
  | NdArray _ _ => Calls numpy "array"
  | Other _ _ => Raises (TypeError UNKNOWN_ARRAY_TYPE)
  end.

(** The two branches are written as in the source: the torch branch calls
    [np.linalg.norm] and the numpy branch [torch.linalg.norm]. *)
Definition norm (array : pyobj) : answer :=
  match array with
  | Tensor _ _ => Calls numpy "linalg.norm"
  | NdArray _ _ => Calls torch "linalg.norm"
  | Other _ _ => Raises (TypeError UNKNOWN_ARRAY_TYPE)
  end.

Definition assert_2d (B : pyobj) (k : answer) : answer :=
  match ndim_of B with
  | Some 2%nat => k
  | _ => Raises AssertionError
  end.

Definition dot (A B : pyobj) : answer :=
  match A with
  | Tensor _ _ =>
      guard (_check_all_torch_tensor [B]) (assert_2d B (Calls torch "matmul"))
  | NdArray n _ =>
      guard (_check_all_np_ndarray [B])
        (assert_2d B
           (if (n =? 2)%nat then Calls numpy "matmul" else Calls numpy "dot"))
  | Other _ _ => Raises (TypeError UNKNOWN_ARRAY_TYPE)
  end.

Definition solve (X Y : pyobj) : answer :=
  match X with
  | Tensor _ _ => guard (_check_all_torch_tensor [Y]) (Calls torch "linalg.solve")
  | NdArray _ _ => guard (_check_all_np_ndarray [Y]) (Calls numpy "linalg.solve")
  | Other _ _ => Raises (TypeError UNKNOWN_ARRAY_TYPE)
  end.

Definition sqrt (array : pyobj) : answer :=
  match array with
  | Tensor _ _ => Calls torch "sqrt"
  | NdArray _ _ => Calls numpy "sqrt"
  | Other _ _ => Raises (TypeError UNKNOWN_ARRAY_TYPE)
  end.

Definition lstsq (X Y : pyobj) : answer :=
  match X with
  | Tensor _ _ => guard (_check_all_torch_tensor [Y]) (Calls torch "linalg.lstsq")
  | NdArray _ _ => guard (_check_all_np_ndarray [Y]) (Calls numpy "linalg.lstsq")
  | Other _ _ => Raises (TypeError UNKNOWN_ARRAY_TYPE)
  end.

Definition nan_to_num (X : pyobj) : answer :=
  match X with
  | Tensor _ _ => Calls torch "nan_to_num"
  | NdArray _ _ => Calls numpy "nan_to_num"
  | Other _ _ => Raises (TypeError UNKNOWN_ARRAY_TYPE)
  end.

Definition concatenate (arrays : list pyobj) : answer :=
  match arrays with
  | [] => Raises (IndexError "list index out of range")
  | Tensor _ _ :: _ =>
      guard (_check_all_torch_tensor arrays) (Calls torch "concatenate")
  | NdArray _ _ :: _ =>
      guard (_check_all_np_ndarray arrays) (Calls numpy "concatenate")
  | Other _ _ :: _ => Raises (TypeError UNKNOWN_ARRAY_TYPE)
  end.

Definition to_index_array (array : pyobj) : result pyobj :=
  match ndim_of array with
  | None => Raise (AttributeError "object has no attribute 'shape'")
  | Some n =>
      if negb (n =? 1)%nat then Raise (ValueError "Index arrays must be 1D")
      else
        match array with
        | Tensor _ floating =>
            if floating then Raise (ValueError "Index arrays must be integers")
            else Ok (Tensor 1 false)
        | NdArray _ integral =>
            if negb integral
            then Raise (ValueError "Index arrays must be integers")
            else Ok array
        | Other _ _ => Raise (TypeError UNKNOWN_ARRAY_TYPE)
        end
  end.

Definition index_add (output_array input_array index : pyobj) : answer :=
  match to_index_array index with
  | Raise e => Raises e
  | Ok index' =>
      match input_array with
      | Tensor _ _ =>
          guard (_check_all_torch_tensor [output_array; input_array; index'])
            (Calls torch "index_add_")
      | NdArray _ _ =>
          guard (_check_all_np_ndarray [output_array; input_array; index'])
            (Calls numpy "add.at")
      | Other _ _ => Raises (TypeError UNKNOWN_ARRAY_TYPE)
      end
  end.

Definition zeros_like (array : pyobj) : answer :=
  match array with
  | Tensor _ _ => Calls torch "zeros"
  | NdArray _ _ => Calls numpy "zeros_like"
  | Other _ _ => Raises (TypeError UNKNOWN_ARRAY_TYPE)
  end.

Definition ones_like (array : pyobj) : answer :=
  match array with
  | Tensor _ _ => Calls torch "ones"
  | NdArray _ _ => Calls numpy "ones_like"
  | Other _ _ => Raises (TypeError UNKNOWN_ARRAY_TYPE)
  end.

Definition empty_like (array : pyobj) : answer :=
  match array with
  | Tensor _ _ => Calls torch "empty"
  | NdArray _ _ => Calls numpy "empty_like"
  | Other _ _ => Raises (TypeError UNKNOWN_ARRAY_TYPE)
  end.

Definition abs (array : pyobj) : answer :=
  match array with
  | Tensor _ _ => Calls torch "abs"
  | NdArray _ _ => Calls numpy "abs"
  | Other _ _ => Raises (TypeError UNKNOWN_ARRAY_TYPE)
  end.

Definition sign (array : pyobj) : answer :=
  match array with
  | Tensor _ _ => Calls torch "sign"
  | NdArray _ _ => Calls numpy "sign"
  | Other _ _ => Raises (TypeError UNKNOWN_ARRAY_TYPE)
  end.

Definition rand_like (array : pyobj) : answer :=
  match array with
  | Tensor _ _ => Calls torch "rand"
  | NdArray _ _ => Calls numpy "random.rand"
  | Other _ _ => Raises (TypeError UNKNOWN_ARRAY_TYPE)
  end.

(** [to(array, backend)]; [scripting] is [torch_jit_is_scripting()]. *)
Definition to (scripting : bool) (array : pyobj) (backend : option string)
  : answer :=
  match array with
  | Tensor _ _ =>
      let backend := match backend with None => "torch" | Some b => b end in
      if String.eqb backend "torch" then Calls torch "to"
      else if String.eqb backend "numpy"
           then (if scripting
                 then Raises (ValueError
                                "cannot call numpy conversion when torch-scripting")
                 else Calls torch "numpy")
      else Raises (ValueError ("Unknown backend: " ++ backend))
  | NdArray _ _ =>
      let backend := match backend with None => "numpy" | Some b => b end in
      if String.eqb backend "numpy" then Calls numpy "array"
      else if String.eqb backend "torch" then Calls torch "tensor"
      else Raises (ValueError ("Unknown backend: " ++ backend))
  | Other _ _ => Raises (TypeError UNKNOWN_ARRAY_TYPE)
  end.

(** There is no [else] branch: any other argument falls off the end of the
    function, which returns [None]. *)
Definition unique (array : pyobj) : answer :=
  match array with
  | Tensor _ _ => Calls torch "unique"
  | NdArray _ _ => Calls numpy "unique"
  | Other _ _ => ReturnsNone
  end.

Definition unique_with_inverse (array : pyobj) : answer :=
  match array with
  | Tensor _ _ => Calls torch "unique"
  | NdArray _ _ => Calls numpy "unique"
  | Other _ _ => Raises (TypeError UNKNOWN_ARRAY_TYPE)
  end.

Definition where_ (array : pyobj) : answer :=
  match array with
  | Tensor _ _ => Calls torch "where"
  | NdArray _ _ => Calls numpy "where"
  | Other _ _ => Raises (TypeError UNKNOWN_ARRAY_TYPE)
  end.

(** The functions of the module, applied. *)
Inductive call : Type :=
| call_all (a : pyobj)
| call_allclose (a b : pyobj)
| call_bincount (input : pyobj) (weights : option pyobj)
| call_copy (array : pyobj)
| call_eye_like (array : pyobj)
| call_list_to_array (array : pyobj)
| call_norm (array : pyobj)
| call_dot (A B : pyobj)
| call_solve (X Y : pyobj)
| call_sqrt (array : pyobj)
| call_lstsq (X Y : pyobj)
| call_nan_to_num (X : pyobj)
| call_concatenate (a0 : pyobj) (others : list pyobj)
| call_index_add (output_array input_array index : pyobj)
| call_zeros_like (array : pyobj)
| call_ones_like (array : pyobj)
| call_empty_like (array : pyobj)
| call_abs (array : pyobj)
| call_sign (array : pyobj)
| call_rand_like (array : pyobj)
| call_to (scripting : bool) (array : pyobj) (backend : option string)
| call_to_index_array (array : pyobj)
| call_unique (array : pyobj)
| call_unique_with_inverse (array : pyobj)
| call_where (array : pyobj).

Definition run (c : call) : answer :=
  match c with
  | call_all a => all a
  | call_allclose a b => allclose a b
  | call_bincount i w => bincount i w
  | call_copy a => copy a
  | call_eye_like a => eye_like a
  | call_list_to_array a => list_to_array a
  | call_norm a => norm a
  | call_dot A B => dot A B
  | call_solve X Y => solve X Y
  | call_sqrt a => sqrt a
  | call_lstsq X Y => lstsq X Y
  | call_nan_to_num X => nan_to_num X
  | call_concatenate a0 others => concatenate (a0 :: others)
  | call_index_add o i idx => index_add o i idx
  | call_zeros_like a => zeros_like a
  | call_ones_like a => ones_like a
  | call_empty_like a => empty_like a
  | call_abs a => abs a
  | call_sign a => sign a
  | call_rand_like a => rand_like a
  | call_to s a b => to s a b
  | call_to_index_array a =>
      match to_index_array a with
      | Ok v => Returns v
      | Raise e => Raises e
      end
  | call_unique a => unique a
  | call_unique_with_inverse a => unique_with_inverse a
  | call_where a => where_ a
  end.

(** The argument whose class selects the backend. *)
Definition dispatched_on (c : call) : pyobj :=
  match c with
  | call_all a | call_allclose a _ | call_bincount a _ | call_copy a
  | call_eye_like a | call_list_to_array a | call_norm a | call_dot a _
  | call_solve a _ | call_sqrt a | call_lstsq a _ | call_nan_to_num a
  | call_concatenate a _ | call_index_add _ a _ | call_zeros_like a
  | call_ones_like a | call_empty_like a | call_abs a | call_sign a
  | call_rand_like a | call_to _ a _ | call_to_index_array a
  | call_unique a | call_unique_with_inverse a | call_where a => a
  end.

Definition is_other (a : pyobj) : bool :=
  match a with
  | Other _ _ => true
  | _ => false
  end.

Definition is_unique (c : call) : bool :=
  match c with
  | call_unique _ => true
  | _ => false
  end.

(** The index argument of the calls that validate one before dispatching. *)
Definition index_of_call (c : call) : option pyobj :=
  match c with
  | call_index_add _ _ index => Some index
  | call_to_index_array a => Some a
  | _ => None
  end.

End Dispatch.

(** ** The older module, [equistore/operations/_dispatch.py] *)

Module EquistoreDispatch.

Import Dispatch.

Definition norm (array : pyobj) : answer :=
  match array with
  | NdArray _ _ => Calls numpy "linalg.norm"
  | Tensor _ _ => Calls torch "linalg.norm"
  | Other _ _ => Raises (TypeError UNKNOWN_ARRAY_TYPE)
  end.

Definition vstack (arrays : list pyobj) : answer :=
  match arrays with
  | [] => Raises (IndexError "list index out of range")
  | NdArray _ _ :: _ => Calls numpy "vstack"
  | Tensor _ _ :: _ => Calls torch "vstack"
  | Other _ _ :: _ => Raises (TypeError UNKNOWN_ARRAY_TYPE)
  end.

(** [dot(array1, array2)].  In the torch branch, tensors that are not both
    of one dimension reach [torch.matmul(array1, torch.Traspose(array2))];
    the module [torch] has no attribute of that name, and the look-up fails
    before [matmul] is called. *)
Definition dot (array1 array2 : pyobj) : answer :=
  match array1, array2 with
  | NdArray n1 _, NdArray n2 _ =>
      if (n1 =? 2)%nat && (n2 =? 2)%nat then Calls numpy "matmul"
      else Calls numpy "dot"
  | Tensor n1 _, Tensor n2 _ =>
      if (n1 =? 1)%nat && (n2 =? 1)%nat then Calls torch "dot"
      else Raises (AttributeError "module 'torch' has no attribute 'Traspose'")
  | _, _ => Raises (TypeError UNKNOWN_ARRAY_TYPE)
  end.

Definition solve (array1 array2 : pyobj) : answer :=
  match array1, array2 with
  | NdArray _ _, NdArray _ _ => Calls numpy "linalg.solve"
  | Tensor _ _, Tensor _ _ => Calls torch "linalg.solve"
  | _, _ => Raises (TypeError UNKNOWN_ARRAY_TYPE)
  end.

Definition lstsq (array1 array2 : pyobj) : answer :=
  match array1, array2 with
  | NdArray _ _, NdArray _ _ => Calls numpy "linalg.lstsq"
  | Tensor _ _, Tensor _ _ => Calls torch "linalg.lstsq"
  | _, _ => Raises (TypeError UNKNOWN_ARRAY_TYPE)
  end.

End EquistoreDispatch.

(** ** [metatensor/operations/divide.py] *)

Module Divide.

(** The second argument of [divide]: a number, a tensor map, or anything
    else. *)
Inductive operand : Type :=
| Scalar (c : fval)
| Map (B : TensorMap)
| Object.

Definition NESTED : string := "gradients of gradients are not supported".

Definition has_gradients (g : TensorBlock) : bool :=
  negb (List.length (gradients_list g) =? 0)%nat.

Definition _divide_block_constant (block : TensorBlock) (constant : fval)
  : M TensorBlock :=
  values' <~ kernel "divide"
    (Ok (map_array (fun x => fdiv x constant) (values block))) ;;
  result_block <~ liftM
    (new_TensorBlock values' (samples block) (components block)
       (properties block)) ;;
  foldM (fun result_block pg =>
    let parameter := fst pg in
    let gradient := snd pg in
    if has_gradients gradient then raiseM (NotImplementedError NESTED)
    else
      gvalues <~ kernel "divide"
        (Ok (map_array (fun x => fdiv x constant) (values gradient))) ;;
      g <~ liftM (new_TensorBlock gvalues (samples gradient)
                    (components gradient) (properties gradient)) ;;
      liftM (add_gradient result_block parameter g))
    (gradients block) result_block.

(** The body of the loop over [i_sample]: the rows of the new gradient that
    belong to one sample of the block. *)
Definition gradient_rows (block_1 block_2 gradient_1 gradient_2 : TensorBlock)
  (i_sample : nat) : result array :=
  column_1 <- column (samples gradient_1) "sample" ;;
  let i_sample_grad_1 :=
    where_ (map (fun s => Z.eqb s (Z.of_nat i_sample)) column_1) in
  column_2 <- column (samples gradient_2) "sample" ;;
  let i_sample_grad_2 :=
    where_ (map (fun s => Z.eqb s (Z.of_nat i_sample)) column_2) in
  a_i <- getitem (values block_1) i_sample ;;
  db <- take (values gradient_2) i_sample_grad_2 ;;
  t <- ew_row_array fmul (map_row fneg a_i) db ;;
  b_i <- getitem (values block_2) i_sample ;;
  value_grad <- ew_array_row fdiv t (map_row fsquare b_i) ;;
  da <- take (values gradient_1) i_sample_grad_1 ;;
  b_i' <- getitem (values block_2) i_sample ;;
  q <- ew_array_row fdiv da b_i' ;;
  ew_array true fadd value_grad q.

Definition gradient_values (block_1 block_2 gradient_1 gradient_2 : TensorBlock)
  : result array :=
  values_grad <- mapR (gradient_rows block_1 block_2 gradient_1 gradient_2)
                   (seq 0 (len (samples block_1))) ;;
  concatenate values_grad.

(** One turn of the loop over [block_1.gradients()]. *)
Definition divide_gradient (block_1 block_2 result_block : TensorBlock)
  (pg : string * TensorBlock) : M TensorBlock :=
  let parameter_1 := fst pg in
  let gradient_1 := snd pg in
  gradient_2 <~ liftM (gradient block_2 parameter_1) ;;
  if has_gradients gradient_1 then raiseM (NotImplementedError NESTED)
  else if has_gradients gradient_2 then raiseM (NotImplementedError NESTED)
  else
    values_grad <~ kernel "gradient"
      (gradient_values block_1 block_2 gradient_1 gradient_2) ;;
    g <~ liftM (new_TensorBlock values_grad (samples gradient_1)
                  (components gradient_1) (properties gradient_1)) ;;
    liftM (add_gradient result_block parameter_1 g).

Definition _divide_block_block (block_1 block_2 : TensorBlock)
  : M TensorBlock :=
  values' <~ kernel "divide"
    (ew_array false fdiv (values block_1) (values block_2)) ;;
  result_block <~ liftM
    (new_TensorBlock values' (samples block_1) (components block_1)
       (properties block_1)) ;;
  foldM (divide_gradient block_1 block_2) (gradients block_1) result_block.

(** One turn of the loop over [A.items()]. *)
Definition divide_item (B : TensorMap) (item : LabelsEntry * TensorBlock)
  : M TensorBlock :=
  let key := fst item in
  let block_A := snd item in
  block_B <~ liftM (block B [ByEntry key] []) ;;
  _ <~ validation "_check_blocks_raise"
         (Utils._check_blocks_raise block_A block_B "divide") ;;
  _ <~ validation "_check_same_gradients_raise"
         (Utils._check_same_gradients_raise block_A block_B "divide") ;;
  _divide_block_block block_A block_B.

Definition divide (A : TensorMap) (B : operand) : M TensorMap :=
  blocks <~
    match B with
    | Scalar c =>
        all_blocks <~ liftM (blocks A [] []) ;;
        forM (fun block_A => _divide_block_constant block_A c) all_blocks
    | Map B =>
        _ <~ validation "_check_same_keys_raise"
               (Utils._check_same_keys_raise A B "divide") ;;
        forM (divide_item B) (items A)
    | Object => raiseM (TypeError "B should be a TensorMap or a scalar value")
    end ;;
  liftM (new_TensorMap (keys A) blocks).

End Divide.

(** ** [equistore/operations/allclose.py] *)

Module Allclose.

Definition rtol_default : Qc := Q2Qc (1 # 10000000000000).
Definition atol_default : Qc := Q2Qc (1 # 1000000000000).

Definition compared_props : list string :=
  ["samples"; "properties"; "components"].

Definition allclose_gradient (block_2 : TensorBlock) (rtol atol : Qc)
  (equal_nan : bool) (pg : string * TensorBlock) : M unit :=
  let parameter := fst pg in
  let gradient1 := snd pg in
  gradient2 <~ liftM (gradient block_2 parameter) ;;
  close <~ kernel "allclose"
    (array_allclose (values gradient1) (values gradient2) rtol atol
       equal_nan) ;;
  if negb close
  then raiseM (NotEqualError
                 ("gradient '" ++ parameter ++ "' values are not allclose")
                 None)
  else retM tt.

Definition allclose_block_raise (block_1 block_2 : TensorBlock)
  (rtol atol : Qc) (equal_nan : bool) : M unit :=
  _ <~ validation "values.shape"
         (if negb (shape_eqb (shape (values block_1)) (shape (values block_2)))
          then Raise (NotEqualError "values shapes are different" None)
          else Ok tt) ;;
  close <~ kernel "allclose"
    (array_allclose (values block_1) (values block_2) rtol atol equal_nan) ;;
  _ <~ (if negb close
        then raiseM (NotEqualError "values are not allclose" None)
        else retM tt) ;;
  _ <~ catch_ValueError
         (validation "_check_blocks"
            (Utils._check_blocks block_1 block_2 compared_props "allclose"))
         (fun e => raiseM (NotEqualError (exn_message e) None)) ;;
  _ <~ validation "_check_same_gradients"
         (Utils._check_same_gradients block_1 block_2 compared_props
            "allclose") ;;
  _ <~ forM (allclose_gradient block_2 rtol atol equal_nan)
         (gradients block_1) ;;
  retM tt.

Definition blocks_different (key : LabelsEntry) : string :=
  "blocks for key '" ++ tuple_str (entry_values key) ++ "' are different".

(** One turn of the loop over the items of [tensor_1]. *)
Definition allclose_item (tensor_2 : TensorMap) (rtol atol : Qc)
  (equal_nan : bool) (item : LabelsEntry * TensorBlock) : M unit :=
  let key := fst item in
  let block_1 := snd item in
  catch_NotEqualError
    (block_2 <~ liftM (block tensor_2 [ByEntry key] []) ;;
     allclose_block_raise block_1 block_2 rtol atol equal_nan)
    (fun e => raiseM (NotEqualError (blocks_different key) (Some e))).

Definition allclose_raise (tensor_1 tensor_2 : TensorMap) (rtol atol : Qc)
  (equal_nan : bool) : M unit :=
  _ <~ catch_NotEqualError
         (validation "_check_same_keys"
            (Utils._check_same_keys tensor_1 tensor_2 "allclose"))
         (fun e =>
            raiseM (NotEqualError "the tensor maps have different keys"
                      (Some e))) ;;
  _ <~ forM (allclose_item tensor_2 rtol atol equal_nan) (items tensor_1) ;;
  retM tt.

Definition allclose (tensor_1 tensor_2 : TensorMap) (rtol atol : Qc)
  (equal_nan : bool) : M bool :=
  catch_NotEqualError
    (_ <~ allclose_raise tensor_1 tensor_2 rtol atol equal_nan ;; retM true)
    (fun _ => retM false).

Definition allclose_block (block_1 block_2 : TensorBlock) (rtol atol : Qc)
  (equal_nan : bool) : M bool :=
  catch_NotEqualError
    (_ <~ allclose_block_raise block_1 block_2 rtol atol equal_nan ;;
     retM true)
    (fun _ => retM false).

End Allclose.

(** ** Moving key dimensions into the blocks

    [keys_to_properties] and [keys_to_samples] belong to the core container,
    of which only the tests are among the sources. *)

Module Restructure.

Definition dim_positions (knames dims : list string) : result (list nat) :=
  mapR (fun d =>
    match index_of String.eqb d knames with
    | Some j => Ok j
    | None => Raise (NotFoundError ("'" ++ d ++ "' is not part of the keys"))
    end) dims.

(** The values of a key row in the moved columns, and the row without
    them. *)
Definition moved_values (js : list nat) (r : list Z) : list Z :=
  map (fun j => nth j r 0%Z) js.

Definition remove_columns {A : Type} (js : list nat) (l : list A) : list A :=
  map snd
    (filter (fun ix => negb (mem Nat.eqb (fst ix) js))
       (combine (seq 0 (List.length l)) l)).

(** The blocks whose reduced key is [rk], in key order, each with the
    values its key had in the moved columns. *)
Definition group (T : TensorMap) (js : list nat) (rk : list Z)
  : list (list Z * TensorBlock) :=
  map (fun kb => (moved_values js (fst kb), snd kb))
    (filter (fun kb => row_eqb (remove_columns js (fst kb)) rk)
       (combine (rows (keys T)) (block_store T))).

Definition reduced_keys (T : TensorMap) (js : list nat) : list (list Z) :=
  dedup row_eqb (map (remove_columns js) (rows (keys T))).

Definition first_block (g : list (list Z * TensorBlock))
  : result TensorBlock :=
  match g with
  | [] => Raise (IndexError "empty group")
  | mb :: _ => Ok (snd mb)
  end.

Definition entry (v : array) (i c j : nat) : fval :=
  nth j (nth c (nth i v []) []) fzero.

(** The block of a group that contributes the cells of a moved value. *)
Definition contributor (g : list (list Z * TensorBlock)) (mv : list Z)
  : option TensorBlock :=
  match find (fun mb => row_eqb (fst mb) mv) g with
  | Some mb => Some (snd mb)
  | None => None
  end.

(** One cell of a merged block: the value of the contributing block when it
    has both the sample and the property, zero otherwise. *)
Definition merged_cell (g : list (list Z * TensorBlock)) (n_moved : nat)
  (s : list Z) (c : nat) (mp : list Z) : fval :=
  match contributor g (firstn n_moved mp) with
  | Some b =>
      match position (samples b) s, position (properties b) (skipn n_moved mp)
      with
      | Some i, Some j => entry (values b) i c j
      | _, _ => fzero
      end
  | None => fzero
  end.

Definition merged_properties (dims : list string)
  (g : list (list Z * TensorBlock)) (first : TensorBlock) : Labels :=
  mkLabels (dims ++ names (properties first))
    (dedup row_eqb
       (flat_map (fun mb => map (fun p => fst mb ++ p)
                              (rows (properties (snd mb)))) g)).

Definition union_samples (g : list (list Z * TensorBlock))
  (first : TensorBlock) : Labels :=
  mkLabels (names (samples first))
    (dedup row_eqb (flat_map (fun mb => rows (samples (snd mb))) g)).

(** A gradient sample of a block, re-indexed to the merged sample axis. *)
Definition reindex (b : TensorBlock) (merged : Labels) (gs : list Z)
  : option (list Z) :=
  match gs with
  | [] => None
  | i :: rest =>
      match nth_error (rows (samples b)) (Z.to_nat i) with
      | Some s =>
          match position merged s with
          | Some i' => Some (Z.of_nat i' :: rest)
          | None => None
          end
      | None => None
      end
  end.

Definition reindexed_rows (parameter : string) (merged : Labels)
  (b : TensorBlock) : list (list Z) :=
  match assoc parameter (gradient_store b) with
  | Some gb =>
      flat_map (fun gs =>
        match reindex b merged gs with
        | Some r => [r]
        | None => []
        end) (rows (samples gb))
  | None => []
  end.

(** The row of the gradient of [b] that lands on the merged gradient sample
    [mgs]. *)
Definition source_row (parameter : string) (merged : Labels) (b : TensorBlock)
  (mgs : list Z) : option (TensorBlock * nat) :=
  match assoc parameter (gradient_store b) with
  | Some gb =>
      match where_ (map (fun gs =>
                      match reindex b merged gs with
                      | Some r => row_eqb r mgs
                      | None => false
                      end) (rows (samples gb))) with
      | k :: _ => Some (gb, k)
      | [] => None
      end
  | None => None
  end.

Definition merged_gradient_cell (parameter : string) (merged : Labels)
  (g : list (list Z * TensorBlock)) (n_moved : nat)
  (mgs : list Z) (c : nat) (mp : list Z) : fval :=
  match contributor g (firstn n_moved mp) with
  | Some b =>
      match source_row parameter merged b mgs,
            position (properties b) (skipn n_moved mp) with
      | Some (gb, k), Some j => entry (values gb) k c j
      | _, _ => fzero
      end
  | None => fzero
  end.

Definition table {A : Type} (ss : list (list Z)) (n_c : nat)
  (ps : list (list Z)) (cell : list Z -> nat -> list Z -> A)
  : list (list (list A)) :=
  map (fun s => map (fun c => map (fun p => cell s c p) ps) (seq 0 n_c)) ss.

Definition merge_to_properties (dims : list string)
  (g : list (list Z * TensorBlock)) : result TensorBlock :=
  first <- first_block g ;;
  let n_moved := List.length dims in
  let props := merged_properties dims g first in
  let smpls := union_samples g first in
  let n_c := n_components (components first) in
  let merged_gradient (parameter : string) : string * TensorBlock :=
    let gsamples :=
      mkLabels
        (match assoc parameter (gradient_store first) with
         | Some gb => names (samples gb)
         | None => []
         end)
        (dedup row_eqb
           (flat_map (fun mb => reindexed_rows parameter smpls (snd mb)) g)) in
    (parameter,
     mkBlock
       (table (rows gsamples) n_c (rows props)
          (merged_gradient_cell parameter smpls g n_moved))
       gsamples (components first) props []) in
  Ok (mkBlock
        (table (rows smpls) n_c (rows props) (merged_cell g n_moved))
        smpls (components first) props
        (map merged_gradient (gradients_list first))).

(** Modelled from the spec: [TensorMap.keys_to_properties] (the core
    container is not part of the sources); §4.4 move-to-properties: blocks are
    grouped by reduced key; the properties of a group are the pairs (moved
    values, property) present in its blocks, its samples the union of theirs
    in first-seen order; a cell missing from the contributing block is zero;
    gradients likewise, their samples re-indexed; output keys in first-seen
    order; an unknown dimension is a [NotFoundError]. *)
Definition keys_to_properties (T : TensorMap) (dims : list string)
  : result TensorMap :=
  js <- dim_positions (names (keys T)) dims ;;
  let rks := reduced_keys T js in
  bs <- mapR (fun rk => merge_to_properties dims (group T js rk)) rks ;;
  new_TensorMap (mkLabels (remove_columns js (names (keys T))) rks) bs.

(** Lexicographic order on rows. *)
Fixpoint lex_leb (r r' : list Z) : bool :=
  match r, r' with
  | [], _ => true
  | _ :: _, [] => false
  | x :: k, y :: k' =>
      if (x <? y)%Z then true
      else if (y <? x)%Z then false
      else lex_leb k k'
  end.

(** Stable insertion sort of rows that carry a payload. *)
Fixpoint insert_row {A : Type} (x : list Z * A) (l : list (list Z * A))
  : list (list Z * A) :=
  match l with
  | [] => [x]
  | y :: l' =>
      if lex_leb (fst x) (fst y) then x :: y :: l'
      else y :: insert_row x l'
  end.

Definition sort_rows {A : Type} (l : list (list Z * A)) : list (list Z * A) :=
  fold_right insert_row [] l.

Definition same_properties (g : list (list Z * TensorBlock))
  (first : TensorBlock) : bool :=
  forallb (fun mb => labels_eqb (properties (snd mb)) (properties first)) g.

Definition merge_to_samples (dims : list string) (sort_samples : bool)
  (g : list (list Z * TensorBlock)) : result TensorBlock :=
  first <- first_block g ;;
  if negb (same_properties g first) then Raise InconsistentMetadataError
  else
    let emitted :=
      flat_map (fun mb =>
        combine (map (fun s => s ++ fst mb) (rows (samples (snd mb))))
          (values (snd mb))) g in
    let ordered := if sort_samples then sort_rows emitted else emitted in
    let smpls := mkLabels (names (samples first) ++ dims) (map fst ordered) in
    let merged_gradient (parameter : string) : string * TensorBlock :=
      let grows :=
        flat_map (fun mb =>
          match assoc parameter (gradient_store (snd mb)) with
          | Some gb =>
              flat_map (fun gv =>
                match fst gv with
                | [] => []
                | i :: rest =>
                    match nth_error (rows (samples (snd mb))) (Z.to_nat i) with
                    | Some s =>
                        match position smpls (s ++ fst mb) with
                        | Some i' => [(Z.of_nat i' :: rest, snd gv)]
                        | None => []
                        end
                    | None => []
                    end
                end) (combine (rows (samples gb)) (values gb))
          | None => []
          end) g in
      let gordered := if sort_samples then sort_rows grows else grows in
      match assoc parameter (gradient_store first) with
      | Some gb =>
          (parameter,
           mkBlock (map snd gordered)
             (mkLabels (names (samples gb)) (map fst gordered))
             (components gb) (properties gb) [])
      | None =>
          (parameter,
           mkBlock (map snd gordered) (mkLabels [] (map fst gordered))
             (components first) (properties first) [])
      end in
    Ok (mkBlock (map snd ordered) smpls (components first) (properties first)
          (map merged_gradient (gradients_list first))).

(** Modelled from the spec: [TensorMap.keys_to_samples] (the core container
    is not part of the sources); §4.4 move-to-samples: blocks are grouped by
    reduced key; the moved values are appended to each sample; the blocks of a
    group must have the same properties; rows come block after block, each in
    its own order, or, with [sort_samples], sorted by the whole sample row;
    gradients are re-indexed to the new rows. *)
Definition keys_to_samples (T : TensorMap) (dims : list string)
  (sort_samples : bool) : result TensorMap :=
  js <- dim_positions (names (keys T)) dims ;;
  let rks := reduced_keys T js in
  bs <- mapR (fun rk => merge_to_samples dims sort_samples (group T js rk))
          rks ;;
  new_TensorMap (mkLabels (remove_columns js (names (keys T))) rks) bs.

(** The cell of a block addressed by labels. *)
Definition cell_at (b : TensorBlock) (s : list Z) (c : nat) (p : list Z)
  : option fval :=
  match position (samples b) s, position (properties b) p with
  | Some i, Some j =>
      match nth_error (values b) i with
      | Some r =>
          match nth_error r c with
          | Some ps => nth_error ps j
          | None => None
          end
      | None => None
      end
  | _, _ => None
  end.

End Restructure.

(** ** The tensor map of the tests *)

Module Fixture.

Definition num (z : Z) : fval := Fin (Q2Qc (inject_Z z)).

Definition labels1 (name : string) (vs : list Z) : Labels :=
  mkLabels [name] (map (fun v => [v]) vs).

Definition block_1 : TensorBlock :=
  mkBlock (full 3 1 1 (num 1)) (labels1 "s" [0; 2; 4]%Z)
    [labels1 "c" [0%Z]] (labels1 "p" [0%Z])
    [("g", mkBlock (full 2 1 1 (num 11))
             (mkLabels ["sample"; "g"] [[0; -2]; [2; 3]]%Z)
             [labels1 "c" [0%Z]] (labels1 "p" [0%Z]) [])].

Definition block_2 : TensorBlock :=
  mkBlock (full 3 1 3 (num 2)) (labels1 "s" [0; 1; 3]%Z)
    [labels1 "c" [0%Z]] (labels1 "p" [3; 4; 5]%Z)
    [("g", mkBlock (full 3 1 3 (num 12))
             (mkLabels ["sample"; "g"] [[0; -2]; [0; 3]; [2; -2]]%Z)
             [labels1 "c" [0%Z]] (labels1 "p" [3; 4; 5]%Z) [])].

Definition block_3 : TensorBlock :=
  mkBlock (full 4 3 1 (num 3)) (labels1 "s" [0; 3; 6; 8]%Z)
    [labels1 "c" [0; 1; 2]%Z] (labels1 "p" [0%Z])
    [("g", mkBlock (full 1 3 1 (num 13))
             (mkLabels ["sample"; "g"] [[1; -2]]%Z)
             [labels1 "c" [0; 1; 2]%Z] (labels1 "p" [0%Z]) [])].

Definition block_4 : TensorBlock :=
  mkBlock (full 4 3 1 (num 4)) (labels1 "s" [0; 1; 2; 5]%Z)
    [labels1 "c" [0; 1; 2]%Z] (labels1 "p" [0%Z])
    [("g", mkBlock (full 2 3 1 (num 14))
             (mkLabels ["sample"; "g"] [[0; 1]; [3; 3]]%Z)
             [labels1 "c" [0; 1; 2]%Z] (labels1 "p" [0%Z]) [])].

(** Modelled from the spec: the fixture [utils.tensor()] of the tests
    ([tests/utils.py] is not part of the sources); the four key rows are
    those of §8, and the blocks are what the assertions of [tests/tensor.py]
    pin down. *)
Definition tensor : TensorMap :=
  mkTensorMap
    (mkLabels ["key_1"; "key_2"] [[0; 0]; [1; 0]; [2; 2]; [2; 3]]%Z)
    [block_1; block_2; block_3; block_4].

End Fixture.

Unset Implicit Arguments.

(** ** Notions used to state the properties *)

(** [sub in s] *)
Fixpoint contains (sub s : string) : bool :=
  if String.prefix sub s then true
  else match s with
       | EmptyString => false
       | String _ s' => contains sub s'
       end.

Definition or_zero (o : option fval) : fval :=
  match o with
  | Some v => v
  | None => fzero
  end.

(** The row of values of a block at a sample given by its label. *)
Definition row_at (b : TensorBlock) (s : list Z) : option row :=
  match position (samples b) s with
  | Some i => nth_error (values b) i
  | None => None
  end.

(** The sample of the parent a gradient sample points to, by label, with
    the remaining columns of the gradient sample. *)
Definition gradient_sample_label (parent : TensorBlock) (gs : list Z)
  : option (list Z * list Z) :=
  match gs with
  | [] => None
  | i :: rest =>
      match nth_error (rows (samples parent)) (Z.to_nat i) with
      | Some s => Some (s, rest)
      | None => None
      end
  end.

Definition label_eqb (x y : option (list Z * list Z)) : bool :=
  match x, y with
  | Some (s, r), Some (s', r') => row_eqb s s' && row_eqb r r'
  | _, _ => false
  end.

(** The row of values of the gradient [parameter] of a block that belongs to
    the sample labelled [s] and to the remaining gradient columns [rest]. *)
Definition gradient_row_at (b : TensorBlock) (parameter : string)
  (s rest : list Z) : option row :=
  match assoc parameter (gradient_store b) with
  | Some gb =>
      match where_ (map (fun gs =>
                      label_eqb (gradient_sample_label b gs) (Some (s, rest)))
                     (rows (samples gb))) with
      | k :: _ => nth_error (values gb) k
      | [] => None
      end
  | None => None
  end.

Definition gradient_cell_at (b : TensorBlock) (parameter : string)
  (s rest : list Z) (c : nat) (p : list Z) : option fval :=
  match gradient_row_at b parameter s rest,
        assoc parameter (gradient_store b) with
  | Some r, Some gb =>
      match position (properties gb) p, nth_error r c with
      | Some j, Some ps => nth_error ps j
      | _, _ => None
      end
  | _, _ => None
  end.

Definition lex_le (r r' : list Z) : Prop := Restructure.lex_leb r r' = true.

Definition nums (l : list (list (list Z))) : array :=
  map (map (map Fixture.num)) l.

(** A block or a map has a NaN among its values or the values of its
    gradients. *)
Definition block_has_nan (b : TensorBlock) : bool :=
  array_has_nan (values b)
  || existsb (fun pg => array_has_nan (values (snd pg))) (gradient_store b).

Definition tensormap_has_nan (T : TensorMap) : bool :=
  existsb block_has_nan (block_store T).

(** Same-shape element-wise operations on rows, and the quotient rule
    [dA / B - A * dB / B ** 2] on entries and on rows. *)
Fixpoint map2 {A B C : Type} (f : A -> B -> C) (l : list A) (l' : list B)
  : list C :=
  match l, l' with
  | x :: k, y :: k' => f x y :: map2 f k k'
  | _, _ => []
  end.

Definition row_op (f : fval -> fval -> fval) (a b : row) : row :=
  map2 (map2 f) a b.

Definition quotient_rule (a b da db : fval) : fval :=
  fsub (fdiv da b) (fdiv (fmul a db) (fsquare b)).

Definition quotient_rule_row (a b da db : row) : row :=
  row_op fsub (row_op fdiv da b)
    (row_op fdiv (row_op fmul a db) (map_row fsquare b)).

(** The ["sample"] column of the samples of a gradient, and the rows of the
    gradient that refer to the sample [i] of the block. *)
Definition sample_column (g : TensorBlock) : list Z :=
  map (fun r => nth 0 r 0%Z) (rows (samples g)).

Definition rows_referencing (g : TensorBlock) (i : nat) : result array :=
  col <- column (samples g) "sample" ;;
  take (values g) (where_ (map (fun s => Z.eqb s (Z.of_nat i)) col)).

Definition sorted_by_sample (g : TensorBlock) : Prop :=
  StronglySorted Z.le (sample_column g).

Definition array_eqb (a b : array) : bool :=
  list_eqb (list_eqb (list_eqb feqb)) a b.

(** The index of a call passes the checks that come before the dispatch:
    it has a shape, of one dimension, and integer entries. *)
Definition index_accepted (c : Dispatch.call) : Prop :=
  match Dispatch.index_of_call c with
  | Some idx =>
      match Dispatch.to_index_array idx with
      | Raise (ValueError _) | Raise (AttributeError _) => False
      | _ => True
      end
  | None => True
  end.

(** [l] is the beginning of [l']. *)
Definition is_prefix {A : Type} (l l' : list A) : Prop :=
  exists post, l' = l ++ post.

(** What one turn of the loop of [divide] can record, and what
    [allclose_block_raise] can. *)
Definition divide_item_events (n : nat) : list event :=
  [Validation "_check_blocks_raise"; Validation "_check_same_gradients_raise";
   Kernel "divide"] ++ repeat (Kernel "gradient") n.

Definition allclose_block_events (n : nat) : list event :=
  [Validation "values.shape"; Kernel "allclose"; Validation "_check_blocks";
   Validation "_check_same_gradients"] ++ repeat (Kernel "allclose") n.

(** A row of [C] components by [P] properties. *)
Definition row_shape (C P : nat) (r : row) : Prop :=
  List.length r = C /\ Forall (fun c => List.length c = P) r.

(** The positions of the gradient samples that refer to the sample [i]. *)
Definition selected_from (col : list Z) (off i : nat) : list nat :=
  where_from (map (fun s => Z.eqb s (Z.of_nat i)) col) off.

(** The quotient rule on the gradient row [j] of a sample [i]. *)
Definition rule_row (b1 b2 g1 g2 : TensorBlock) (i j : nat) : row :=
  quotient_rule_row (nth i (values b1) []) (nth i (values b2) [])
    (nth j (values g1) []) (nth j (values g2) []).

(** The gradient [pgR] of the result was computed from the gradient [pg] of
    the first block and the gradient of the same name of the second. *)
Definition divided_gradient (b1 b2 : TensorBlock)
  (pg pgR : string * TensorBlock) : Prop :=
  fst pgR = fst pg
  /\ exists g2 vg,
       gradient b2 (fst pg) = Ok g2
       /\ Divide.gradient_values b1 b2 (snd pg) g2 = Ok vg
       /\ snd pgR = mkBlock vg (samples (snd pg)) (components (snd pg))
                      (properties (snd pg)) [].

(** How a gradient [pgR] of [divide(A, B)] sits against the gradient [pg] of
    the block of [A] it comes from: same parameter and same labels, copied;
    its rows are those of the samples 0, 1, ... of the block in turn; and,
    if the gradient samples of [pg] are in ascending order of the sample
    they refer to, row [j] is the quotient rule on row [j] of the two
    gradients and on the sample that its label names. *)
Definition gradient_layout (bA bB : TensorBlock)
  (pg pgR : string * TensorBlock) : Prop :=
  fst pgR = fst pg
  /\ samples (snd pgR) = samples (snd pg)
  /\ components (snd pgR) = components (snd pg)
  /\ properties (snd pgR) = properties (snd pg)
  /\ exists g2,
       gradient bB (fst pg) = Ok g2
       /\ values (snd pgR)
          = List.concat
              (map (fun i => map (rule_row bA bB (snd pg) g2 i)
                               (selected_from (sample_column (snd pg)) 0 i))
                 (seq 0 (len (samples bA))))
       /\ (sorted_by_sample (snd pg) ->
           forall j s,
             nth_error (sample_column (snd pg)) j = Some s ->
             nth_error (values (snd pgR)) j
             = Some (rule_row bA bB (snd pg) g2 (Z.to_nat s) j)).

(** Two arguments are arrays of the same supported class. *)
Definition same_class (a b : Dispatch.pyobj) : bool :=
  match a, b with
  | Dispatch.NdArray _ _, Dispatch.NdArray _ _ => true
  | Dispatch.Tensor _ _, Dispatch.Tensor _ _ => true
  | _, _ => false
  end.

(** The library an array belongs to. *)
Definition library_of (a : Dispatch.pyobj) : option Dispatch.lib :=
  match a with
  | Dispatch.NdArray _ _ => Some Dispatch.numpy
  | Dispatch.Tensor _ _ => Some Dispatch.torch
  | Dispatch.Other _ _ => None
  end.

(** All the arrays a call is given. *)
Definition array_arguments (c : Dispatch.call) : list Dispatch.pyobj :=
  match c with
  | Dispatch.call_allclose a b | Dispatch.call_dot a b
  | Dispatch.call_solve a b | Dispatch.call_lstsq a b => [a; b]
  | Dispatch.call_bincount input (Some w) => [input; w]
  | Dispatch.call_concatenate a0 others => a0 :: others
  | Dispatch.call_index_add output_array input_array index =>
      [output_array; input_array; index]
  | _ => [Dispatch.dispatched_on c]
  end.

Definition is_norm (c : Dispatch.call) : bool :=
  match c with
  | Dispatch.call_norm _ => true
  | _ => false
  end.

(** A call of [to] that names the backend it wants. *)
Definition names_backend (c : Dispatch.call) : bool :=
  match c with
  | Dispatch.call_to _ _ (Some _) => true
  | _ => false
  end.

(** Integer entries: [np.issubdtype(dtype, np.integer)] for an array, not
    [torch.is_floating_point] for a tensor. *)
Definition has_integer_entries (a : Dispatch.pyobj) : bool :=
  match a with
  | Dispatch.NdArray _ integral => integral
  | Dispatch.Tensor _ floating => negb floating
  | Dispatch.Other _ _ => false
  end.


(** A block divided by a constant: the values, and the values of each
    gradient, entry by entry; the labels as they are. *)
Definition scaled_values (c : fval) (b : TensorBlock) : TensorBlock :=
  mkBlock (map_array (fun x => fdiv x c) (values b)) (samples b)
    (components b) (properties b) [].

Definition scaled_block (c : fval) (b : TensorBlock) : TensorBlock :=
  mkBlock (map_array (fun x => fdiv x c) (values b)) (samples b)
    (components b) (properties b)
    (map (fun pg => (fst pg, scaled_values c (snd pg))) (gradient_store b)).

Definition fone : fval := Fin (Q2Qc 1).

(** No gradient of the block has gradients of its own. *)
Definition no_nested_gradients (b : TensorBlock) : bool :=
  forallb (fun pg => negb (Divide.has_gradients (snd pg))) (gradient_store b).

(** One boolean implies another. *)
Definition implies (x y : bool) : Prop := x = true -> y = true.

(** What [allclose_block_raise] asks of a gradient of its first block, of
    the two blocks, and what [allclose_raise] asks of an item of its first
    map. *)
Definition gradients_close (block_2 : TensorBlock) (rtol atol : Qc)
  (equal_nan : bool) (pg : string * TensorBlock) : Prop :=
  exists g2,
    gradient block_2 (fst pg) = Ok g2
    /\ array_allclose (values (snd pg)) (values g2) rtol atol equal_nan
       = Ok true.

Definition blocks_close (b1 b2 : TensorBlock) (rtol atol : Qc)
  (equal_nan : bool) : Prop :=
  shape_eqb (shape (values b1)) (shape (values b2)) = true
  /\ array_allclose (values b1) (values b2) rtol atol equal_nan = Ok true
  /\ Utils.first_mismatch b1 b2 Allclose.compared_props = None
  /\ Utils._check_same_gradients b1 b2 Allclose.compared_props "allclose"
     = Ok tt
  /\ Forall (gradients_close b2 rtol atol equal_nan) (gradients b1).

Definition items_close (t2 : TensorMap) (rtol atol : Qc) (equal_nan : bool)
  (item : LabelsEntry * TensorBlock) : Prop :=
  exists b2,
    block t2 [ByEntry (fst item)] [] = Ok b2
    /\ blocks_close (snd item) b2 rtol atol equal_nan.


(** One turn of the loop of [_divide_block_constant]. *)
Definition divide_constant_gradient (constant : fval)
  (result_block : TensorBlock) (pg : string * TensorBlock) : M TensorBlock :=
  if Divide.has_gradients (snd pg)
  then raiseM (NotImplementedError Divide.NESTED)
  else
    gvalues <~ kernel "divide"
      (Ok (map_array (fun x => fdiv x constant) (values (snd pg)))) ;;
    g <~ liftM (new_TensorBlock gvalues (samples (snd pg))
                  (components (snd pg)) (properties (snd pg))) ;;
    liftM (add_gradient result_block (fst pg) g).

(** The gradients [gs] can be added to the block [s] one after the other:
    their parameters are new and distinct, their values fit their labels,
    and their components and properties are those of [s]. *)
Definition addable (s : TensorBlock) (gs : list (string * TensorBlock))
  : Prop :=
  NoDup (gradients_list s ++ map fst gs)
  /\ Forall (fun pg =>
       shape_ok (values (snd pg)) (samples (snd pg)) (components (snd pg))
         (properties (snd pg)) = true
       /\ components (snd pg) = components s
       /\ properties (snd pg) = properties s) gs.

(** The rows of the gradient [pgR] of a quotient are the quotient rule on
    the rows of the gradient [pg] of the first block, each row taken once,
    in some order, against the sample it refers to. *)
Definition gradient_rows_rearranged (bA bB : TensorBlock)
  (pg pgR : string * TensorBlock) : Prop :=
  fst pgR = fst pg
  /\ exists g2 order,
       gradient bB (fst pg) = Ok g2
       /\ Permutation order (seq 0 (len (samples (snd pg))))
       /\ values (snd pgR)
          = map (fun j =>
                   rule_row bA bB (snd pg) g2
                     (Z.to_nat (nth j (sample_column (snd pg)) 0%Z)) j)
              order.

(** What [divide] needs of a pair of blocks to go through: the same labels,
    the same gradients, no gradients of gradients, and at least one sample
    when there is a gradient. *)
Definition divisible (bA bB : TensorBlock) : Prop :=
  Utils._check_blocks_raise bA bB "divide" = Ok tt
  /\ Utils._check_same_gradients_raise bA bB "divide" = Ok tt
  /\ no_nested_gradients bA = true
  /\ no_nested_gradients bB = true
  /\ (gradient_store bA = [] \/ len (samples bA) <> 0%nat).

(** What one turn of the loop of [_divide_block_block] needs. *)
Definition gradient_divisible (bA bB : TensorBlock)
  (pg : string * TensorBlock) : Prop :=
  exists g2 vg,
    gradient bB (fst pg) = Ok g2
    /\ Divide.has_gradients (snd pg) = false
    /\ Divide.has_gradients g2 = false
    /\ Divide.gradient_values bA bB (snd pg) g2 = Ok vg
    /\ shape_ok vg (samples (snd pg)) (components (snd pg))
         (properties (snd pg)) = true
    /\ components (snd pg) = components bA
    /\ properties (snd pg) = properties bA.

(** The name under which [to] knows the library of an array. *)
Definition backend_name (a : Dispatch.pyobj) : string :=
  match a with
  | Dispatch.Tensor _ _ => "torch"
  | _ => "numpy"
  end.

(** The conversion of a torch tensor to numpy. *)
Definition torch_to_numpy (a : Dispatch.pyobj) (backend : option string)
  : bool :=
  match a, backend with
  | Dispatch.Tensor _ _, Some b => String.eqb b "numpy"
  | _, _ => false
  end.

(** ** Inputs of the examples *)

Module Examples.

Import Fixture.

Definition rat (n : Z) (d : positive) : fval := Fin (Q2Qc (n # d)).

Definition structure_center : Labels :=
  mkLabels ["structure"; "center"] [[0; 0]; [0; 1]]%Z.

(** The blocks and maps of the examples in the documentation of
    [allclose.py]. *)
Definition doc_block (first : fval) (property_name : string) : TensorBlock :=
  mkBlock [[[first; num 2; num 4]]; [[num 3; num 5; num 6]]]
    structure_center [] (labels1 property_name [0; 1; 2]%Z) [].

Definition doc_tensor_1 : TensorMap :=
  mkTensorMap (labels1 "key1" [0%Z]) [doc_block (num 1) "properties"].

Definition doc_tensor_2 : TensorMap :=
  mkTensorMap (labels1 "key2" [0%Z]) [doc_block (num 1) "properties"].

Definition doc_tensor_3 : TensorMap :=
  mkTensorMap (labels1 "key1" [0%Z])
    [doc_block (rat 100001 100000) "properties"].

(** A map with a NaN among its values. *)
Definition nan_tensor : TensorMap :=
  mkTensorMap (labels1 "key" [0%Z])
    [mkBlock [[[num 1; NaN]]] (labels1 "s" [0%Z]) []
       (labels1 "p" [0; 1]%Z) []].

(** Two samples, one property, and a gradient whose two samples refer to
    sample 1 first and to sample 0 next. *)
Definition unsorted_block (v0 v1 g0 g1 : Z) : TensorBlock :=
  mkBlock [[[num v0]]; [[num v1]]] (labels1 "s" [0; 1]%Z) []
    (labels1 "p" [0%Z])
    [("g", mkBlock [[[num g0]]; [[num g1]]]
             (labels1 "sample" [1; 0]%Z) [] (labels1 "p" [0%Z]) [])].

Definition unsorted_A : TensorMap :=
  mkTensorMap (labels1 "key" [0%Z]) [unsorted_block 2 4 10 20].

Definition unsorted_B : TensorMap :=
  mkTensorMap (labels1 "key" [0%Z]) [unsorted_block 1 2 0 0].

(** The same blocks with the gradient samples in ascending order. *)
Definition sorted_block (v0 v1 g0 g1 : Z) : TensorBlock :=
  mkBlock [[[num v0]]; [[num v1]]] (labels1 "s" [0; 1]%Z) []
    (labels1 "p" [0%Z])
    [("g", mkBlock [[[num g0]]; [[num g1]]]
             (labels1 "sample" [0; 1]%Z) [] (labels1 "p" [0%Z]) [])].

Definition sorted_A : TensorMap :=
  mkTensorMap (labels1 "key" [0%Z]) [sorted_block 2 4 20 10].

Definition sorted_B : TensorMap :=
  mkTensorMap (labels1 "key" [0%Z]) [sorted_block 1 2 0 0].

(** Two maps of two blocks whose second blocks have different samples. *)
Definition plain_block (s : list Z) (v : Z) : TensorBlock :=
  mkBlock [[[num v]]] (labels1 "s" s) [] (labels1 "p" [0%Z]) [].

Definition late_A : TensorMap :=
  mkTensorMap (labels1 "key" [0; 1]%Z)
    [plain_block [0%Z] 6; plain_block [0%Z] 8].

Definition late_B : TensorMap :=
  mkTensorMap (labels1 "key" [0; 1]%Z)
    [plain_block [0%Z] 3; plain_block [7%Z] 2].

(** A block without samples, with a gradient. *)
Definition empty_block : TensorBlock :=
  mkBlock [] (labels1 "s" []) [] (labels1 "p" [0%Z])
    [("g", mkBlock [] (labels1 "sample" []) [] (labels1 "p" [0%Z]) [])].

(** The map of [tests/tensor.py] with its keys and blocks in the opposite
    order. *)
Definition reordered_tensor : TensorMap :=
  mkTensorMap (mkLabels (names (keys tensor)) (rev (rows (keys tensor))))
    (rev (block_store tensor)).

End Examples.

(** * Properties *)

Import Fixture Restructure Examples.

(** ** Selection of blocks *)

Lemma mapR_block_by_id_raises (T : TensorMap) (l : list nat) (e : exn) :
  mapR (block_by_id T) l = Raise e -> e = IndexError "block index out of bounds".
Proof.
  induction l as [|i l IH]; simpl; [discriminate|].
  unfold block_by_id at 1.
  destruct (nth_error (block_store T) i); simpl.
  - destruct (mapR (block_by_id T) l); simpl; [discriminate|].
    intros H; inversion H; subst. now apply IH.
  - intros H; now inversion H.
Qed.

Lemma blocks_matching_raises (T : TensorMap) args kwargs (e : exn) :
  blocks_matching T args kwargs = Raise e ->
  exists msg, e = TooManyArgumentsError msg.
Proof.
  unfold blocks_matching.
  destruct args as [|s1 [|s2 more]]; [discriminate| |].
  - destruct s1; discriminate.
  - destruct s1; intros H; inversion H; eauto.
Qed.

(** C9: on the map of the tests, whose key rows are (0,0), (1,0), (2,2),
    (2,3): [block(key_1=3)] fails because nothing matches, [block(key_2=0)]
    because two blocks match, with a message that points to
    [TensorMap.blocks]; [block(2)] is the third block; two positional
    selectors are one too many, on any map; [blocks] returns every matching
    block, two, one or none of them, and never fails for an ambiguous
    selection. *)
Theorem block_selection_on_fixture :
  block tensor [] [("key_1", 3%Z)]
  = Raise (NoMatchError
             "Couldn't find any block matching the selection 'key_1 = 3'")
  /\ block tensor [] [("key_2", 0%Z)]
     = Raise (AmbiguousMatchError
                "more than one block matched 'key_2 = 0', use `TensorMap.blocks` if you want to get all of them")
  /\ block tensor [ByIndex 2] [] = Ok block_3
  /\ block tensor [ByIndex 3; ByIndex 4] []
     = Raise (TooManyArgumentsError
                "only one non-keyword argument is supported, 2 are given")
  /\ (forall T s1 s2 more kwargs,
        exists msg,
          block T (s1 :: s2 :: more) kwargs
          = Raise (TooManyArgumentsError msg))
  /\ blocks tensor [] [("key_2", 0%Z)] = Ok [block_1; block_2]
  /\ blocks tensor [ByIndex 2] [] = Ok [block_3]
  /\ blocks tensor [] [("key_1", 3%Z)] = Ok []
  /\ (forall T args kwargs msg,
        blocks T args kwargs <> Raise (AmbiguousMatchError msg)).
Proof.
  repeat split; try reflexivity.
  - intros T s1 s2 more kwargs. eexists. destruct s1; reflexivity.
  - intros T args kwargs msg H. unfold blocks in H.
    destruct (blocks_matching T args kwargs) as [m|e] eqn:Hm; simpl in H.
    + apply mapR_block_by_id_raises in H. discriminate.
    + apply blocks_matching_raises in Hm as [msg' ->]. discriminate.
Qed.

(** ** Moving keys to properties and to samples *)

(** C1: on the map of the tests, [keys_to_properties(["key_1"])] leaves the
    keys (0), (2), (3), the distinct values of key_2.  The properties of the
    first new block are the pairs (key_1, p) of the two blocks with
    key_2 = 0; its samples are the union of theirs, without repetition; each
    cell is the cell of the block its key_1 names, or zero when that block
    lacks the sample or the property.  The gradient has the same properties,
    the gradient samples of both blocks, and the same zeros.  Read by label,
    the values and the gradient are the arrays the test expects. *)
Theorem keys_to_properties_on_fixture :
  exists T b b' b'' gb,
    keys_to_properties tensor ["key_1"] = Ok T
    /\ keys T = mkLabels ["key_2"] [[0]; [2]; [3]]%Z
    /\ block_store T = [b; b'; b'']
    /\ properties b
       = mkLabels ["key_1"; "p"]
           (map (cons 0%Z) (rows (properties block_1))
            ++ map (cons 1%Z) (rows (properties block_2)))
    /\ rows (samples b)
       = dedup row_eqb (rows (samples block_1) ++ rows (samples block_2))
    /\ Forall (fun s =>
         Forall (fun p =>
           cell_at b s 0 (0%Z :: p) = Some (or_zero (cell_at block_1 s 0 p)))
           (rows (properties block_1))
         /\ Forall (fun p =>
           cell_at b s 0 (1%Z :: p) = Some (or_zero (cell_at block_2 s 0 p)))
           (rows (properties block_2)))
         (rows (samples b))
    /\ map (row_at b) [[0]; [1]; [2]; [3]; [4]]%Z
       = map Some (nums [[[1; 2; 2; 2]]; [[0; 2; 2; 2]]; [[1; 0; 0; 0]];
                         [[0; 2; 2; 2]]; [[1; 0; 0; 0]]]%Z)
    /\ gradient b "g" = Ok gb
    /\ properties gb = properties b
    /\ map (gradient_sample_label b) (rows (samples gb))
       = dedup label_eqb
           (map (gradient_sample_label block_1) [[0; -2]; [2; 3]]%Z
            ++ map (gradient_sample_label block_2)
                 [[0; -2]; [0; 3]; [2; -2]]%Z)
    /\ Forall (fun gs =>
         match gradient_sample_label b gs with
         | Some (s, rest) =>
             Forall (fun p =>
               gradient_cell_at b "g" s rest 0 (0%Z :: p)
               = Some (or_zero (gradient_cell_at block_1 "g" s rest 0 p)))
               (rows (properties block_1))
             /\ Forall (fun p =>
               gradient_cell_at b "g" s rest 0 (1%Z :: p)
               = Some (or_zero (gradient_cell_at block_2 "g" s rest 0 p)))
               (rows (properties block_2))
         | None => False
         end) (rows (samples gb))
    /\ map (fun sr => gradient_row_at b "g" (fst sr) (snd sr))
         [([0], [-2]); ([0], [3]); ([3], [-2]); ([4], [3])]%Z
       = map Some (nums [[[11; 12; 12; 12]]; [[0; 12; 12; 12]];
                         [[0; 12; 12; 12]]; [[11; 0; 0; 0]]]%Z).
Proof.
  do 5 eexists.
  split; [vm_compute; reflexivity|].
  split; [reflexivity|].
  split; [reflexivity|].
  split; [reflexivity|].
  split; [reflexivity|].
  split; [vm_compute; repeat constructor|].
  split; [vm_compute; reflexivity|].
  split; [vm_compute; reflexivity|].
  split; [reflexivity|].
  split; [vm_compute; reflexivity|].
  split; [|vm_compute; reflexivity].
  vm_compute; repeat constructor.
Qed.

(** One step of a proof that two explicit lists are permutations of each
    other: the head of the first is found in the second. *)
Ltac perm_step :=
  first
    [ apply perm_nil
    | apply perm_skip
    | apply (@Permutation_cons_app _ _ [_] _); simpl
    | apply (@Permutation_cons_app _ _ [_; _] _); simpl
    | apply (@Permutation_cons_app _ _ [_; _; _] _); simpl
    | apply (@Permutation_cons_app _ _ [_; _; _; _] _); simpl
    | apply (@Permutation_cons_app _ _ [_; _; _; _; _] _); simpl
    | apply (@Permutation_cons_app _ _ [_; _; _; _; _; _] _); simpl
    | apply (@Permutation_cons_app _ _ [_; _; _; _; _; _; _] _); simpl ].

(** C3: on the map of the tests, [keys_to_samples(["key_2"])] appends the
    column key_2 to the samples.  With [sort_samples] the rows of every new
    block are in ascending lexicographic order of (s, key_2) -- those of the
    merged third block are the ones the test lists, with their values --
    and they are the rows of the two merged blocks in another order.
    Without it they come block after block, in the order of each block. *)
Theorem keys_to_samples_on_fixture :
  exists T U b u,
    keys_to_samples tensor ["key_2"] true = Ok T
    /\ keys T = mkLabels ["key_1"] [[0]; [1]; [2]]%Z
    /\ nth_error (block_store T) 2 = Some b
    /\ samples b
       = mkLabels ["s"; "key_2"]
           [[0; 2]; [0; 3]; [1; 3]; [2; 3]; [3; 2]; [5; 3]; [6; 2]; [8; 2]]%Z
    /\ Forall (fun b0 => StronglySorted lex_le (rows (samples b0)))
         (block_store T)
    /\ Permutation (rows (samples b))
         (map (fun s => s ++ [2%Z]) (rows (samples block_3))
          ++ map (fun s => s ++ [3%Z]) (rows (samples block_4)))
    /\ map (row_at b) (rows (samples b))
       = map Some (nums [[[3]; [3]; [3]]; [[4]; [4]; [4]]; [[4]; [4]; [4]];
                         [[4]; [4]; [4]]; [[3]; [3]; [3]]; [[4]; [4]; [4]];
                         [[3]; [3]; [3]]; [[3]; [3]; [3]]]%Z)
    /\ keys_to_samples tensor ["key_2"] false = Ok U
    /\ nth_error (block_store U) 2 = Some u
    /\ names (samples u) = ["s"; "key_2"]
    /\ rows (samples u)
       = map (fun s => s ++ [2%Z]) (rows (samples block_3))
         ++ map (fun s => s ++ [3%Z]) (rows (samples block_4))
    /\ rows (samples u)
       = [[0; 2]; [3; 2]; [6; 2]; [8; 2]; [0; 3]; [1; 3]; [2; 3]; [5; 3]]%Z.
Proof.
  do 4 eexists.
  split; [vm_compute; reflexivity|].
  split; [reflexivity|].
  split; [reflexivity|].
  split; [reflexivity|].
  split; [unfold lex_le; simpl; repeat constructor|].
  split.
  { simpl. repeat perm_step. }
  split; [vm_compute; reflexivity|].
  split; [vm_compute; reflexivity|].
  split; [reflexivity|].
  split; [reflexivity|].
  split; reflexivity.
Qed.

(** ** Dispatch over the array backends *)

(** X1: Every function of the module but [unique] ends with the same [else]
    branch: an argument that is neither a numpy array nor a torch tensor is
    refused with [TypeError(UNKNOWN_ARRAY_TYPE)]. *)
Lemma dispatch_refuses_other (c : Dispatch.call) :
  Dispatch.is_other (Dispatch.dispatched_on c) = true ->
  Dispatch.is_unique c = false ->
  index_accepted c ->
  Dispatch.run c = Dispatch.Raises (TypeError Dispatch.UNKNOWN_ARRAY_TYPE).
Proof.
  unfold index_accepted.
  destruct c; simpl; intros Ho Hu Hi;
    try discriminate;
    try (match goal with
         | H : Dispatch.is_other ?a = true |- _ =>
             destruct a; try discriminate H; reflexivity
         end).
  - (* index_add *)
    destruct input_array; try discriminate Ho.
    unfold Dispatch.index_add.
    destruct (Dispatch.to_index_array index) as [v|e] eqn:Hidx;
      [reflexivity|].
    unfold Dispatch.to_index_array in Hidx.
    destruct (Dispatch.ndim_of index) as [n|]; [|inversion Hidx; subst; tauto].
    destruct (negb (n =? 1)%nat); [inversion Hidx; subst; tauto|].
    destruct index as [? integral|? floating|? ?];
      [destruct integral|destruct floating|]; simpl in Hidx;
      inversion Hidx; subst; try tauto; reflexivity.
  - (* to_index_array *)
    destruct array0; try discriminate Ho.
    unfold Dispatch.to_index_array in *. simpl in *.
    destruct ndim as [n|]; [|tauto].
    destruct (negb (n =? 1)%nat); [tauto|reflexivity].
Qed.

(** C5: [unique] has no [else] branch.  Given an argument of any other class
    it raises nothing and returns [None], where its sibling
    [unique_with_inverse], like the rest of the module, raises
    [TypeError(UNKNOWN_ARRAY_TYPE)]. *)
Theorem unique_returns_none_for_unknown_arrays :
  forall (cls : string) (ndim : option nat),
    Dispatch.run (Dispatch.call_unique (Dispatch.Other cls ndim))
    = Dispatch.ReturnsNone
    /\ Dispatch.run (Dispatch.call_unique_with_inverse (Dispatch.Other cls ndim))
       = Dispatch.Raises (TypeError Dispatch.UNKNOWN_ARRAY_TYPE)
    /\ Dispatch.run (Dispatch.call_unique (Dispatch.Other cls ndim))
       <> Dispatch.Raises (TypeError Dispatch.UNKNOWN_ARRAY_TYPE).
Proof.
  intros cls ndim. repeat split. discriminate.
Qed.

(** C6: the two branches of [norm] are exchanged in the newer module: a
    numpy array is sent to [torch.linalg.norm] and a torch tensor to
    [np.linalg.norm], while the older module sends each to its own library.
    The two dispatchers disagree on every supported argument. *)
Theorem norm_branches_are_exchanged :
  forall (n : nat) (flag : bool),
    Dispatch.norm (Dispatch.NdArray n flag)
    = Dispatch.Calls Dispatch.torch "linalg.norm"
    /\ EquistoreDispatch.norm (Dispatch.NdArray n flag)
       = Dispatch.Calls Dispatch.numpy "linalg.norm"
    /\ Dispatch.norm (Dispatch.Tensor n flag)
       = Dispatch.Calls Dispatch.numpy "linalg.norm"
    /\ EquistoreDispatch.norm (Dispatch.Tensor n flag)
       = Dispatch.Calls Dispatch.torch "linalg.norm"
    /\ Dispatch.norm (Dispatch.NdArray n flag)
       <> EquistoreDispatch.norm (Dispatch.NdArray n flag)
    /\ Dispatch.norm (Dispatch.Tensor n flag)
       <> EquistoreDispatch.norm (Dispatch.Tensor n flag).
Proof.
  intros n flag. repeat split; discriminate.
Qed.

(** ** The monad of traces and results *)

Lemma outcome_bindM_ok {A B : Type} (m : M A) (k : A -> M B) (a : A) :
  outcome m = Ok a -> outcome (bindM m k) = outcome (k a).
Proof.
  destruct m as [t r]; simpl; intros ->.
  unfold bindM, outcome. destruct (k a); reflexivity.
Qed.

Lemma outcome_bindM_raise {A B : Type} (m : M A) (k : A -> M B) (e : exn) :
  outcome m = Raise e -> outcome (bindM m k) = Raise e.
Proof.
  destruct m as [t r]; simpl; intros ->. reflexivity.
Qed.

Lemma outcome_bindM_inv {A B : Type} (m : M A) (k : A -> M B) (b : B) :
  outcome (bindM m k) = Ok b ->
  exists a, outcome m = Ok a /\ outcome (k a) = Ok b.
Proof.
  destruct m as [t [a|e]]; unfold bindM, outcome; simpl.
  - destruct (k a) as [t' r] eqn:Hk; simpl. intros ->.
    exists a. rewrite Hk. auto.
  - discriminate.
Qed.

Lemma trace_bindM_ok {A B : Type} (m : M A) (k : A -> M B) (a : A) :
  outcome m = Ok a -> trace (bindM m k) = trace m ++ trace (k a).
Proof.
  destruct m as [t r]; simpl; intros ->.
  unfold bindM, trace. destruct (k a); reflexivity.
Qed.

Lemma trace_bindM_raise {A B : Type} (m : M A) (k : A -> M B) (e : exn) :
  outcome m = Raise e -> trace (bindM m k) = trace m.
Proof.
  destruct m as [t r]; simpl; intros ->. reflexivity.
Qed.

Lemma outcome_forM_ok {A B : Type} (f : A -> M B) (g : A -> B) (l : list A) :
  Forall (fun x => outcome (f x) = Ok (g x)) l ->
  outcome (forM f l) = Ok (map g l).
Proof.
  induction 1 as [|x l Hx Hl IH]; [reflexivity|].
  simpl. rewrite (outcome_bindM_ok _ _ _ Hx).
  rewrite (outcome_bindM_ok _ _ _ IH). reflexivity.
Qed.

Lemma outcome_forM_raise {A B : Type} (f : A -> M B) (pre post : list A)
  (x : A) (e : exn) :
  Forall (fun y => exists b, outcome (f y) = Ok b) pre ->
  outcome (f x) = Raise e ->
  outcome (forM f (pre ++ x :: post)) = Raise e.
Proof.
  intros Hpre Hx. induction Hpre as [|y pre [b Hy] _ IH]; simpl.
  - now apply outcome_bindM_raise.
  - rewrite (outcome_bindM_ok _ _ _ Hy). now apply outcome_bindM_raise.
Qed.

Lemma outcome_forM_inv {A B : Type} (f : A -> M B) (l : list A) (bs : list B) :
  outcome (forM f l) = Ok bs ->
  Forall2 (fun x b => outcome (f x) = Ok b) l bs.
Proof.
  revert bs. induction l as [|x l IH]; simpl; intros bs H.
  - inversion H. constructor.
  - apply outcome_bindM_inv in H as (b & Hb & H).
    apply outcome_bindM_inv in H as (bs' & Hbs & H).
    inversion H; subst. constructor; auto.
Qed.

Lemma outcome_catch_NotEqualError {A : Type} (m : M A) (h : exn -> M A)
  (msg : string) (c : option exn) :
  outcome m = Raise (NotEqualError msg c) ->
  outcome (catch_NotEqualError m h) = outcome (h (NotEqualError msg c)).
Proof.
  destruct m as [t r]; simpl; intros ->. unfold catch_NotEqualError, outcome.
  destruct (h (NotEqualError msg c)); reflexivity.
Qed.

Lemma outcome_catch_NotEqualError_ok {A : Type} (m : M A) (h : exn -> M A)
  (a : A) :
  outcome m = Ok a -> outcome (catch_NotEqualError m h) = Ok a.
Proof.
  destruct m as [t r]; simpl; intros ->. reflexivity.
Qed.

(** ** Boolean equalities *)

Lemma list_eqb_eq {A : Type} (eqb : A -> A -> bool) :
  (forall x y, eqb x y = true <-> x = y) ->
  forall l l', list_eqb eqb l l' = true <-> l = l'.
Proof.
  intros Heq. induction l as [|x l IH]; destruct l' as [|y l']; simpl;
    try (split; [discriminate|discriminate]); [tauto|].
  rewrite andb_true_iff, Heq, IH. split.
  - intros [-> ->]; reflexivity.
  - intros H; inversion H; auto.
Qed.

Lemma row_eqb_eq (r r' : list Z) : row_eqb r r' = true <-> r = r'.
Proof. apply list_eqb_eq. apply Z.eqb_eq. Qed.

Lemma names_eqb_eq (l l' : list string) : names_eqb l l' = true <-> l = l'.
Proof. apply list_eqb_eq. apply String.eqb_eq. Qed.

Lemma labels_eqb_eq (a b : Labels) : labels_eqb a b = true <-> a = b.
Proof.
  unfold labels_eqb. rewrite andb_true_iff, names_eqb_eq.
  rewrite (list_eqb_eq row_eqb row_eqb_eq).
  destruct a, b; simpl. split.
  - intros [-> ->]; reflexivity.
  - intros H; inversion H; auto.
Qed.

Lemma mem_In {A : Type} (eqb : A -> A -> bool) :
  (forall x y, eqb x y = true <-> x = y) ->
  forall x l, mem eqb x l = true <-> In x l.
Proof.
  intros Heq x l. unfold mem. rewrite existsb_exists. split.
  - intros (y & Hy & E). apply Heq in E. now subst.
  - intros H. exists x. split; [assumption|now apply Heq].
Qed.

Lemma same_keys_iff (a b : TensorMap) :
  Utils.same_keys a b = true <->
  names (keys a) = names (keys b)
  /\ forall r, In r (rows (keys a)) <-> In r (rows (keys b)).
Proof.
  unfold Utils.same_keys.
  rewrite !andb_true_iff, names_eqb_eq, !forallb_forall.
  split.
  - intros [[Hn Hab] Hba]. split; [assumption|]. intros r. split; intros H.
    + apply (mem_In row_eqb row_eqb_eq). now apply Hab.
    + apply (mem_In row_eqb row_eqb_eq). now apply Hba.
  - intros [Hn H]. repeat split; [assumption| |]; intros r Hr;
      apply (mem_In row_eqb row_eqb_eq); now apply H.
Qed.

(** ** Comparison errors *)

Lemma allclose_false_of_raise (t1 t2 : TensorMap) (rtol atol : Qc)
  (equal_nan : bool) (msg : string) (c : option exn) :
  outcome (Allclose.allclose_raise t1 t2 rtol atol equal_nan)
  = Raise (NotEqualError msg c) ->
  outcome (Allclose.allclose t1 t2 rtol atol equal_nan) = Ok false.
Proof.
  intros H. unfold Allclose.allclose.
  erewrite outcome_catch_NotEqualError; [reflexivity|].
  apply outcome_bindM_raise. exact H.
Qed.

(** C8: when the two maps do not have the same keys (names, or rows as
    sets), [allclose_raise] raises a [NotEqualError] whose message, "the
    tensor maps have different keys", mentions the different keys, and
    [allclose] returns [False].  When the keys agree and the first pair of
    blocks that does not compare equal fails with a [NotEqualError], that
    error comes out wrapped in "blocks for key '<key>' are different", the
    key being that of the pair, and [allclose] returns [False]. *)
Theorem allclose_raise_error_context :
  forall (t1 t2 : TensorMap) (rtol atol : Qc) (equal_nan : bool),
    (~ (names (keys t1) = names (keys t2)
        /\ forall r, In r (rows (keys t1)) <-> In r (rows (keys t2))) ->
     exists cause,
       outcome (Allclose.allclose_raise t1 t2 rtol atol equal_nan)
       = Raise (NotEqualError "the tensor maps have different keys"
                  (Some cause))
       /\ contains "different keys" "the tensor maps have different keys"
          = true
       /\ outcome (Allclose.allclose t1 t2 rtol atol equal_nan) = Ok false)
    /\ (names (keys t1) = names (keys t2) ->
        (forall r, In r (rows (keys t1)) <-> In r (rows (keys t2))) ->
        forall pre key block_1 post block_2 msg cause,
          items t1 = pre ++ (key, block_1) :: post ->
          Forall (fun item =>
            exists b2,
              block t2 [ByEntry (fst item)] [] = Ok b2
              /\ outcome (Allclose.allclose_block_raise (snd item) b2 rtol
                            atol equal_nan) = Ok tt) pre ->
          block t2 [ByEntry key] [] = Ok block_2 ->
          outcome (Allclose.allclose_block_raise block_1 block_2 rtol atol
                     equal_nan) = Raise (NotEqualError msg cause) ->
          outcome (Allclose.allclose_raise t1 t2 rtol atol equal_nan)
          = Raise (NotEqualError
                     ("blocks for key '" ++ tuple_str (entry_values key)
                      ++ "' are different")
                     (Some (NotEqualError msg cause)))
          /\ outcome (Allclose.allclose t1 t2 rtol atol equal_nan) = Ok false).
Proof.
  intros t1 t2 rtol atol equal_nan. split.
  - intros Hdiff.
    assert (Hk : Utils.same_keys t1 t2 = false).
    { destruct (Utils.same_keys t1 t2) eqn:E; [|reflexivity].
      apply same_keys_iff in E. contradiction. }
    assert (Hr : outcome (Allclose.allclose_raise t1 t2 rtol atol equal_nan)
                 = Raise (NotEqualError "the tensor maps have different keys"
                            (Some (NotEqualError
                                     "inputs to 'allclose' should have the same keys"
                                     None)))).
    { unfold Allclose.allclose_raise, Utils._check_same_keys.
      rewrite Hk. reflexivity. }
    eexists. split; [exact Hr|]. split; [reflexivity|].
    eapply allclose_false_of_raise. exact Hr.
  - intros Hn Hrows pre key block_1 post block_2 msg cause Hitems Hpre Hb Hfail.
    assert (Hk : Utils.same_keys t1 t2 = true).
    { apply same_keys_iff. auto. }
    assert (Hr : outcome (Allclose.allclose_raise t1 t2 rtol atol equal_nan)
                 = Raise (NotEqualError
                            ("blocks for key '" ++ tuple_str (entry_values key)
                             ++ "' are different")
                            (Some (NotEqualError msg cause)))).
    { unfold Allclose.allclose_raise, Utils._check_same_keys.
      rewrite Hk.
      erewrite outcome_bindM_ok; [|reflexivity].
      apply outcome_bindM_raise. rewrite Hitems.
      apply outcome_forM_raise.
      - eapply Forall_impl; [|exact Hpre].
        intros [k b] (b2 & Hb2 & Hok); cbn [fst snd] in *.
        exists tt. unfold Allclose.allclose_item; cbn [fst snd].
        apply outcome_catch_NotEqualError_ok.
        erewrite outcome_bindM_ok; [exact Hok|].
        unfold liftM, outcome; cbn [snd]. exact Hb2.
      - unfold Allclose.allclose_item; cbn [fst snd].
        erewrite outcome_catch_NotEqualError; [reflexivity|].
        erewrite outcome_bindM_ok; [exact Hfail|].
        unfold liftM, outcome; cbn [snd]. exact Hb. }
    split; [exact Hr|]. eapply allclose_false_of_raise. exact Hr.
Qed.

Lemma allclose_raise_error_context_witness :
  (exists cause,
     outcome (Allclose.allclose_raise doc_tensor_1 doc_tensor_2
                Allclose.rtol_default Allclose.atol_default false)
     = Raise (NotEqualError "the tensor maps have different keys"
                (Some cause)))
  /\ outcome (Allclose.allclose_raise doc_tensor_1 doc_tensor_3
                Allclose.rtol_default Allclose.atol_default false)
     = Raise (NotEqualError "blocks for key '(0,)' are different"
                (Some (NotEqualError "values are not allclose" None))).
Proof.
  split.
  - destruct (allclose_raise_error_context doc_tensor_1 doc_tensor_2
                Allclose.rtol_default Allclose.atol_default false)
      as [H _].
    destruct H as (cause & H & _).
    + intros [Hn _]. discriminate Hn.
    + exists cause. exact H.
  - destruct (allclose_raise_error_context doc_tensor_1 doc_tensor_3
                Allclose.rtol_default Allclose.atol_default false)
      as [_ H].
    refine (proj1 (H eq_refl (fun r => conj (fun h => h) (fun h => h))
                     [] (mkEntry ["key1"] [0%Z])
                     (doc_block (num 1) "properties") []
                     (doc_block (rat 100001 100000) "properties")
                     "values are not allclose" None
                     eq_refl (Forall_nil _) eq_refl _)).
    vm_compute. reflexivity.
Defined.

(** ** Lists, positions and key rows *)

Lemma nodupb_NoDup {A : Type} (eqb : A -> A -> bool) :
  (forall x y, eqb x y = true <-> x = y) ->
  forall l, nodupb eqb l = true -> NoDup l.
Proof.
  intros Heq. induction l as [|x l IH]; simpl; intros H; constructor.
  - apply andb_true_iff in H as [H _]. intros Hin.
    apply (mem_In eqb Heq) in Hin. rewrite Hin in H. discriminate.
  - apply andb_true_iff in H as [_ H]. auto.
Qed.

Lemma nth_error_combine {A B : Type} (l : list A) (l' : list B) (n : nat) :
  nth_error (combine l l') n
  = match nth_error l n, nth_error l' n with
    | Some a, Some b => Some (a, b)
    | _, _ => None
    end.
Proof.
  revert l' n. induction l as [|a l IH]; intros [|b l'] [|n]; simpl; auto.
  - destruct (nth_error l n); reflexivity.
Qed.

Lemma index_of_nth (l : list string) (n : nat) (x : string) :
  NoDup l -> nth_error l n = Some x -> index_of String.eqb x l = Some n.
Proof.
  intros Hnd. revert n. induction Hnd as [|y l Hy Hnd IH]; intros [|n]; simpl;
    try discriminate.
  - intros H; inversion H; subst. now rewrite String.eqb_refl.
  - intros H. destruct (String.eqb x y) eqn:E.
    + apply String.eqb_eq in E. subst. apply nth_error_In in H. contradiction.
    + now rewrite (IH _ H).
Qed.

Lemma where_from_unique {A : Type} (p : A -> bool) (l : list A) (k off : nat) :
  (k < List.length l)%nat ->
  (forall j x, nth_error l j = Some x -> (p x = true <-> j = k)) ->
  where_from (map p l) off = [(off + k)%nat].
Proof.
  revert k off. induction l as [|x l IH]; simpl; intros k off Hk H; [lia|].
  destruct k as [|k].
  - assert (Hx : p x = true) by (apply (H 0%nat x); reflexivity).
    rewrite Hx. f_equal; [lia|].
    assert (Hnone : forall o, where_from (map p l) o = []).
    { clear IH Hk Hx.
      assert (Hl : forall y, In y l -> p y = false).
      { intros y Hy. apply In_nth_error in Hy as [j Hj].
        destruct (p y) eqn:E; [|reflexivity].
        apply (H (S j) y Hj) in E. discriminate. }
      clear H. induction l as [|y l IHl]; intros o; [reflexivity|].
      simpl. rewrite (Hl y (or_introl eq_refl)).
      apply IHl. intros z Hz. apply Hl. now right. }
    apply Hnone.
  - assert (Hx : p x = false).
    { destruct (p x) eqn:E; [|reflexivity].
      apply (H 0%nat x eq_refl) in E. discriminate. }
    rewrite Hx. rewrite (IH k (S off)).
    + f_equal. lia.
    + lia.
    + intros j y Hj. rewrite (H (S j) y Hj). lia.
Qed.

Lemma row_matches_iff (knames : list string) (r r' : list Z) :
  NoDup knames ->
  List.length r = List.length knames ->
  List.length r' = List.length knames ->
  row_matches knames (combine knames r ++ []) r' = true <-> r' = r.
Proof.
  intros Hnd Hr Hr'. rewrite app_nil_r. unfold row_matches.
  rewrite forallb_forall. split.
  - intros H. apply nth_error_ext. intros n.
    destruct (nth_error knames n) as [nm|] eqn:Hn.
    + destruct (nth_error r n) as [v|] eqn:Hv.
      * assert (Hin : In (nm, v) (combine knames r)).
        { apply (nth_error_In _ n). rewrite nth_error_combine, Hn, Hv.
          reflexivity. }
        specialize (H _ Hin). simpl in H.
        rewrite (index_of_nth _ _ _ Hnd Hn) in H.
        destruct (nth_error r' n) as [x|]; [|discriminate].
        apply Z.eqb_eq in H. now subst.
      * apply nth_error_None in Hv.
        assert (n < List.length knames)%nat
          by (apply nth_error_Some; congruence).
        lia.
    + apply nth_error_None in Hn.
      rewrite (proj2 (nth_error_None r n)) by lia.
      apply nth_error_None. lia.
  - intros -> [nm v] Hin. simpl.
    apply In_nth_error in Hin as [n Hn].
    rewrite nth_error_combine in Hn.
    destruct (nth_error knames n) as [nm'|] eqn:Hnm; [|discriminate].
    destruct (nth_error r n) as [v'|] eqn:Hv; [|discriminate].
    inversion Hn; subst.
    rewrite (index_of_nth _ _ _ Hnd Hnm), Hv. apply Z.eqb_refl.
Qed.

Lemma labels_wf_inv (l : Labels) :
  labels_wf l = true ->
  NoDup (names l) /\ NoDup (rows l)
  /\ forall r, In r (rows l) -> List.length r = List.length (names l).
Proof.
  unfold labels_wf. rewrite !andb_true_iff, forallb_forall.
  intros [[Hn Hr] Hw]. repeat split.
  - apply (nodupb_NoDup String.eqb String.eqb_eq _ Hn).
  - apply (nodupb_NoDup row_eqb row_eqb_eq _ Hr).
  - intros r Hin. apply Nat.eqb_eq. now apply Hw.
Qed.

Lemma tensormap_wf_inv (T : TensorMap) :
  tensormap_wf T = true ->
  labels_wf (keys T) = true
  /\ len (keys T) = List.length (block_store T)
  /\ forall b, In b (block_store T) -> block_wf b = true.
Proof.
  unfold tensormap_wf. rewrite !andb_true_iff, forallb_forall, Nat.eqb_eq.
  tauto.
Qed.

(** In a well-formed map the key of a block selects that block. *)
Lemma block_of_key (T : TensorMap) (k : nat) (r : list Z) (b : TensorBlock) :
  tensormap_wf T = true ->
  nth_error (rows (keys T)) k = Some r ->
  nth_error (block_store T) k = Some b ->
  block T [ByEntry (mkEntry (names (keys T)) r)] [] = Ok b.
Proof.
  intros Hwf Hr Hb.
  apply tensormap_wf_inv in Hwf as (Hk & _ & _).
  apply labels_wf_inv in Hk as (Hnames & Hrows & Hwidth).
  unfold block, blocks_matching, constraints_of, where_. simpl.
  rewrite (where_from_unique _ _ k 0).
  - simpl. unfold block_by_id. now rewrite Hb.
  - apply nth_error_Some. congruence.
  - intros j x Hj. rewrite row_matches_iff.
    + split.
      * intros ->. apply (proj1 (NoDup_nth_error _) Hrows).
        -- apply nth_error_Some. congruence.
        -- congruence.
      * intros ->. congruence.
    + assumption.
    + apply Hwidth. eapply nth_error_In. exact Hr.
    + apply Hwidth. eapply nth_error_In. exact Hj.
Qed.

Lemma items_nth (T : TensorMap) (k : nat) (key : LabelsEntry)
  (b : TensorBlock) :
  nth_error (items T) k = Some (key, b) ->
  exists r,
    key = mkEntry (names (keys T)) r
    /\ nth_error (rows (keys T)) k = Some r
    /\ nth_error (block_store T) k = Some b.
Proof.
  unfold items. rewrite nth_error_combine, nth_error_map.
  destruct (nth_error (rows (keys T)) k) as [r|]; simpl; [|discriminate].
  destruct (nth_error (block_store T) k) as [b'|]; [|discriminate].
  intros H; inversion H; subst. eauto.
Qed.

Lemma block_of_item (T : TensorMap) (key : LabelsEntry) (b : TensorBlock) :
  tensormap_wf T = true ->
  In (key, b) (items T) ->
  block T [ByEntry key] [] = Ok b /\ block_wf b = true.
Proof.
  intros Hwf Hin. apply In_nth_error in Hin as [k Hk].
  apply items_nth in Hk as (r & -> & Hr & Hb). split.
  - now apply (block_of_key T k).
  - apply tensormap_wf_inv in Hwf as (_ & _ & H). apply H.
    eapply nth_error_In. exact Hb.
Qed.

(** ** A map compared with itself *)

Lemma isclose_refl (rtol atol : Qc) (equal_nan : bool) (x : fval) :
  (0 <= rtol)%Qc -> (0 <= atol)%Qc -> is_nan x = false ->
  isclose rtol atol equal_nan x x = true.
Proof.
  intros Hr Ha Hx. destruct x as [|s|a]; simpl.
  - discriminate.
  - apply eqb_reflx.
  - apply Qle_bool_iff.
    change ((Qcabs (a - a) <= atol + rtol * Qcabs a)%Qc).
    replace (a - a)%Qc with (Q2Qc 0) by ring.
    rewrite (Qcabs_pos (Q2Qc 0)) by apply Qcle_refl.
    assert (H : (0 * Qcabs a <= rtol * Qcabs a)%Qc)
      by (apply Qcmult_le_compat_r; [assumption|apply Qcabs_nonneg]).
    replace (0 * Qcabs a)%Qc with (Q2Qc 0) in H by ring.
    replace (Q2Qc 0) with (0 + 0)%Qc by ring.
    apply Qcplus_le_compat; assumption.
Qed.

Lemma mapR_pure {A B : Type} (f : A -> result B) (g : A -> B) (l : list A) :
  (forall x, In x l -> f x = Ok (g x)) -> mapR f l = Ok (map g l).
Proof.
  induction l as [|x l IH]; intros H; [reflexivity|].
  simpl. rewrite (H x (or_introl eq_refl)). simpl.
  rewrite IH; [reflexivity|]. intros y Hy. apply H. now right.
Qed.

Lemma zip_with_diag {A C : Type} (f : A -> A -> result C) (g : A -> C)
  (l : list A) :
  (forall x, In x l -> f x x = Ok (g x)) -> zip_with f l l = Ok (map g l).
Proof.
  induction l as [|x l IH]; intros H; [reflexivity|].
  simpl. rewrite (H x (or_introl eq_refl)). simpl.
  rewrite IH; [reflexivity|]. intros y Hy. apply H. now right.
Qed.

Lemma broadcast_diag {A C : Type} (inplace : bool) (f : A -> A -> result C)
  (g : A -> C) (l : list A) :
  (forall x, In x l -> f x x = Ok (g x)) ->
  broadcast inplace f l l = Ok (map g l).
Proof.
  intros H. destruct l as [|x [|y l]].
  - reflexivity.
  - simpl. rewrite (H x (or_introl eq_refl)). reflexivity.
  - unfold broadcast. now apply zip_with_diag.
Qed.

Lemma existsb_false {A : Type} (p : A -> bool) (l : list A) :
  existsb p l = false -> forall x, In x l -> p x = false.
Proof.
  induction l as [|y l IH]; simpl; intros H x Hin; [contradiction|].
  apply orb_false_iff in H as [Hy Hl].
  destruct Hin as [->|Hin]; auto.
Qed.

Lemma array_allclose_refl (rtol atol : Qc) (equal_nan : bool) (v : array) :
  (0 <= rtol)%Qc -> (0 <= atol)%Qc -> array_has_nan v = false ->
  array_allclose v v rtol atol equal_nan = Ok true.
Proof.
  intros Hr Ha Hv. unfold array_allclose, ew_array, ew_row.
  rewrite (broadcast_diag _ _
             (map (map (fun x => isclose rtol atol equal_nan x x)))).
  - simpl. f_equal. apply forallb_forall. intros r' Hr'.
    apply in_map_iff in Hr' as (r & <- & Hin).
    apply forallb_forall. intros c' Hc'.
    apply in_map_iff in Hc' as (c & <- & Hc).
    apply forallb_forall. intros x' Hx'.
    apply in_map_iff in Hx' as (x & <- & Hx).
    apply isclose_refl; try assumption.
    unfold array_has_nan in Hv.
    apply (existsb_false _ _ (existsb_false _ _ (existsb_false _ _ Hv r Hin)
                                c Hc) x Hx).
  - intros r _. apply broadcast_diag. intros c _.
    apply broadcast_diag. reflexivity.
Qed.

Lemma labels_eqb_refl (l : Labels) : labels_eqb l l = true.
Proof. now apply labels_eqb_eq. Qed.

Lemma components_eqb_refl (cs : list Labels) :
  list_eqb labels_eqb cs cs = true.
Proof. now apply (list_eqb_eq labels_eqb labels_eqb_eq). Qed.

Lemma first_mismatch_refl (b : TensorBlock) (props : list string) :
  Utils.first_mismatch b b props = None.
Proof.
  induction props as [|p props IH]; [reflexivity|]. simpl.
  destruct (String.eqb p "samples");
    [now rewrite labels_eqb_refl|].
  destruct (String.eqb p "properties");
    [now rewrite labels_eqb_refl|].
  destruct (String.eqb p "components");
    [now rewrite components_eqb_refl|assumption].
Qed.

Lemma assoc_nodup {A : Type} (l : list (string * A)) (p : string) (g : A) :
  nodupb String.eqb (map fst l) = true ->
  In (p, g) l -> assoc p l = Some g.
Proof.
  induction l as [|[q h] l IH]; simpl; intros Hnd Hin; [contradiction|].
  apply andb_true_iff in Hnd as [Hq Hnd].
  destruct Hin as [E|Hin].
  - inversion E; subst. now rewrite String.eqb_refl.
  - destruct (String.eqb p q) eqn:E; [|auto].
    apply String.eqb_eq in E. subst.
    assert (Hm : mem String.eqb q (map fst l) = true).
    { apply (mem_In String.eqb String.eqb_eq).
      change q with (fst (q, g)). now apply in_map. }
    rewrite Hm in Hq. discriminate.
Qed.

Lemma gradients_mismatch_refl (b : TensorBlock) (props : list string)
  (gs : list (string * TensorBlock)) :
  nodupb String.eqb (gradients_list b) = true ->
  (forall pg, In pg gs -> In pg (gradient_store b)) ->
  Utils.gradients_mismatch gs b props = None.
Proof.
  intros Hnd. induction gs as [|[p g] gs IH]; intros Hsub; [reflexivity|].
  simpl. rewrite (assoc_nodup _ p g Hnd (Hsub _ (or_introl eq_refl))).
  rewrite first_mismatch_refl. apply IH. intros pg Hpg. apply Hsub. now right.
Qed.

Lemma same_parameters_refl (b : TensorBlock) : Utils.same_parameters b b = true.
Proof.
  unfold Utils.same_parameters.
  assert (H : forallb (fun p => mem String.eqb p (gradients_list b))
                (gradients_list b) = true).
  { apply forallb_forall. intros p Hp.
    now apply (mem_In String.eqb String.eqb_eq). }
  now rewrite H.
Qed.

Lemma shape_eqb_refl (s : nat * nat * nat) : shape_eqb s s = true.
Proof. destruct s as [[a b] c]. simpl. now rewrite !Nat.eqb_refl. Qed.

Lemma block_wf_inv (b : TensorBlock) :
  block_wf b = true ->
  shape_ok (values b) (samples b) (components b) (properties b) = true
  /\ nodupb String.eqb (gradients_list b) = true
  /\ forall pg, In pg (gradient_store b) -> gradient_wf b (snd pg) = true.
Proof.
  unfold block_wf. rewrite !andb_true_iff, forallb_forall. tauto.
Qed.

Lemma allclose_block_raise_refl (b : TensorBlock) (rtol atol : Qc)
  (equal_nan : bool) :
  (0 <= rtol)%Qc -> (0 <= atol)%Qc ->
  block_wf b = true -> block_has_nan b = false ->
  outcome (Allclose.allclose_block_raise b b rtol atol equal_nan) = Ok tt.
Proof.
  intros Hr Ha Hwf Hnan.
  apply block_wf_inv in Hwf as (_ & Hnd & _).
  apply orb_false_iff in Hnan as [Hv Hg].
  unfold Allclose.allclose_block_raise.
  rewrite shape_eqb_refl. simpl negb. cbv iota.
  erewrite outcome_bindM_ok; [|reflexivity].
  erewrite outcome_bindM_ok;
    [|unfold kernel, outcome; cbn [snd];
      apply array_allclose_refl; assumption].
  simpl negb. cbv iota.
  erewrite outcome_bindM_ok; [|reflexivity].
  unfold Utils._check_blocks. rewrite first_mismatch_refl.
  erewrite outcome_bindM_ok; [|reflexivity].
  unfold Utils._check_same_gradients.
  rewrite same_parameters_refl. simpl negb. cbv iota.
  rewrite (gradients_mismatch_refl b _ (gradients b) Hnd (fun _ h => h)).
  erewrite outcome_bindM_ok; [|reflexivity].
  erewrite outcome_bindM_ok; [reflexivity|].
  apply (outcome_forM_ok _ (fun _ => tt)).
  apply Forall_forall. intros [p g] Hin.
  unfold Allclose.allclose_gradient, gradient. cbn [fst snd].
  rewrite (assoc_nodup _ p g Hnd Hin).
  erewrite outcome_bindM_ok; [|reflexivity].
  erewrite outcome_bindM_ok;
    [|unfold kernel, outcome; cbn [snd];
      apply array_allclose_refl; try assumption;
      apply (existsb_false _ _ Hg (p, g) Hin)].
  reflexivity.
Qed.

Lemma allclose_raise_refl (T : TensorMap) (rtol atol : Qc) (equal_nan : bool) :
  (0 <= rtol)%Qc -> (0 <= atol)%Qc ->
  tensormap_wf T = true -> tensormap_has_nan T = false ->
  outcome (Allclose.allclose_raise T T rtol atol equal_nan) = Ok tt.
Proof.
  intros Hr Ha Hwf Hnan.
  unfold Allclose.allclose_raise, Utils._check_same_keys.
  rewrite (proj2 (same_keys_iff T T))
    by (split; [reflexivity|intros r; tauto]).
  erewrite outcome_bindM_ok; [|reflexivity].
  erewrite outcome_bindM_ok; [reflexivity|].
  apply (outcome_forM_ok _ (fun _ => tt)).
  apply Forall_forall. intros [key b] Hin.
  destruct (block_of_item T key b Hwf Hin) as [Hb Hbwf].
  unfold Allclose.allclose_item. cbn [fst snd].
  apply outcome_catch_NotEqualError_ok.
  erewrite outcome_bindM_ok; [|unfold liftM, outcome; cbn [snd]; exact Hb].
  apply allclose_block_raise_refl; try assumption.
  apply (existsb_false _ _ Hnan).
  unfold items in Hin. apply in_combine_r in Hin. exact Hin.
Qed.

Lemma default_tolerances_nonneg :
  (0 <= Allclose.rtol_default)%Qc /\ (0 <= Allclose.atol_default)%Qc.
Proof. split; discriminate. Qed.

(** C4, as the code has it: a well-formed map without NaN among its values
    and the values of its gradients is close to itself under the default
    tolerances: [allclose_raise(T, T)] raises nothing and [allclose(T, T)]
    is [True]. *)
Theorem allclose_reflexive_without_nan :
  forall T : TensorMap,
    tensormap_wf T = true ->
    tensormap_has_nan T = false ->
    outcome (Allclose.allclose_raise T T Allclose.rtol_default
               Allclose.atol_default false) = Ok tt
    /\ outcome (Allclose.allclose T T Allclose.rtol_default
                  Allclose.atol_default false) = Ok true.
Proof.
  intros T Hwf Hnan.
  destruct default_tolerances_nonneg as [Hr Ha].
  assert (H := allclose_raise_refl T _ _ false Hr Ha Hwf Hnan).
  split; [exact H|].
  unfold Allclose.allclose. apply outcome_catch_NotEqualError_ok.
  erewrite outcome_bindM_ok; [reflexivity|exact H].
Qed.

Lemma allclose_reflexive_without_nan_witness :
  outcome (Allclose.allclose_raise tensor tensor Allclose.rtol_default
             Allclose.atol_default false) = Ok tt
  /\ outcome (Allclose.allclose tensor tensor Allclose.rtol_default
                Allclose.atol_default false) = Ok true.
Proof.
  apply (allclose_reflexive_without_nan tensor); vm_compute; reflexivity.
Defined.

(** C4, as stated, fails on a map that holds a NaN: with [equal_nan=False]
    the NaN is not close to itself, [allclose_raise(T, T)] raises and
    [allclose(T, T)] is [False]. *)
Lemma allclose_not_reflexive_with_nan :
  tensormap_wf nan_tensor = true
  /\ outcome (Allclose.allclose_raise nan_tensor nan_tensor
                Allclose.rtol_default Allclose.atol_default false)
     = Raise (NotEqualError "blocks for key '(0,)' are different"
                (Some (NotEqualError "values are not allclose" None)))
  /\ outcome (Allclose.allclose nan_tensor nan_tensor Allclose.rtol_default
                Allclose.atol_default false) = Ok false.
Proof.
  repeat split; vm_compute; reflexivity.
Qed.

(** ** The order of validation and numeric work *)

Lemma trace_bindM {A B : Type} (m : M A) (k : A -> M B) :
  trace (bindM m k)
  = trace m ++ match outcome m with
               | Ok a => trace (k a)
               | Raise _ => []
               end.
Proof.
  destruct m as [t [a|e]]; unfold bindM, trace, outcome; simpl.
  - destruct (k a); reflexivity.
  - now rewrite app_nil_r.
Qed.

Lemma trace_forM_segments {A B : Type} (f : A -> M B) (l : list A) :
  exists k,
    trace (forM f l) = List.concat (map (fun x => trace (f x)) (firstn k l)).
Proof.
  induction l as [|x l [k IH]].
  - exists 0%nat. reflexivity.
  - simpl. rewrite trace_bindM. destruct (outcome (f x)) as [b|e].
    + exists (S k). rewrite trace_bindM. simpl. rewrite IH.
      destruct (outcome (forM f l)); simpl; now rewrite app_nil_r.
    + exists 1%nat. simpl. reflexivity.
Qed.

Lemma trace_forM_repeat {A B : Type} (f : A -> M B) (e : event) (l : list A) :
  (forall x, trace (f x) = [] \/ trace (f x) = [e]) ->
  exists n, trace (forM f l) = repeat e n.
Proof.
  intros H. induction l as [|x l [n IH]].
  - exists 0%nat. reflexivity.
  - simpl. rewrite trace_bindM.
    destruct (outcome (f x)) as [b|err].
    + rewrite trace_bindM, IH.
      assert (E : match outcome (forM f l) with
                  | Ok a => trace (retM (b :: a))
                  | Raise _ => []
                  end = []) by (destruct (outcome (forM f l)); reflexivity).
      rewrite E, app_nil_r.
      destruct (H x) as [-> | ->]; [exists n|exists (S n)]; reflexivity.
    + rewrite app_nil_r.
      destruct (H x) as [-> | ->]; [exists 0%nat|exists 1%nat]; reflexivity.
Qed.

Lemma trace_foldM_repeat {A St : Type} (f : St -> A -> M St) (e : event)
  (l : list A) (s : St) :
  (forall s x, trace (f s x) = [] \/ trace (f s x) = [e]) ->
  exists n, trace (foldM f l s) = repeat e n.
Proof.
  intros H. revert s. induction l as [|x l IH]; intros s.
  - exists 0%nat. reflexivity.
  - simpl. rewrite trace_bindM.
    destruct (outcome (f s x)) as [s'|err].
    + destruct (IH s') as [n ->].
      destruct (H s x) as [-> | ->]; [exists n|exists (S n)]; reflexivity.
    + rewrite app_nil_r.
      destruct (H s x) as [-> | ->]; [exists 0%nat|exists 1%nat]; reflexivity.
Qed.

Lemma trace_validation {A : Type} (fn : string) (r : result A) :
  trace (validation fn r) = [Validation fn].
Proof. reflexivity. Qed.

Lemma outcome_validation {A : Type} (fn : string) (r : result A) :
  outcome (validation fn r) = r.
Proof. reflexivity. Qed.

Lemma trace_kernel {A : Type} (fn : string) (r : result A) :
  trace (kernel fn r) = [Kernel fn].
Proof. reflexivity. Qed.

Lemma outcome_kernel {A : Type} (fn : string) (r : result A) :
  outcome (kernel fn r) = r.
Proof. reflexivity. Qed.

Lemma trace_liftM {A : Type} (r : result A) : trace (liftM r) = [].
Proof. reflexivity. Qed.

Lemma outcome_liftM {A : Type} (r : result A) : outcome (liftM r) = r.
Proof. reflexivity. Qed.

Lemma trace_retM {A : Type} (a : A) : trace (retM a) = [].
Proof. reflexivity. Qed.

Lemma trace_raiseM {A : Type} (e : exn) : trace (raiseM (A:=A) e) = [].
Proof. reflexivity. Qed.

Lemma outcome_bindM {A B : Type} (m : M A) (k : A -> M B) :
  outcome (bindM m k)
  = match outcome m with
    | Ok a => outcome (k a)
    | Raise e => Raise e
    end.
Proof.
  destruct m as [t [a|e]]; unfold bindM, outcome; simpl; [|reflexivity].
  destruct (k a); reflexivity.
Qed.

Create Rewrite HintDb traces.
#[local] Hint Rewrite @outcome_bindM @trace_bindM @trace_validation @outcome_validation
  @trace_kernel @outcome_kernel @trace_liftM @outcome_liftM @trace_retM
  @trace_raiseM app_nil_r : traces.

Ltac trace_step := autorewrite with traces; cbn [app].

Lemma trace_allclose_gradient (b : TensorBlock) (rtol atol : Qc)
  (equal_nan : bool) (pg : string * TensorBlock) :
  trace (Allclose.allclose_gradient b rtol atol equal_nan pg) = []
  \/ trace (Allclose.allclose_gradient b rtol atol equal_nan pg)
     = [Kernel "allclose"].
Proof.
  unfold Allclose.allclose_gradient. cbv zeta. trace_step.
  destruct (gradient b (fst pg)) as [g|e]; [right|left; reflexivity].
  trace_step.
  destruct (array_allclose _ _ _ _ _) as [[|]|e]; reflexivity.
Qed.

Lemma trace_allclose_block_raise (b1 b2 : TensorBlock) (rtol atol : Qc)
  (equal_nan : bool) :
  exists n,
    is_prefix (trace (Allclose.allclose_block_raise b1 b2 rtol atol equal_nan))
      (allclose_block_events n).
Proof.
  unfold Allclose.allclose_block_raise, is_prefix, allclose_block_events.
  trace_step.
  destruct (negb (shape_eqb _ _)); [exists 0%nat; eexists; reflexivity|].
  trace_step.
  destruct (array_allclose _ _ _ _ _) as [close|e];
    [|exists 0%nat; eexists; reflexivity].
  trace_step.
  destruct close; cbn [negb]; trace_step;
    [|exists 0%nat; eexists; reflexivity].
  unfold Utils._check_blocks.
  destruct (Utils.first_mismatch b1 b2 Allclose.compared_props) as [m|];
    cbn [catch_ValueError validation raiseM trace outcome fst snd app];
    [exists 0%nat; eexists; reflexivity|].
  trace_step.
  destruct (Utils._check_same_gradients _ _ _ _);
    [|exists 0%nat; eexists; reflexivity].
  trace_step.
  destruct (trace_forM_repeat
              (Allclose.allclose_gradient b2 rtol atol equal_nan)
              (Kernel "allclose") (gradients b1)
              (trace_allclose_gradient b2 rtol atol equal_nan)) as [n ->].
  exists n. exists [].
  destruct (outcome (forM _ _)); trace_step; reflexivity.
Qed.

Lemma trace_divide_gradient (block_1 block_2 result_block : TensorBlock)
  (pg : string * TensorBlock) :
  trace (Divide.divide_gradient block_1 block_2 result_block pg) = []
  \/ trace (Divide.divide_gradient block_1 block_2 result_block pg)
     = [Kernel "gradient"].
Proof.
  unfold Divide.divide_gradient. cbv beta zeta. trace_step.
  destruct (gradient block_2 (fst pg)) as [g2|e]; [|left; reflexivity].
  destruct (Divide.has_gradients (snd pg)); [left; reflexivity|].
  destruct (Divide.has_gradients g2); [left; reflexivity|].
  right. trace_step.
  destruct (Divide.gradient_values _ _ _ _) as [v|e]; [|reflexivity].
  trace_step. destruct (new_TensorBlock _ _ _ _); trace_step; reflexivity.
Qed.

Lemma trace_divide_item (B : TensorMap) (item : LabelsEntry * TensorBlock) :
  exists n, is_prefix (trace (Divide.divide_item B item)) (divide_item_events n).
Proof.
  unfold Divide.divide_item, is_prefix, divide_item_events. cbv zeta.
  trace_step.
  destruct (block B [ByEntry (fst item)] []) as [block_B|e];
    [|exists 0%nat; eexists; reflexivity].
  trace_step.
  destruct (Utils._check_blocks_raise _ _ _);
    [|exists 0%nat; eexists; reflexivity].
  trace_step.
  destruct (Utils._check_same_gradients_raise _ _ _);
    [|exists 0%nat; eexists; reflexivity].
  unfold Divide._divide_block_block. trace_step.
  destruct (ew_array false fdiv _ _) as [v|e];
    [|exists 0%nat; eexists; reflexivity].
  trace_step.
  destruct (new_TensorBlock _ _ _ _) as [rb|e];
    [|exists 0%nat; eexists; reflexivity].
  destruct (trace_foldM_repeat (Divide.divide_gradient (snd item) block_B)
              (Kernel "gradient") (gradients (snd item)) rb
              (trace_divide_gradient (snd item) block_B)) as [n ->].
  exists n. exists []. now rewrite app_nil_r.
Qed.

(** C7, as the code has it.  [divide] by a map checks the keys first; it
    then takes the blocks one after the other and, for each, checks the
    labels and the gradients of the pair before it divides that pair -- so
    the checks of a later pair come after the arithmetic on the earlier
    ones.  [allclose_block_raise] compares the shapes, then the values, and
    only then the labels and the gradients. *)
Theorem validation_precedes_each_block (A B : TensorMap) :
  (exists segments,
     trace (Divide.divide A (Divide.Map B))
     = Validation "_check_same_keys_raise" :: List.concat segments
     /\ Forall (fun seg => exists n, is_prefix seg (divide_item_events n))
          segments)
  /\ (forall b1 b2 rtol atol equal_nan,
        exists n,
          is_prefix
            (trace (Allclose.allclose_block_raise b1 b2 rtol atol equal_nan))
            (allclose_block_events n)).
Proof.
  split.
  - unfold Divide.divide. trace_step.
    destruct (Utils._check_same_keys_raise A B "divide").
    + destruct (trace_forM_segments (Divide.divide_item B) (items A))
        as [k Hk].
      exists (map (fun x => trace (Divide.divide_item B x)) (firstn k (items A))).
      split.
      * trace_step. rewrite Hk.
        destruct (outcome (forM (Divide.divide_item B) (items A)));
          trace_step; reflexivity.
      * apply Forall_forall. intros seg Hseg.
        apply in_map_iff in Hseg as (item & <- & _).
        apply trace_divide_item.
    + exists []. split; [reflexivity|constructor].
  - intros. apply trace_allclose_block_raise.
Qed.

(** C7, as stated, fails: these two calls fail in a metadata check that
    comes after a kernel has run on the values. *)
Lemma numeric_work_before_failed_validation :
  (exists e,
     Allclose.allclose_block_raise (doc_block (num 1) "property_1")
       (doc_block (num 1) "property_2") Allclose.rtol_default
       Allclose.atol_default false
     = ([Validation "values.shape"; Kernel "allclose";
         Validation "_check_blocks"], Raise e))
  /\ (exists e,
        Divide.divide late_A (Divide.Map late_B)
        = ([Validation "_check_same_keys_raise";
            Validation "_check_blocks_raise";
            Validation "_check_same_gradients_raise";
            Kernel "divide";
            Validation "_check_blocks_raise"], Raise e)).
Proof.
  split; eexists; vm_compute; reflexivity.
Qed.

(** ** Arithmetic on entries *)

Lemma Qc_is_zero_iff (q : Qc) : Qc_is_zero q = true <-> q = Q2Qc 0.
Proof.
  unfold Qc_is_zero. rewrite Qeq_bool_iff. split.
  - intros H. now apply Qc_is_canon.
  - intros ->. reflexivity.
Qed.

Lemma Qc_is_zero_opp (q : Qc) : Qc_is_zero (- q) = Qc_is_zero q.
Proof.
  destruct (Qc_is_zero q) eqn:E.
  - apply Qc_is_zero_iff in E. subst. reflexivity.
  - destruct (Qc_is_zero (- q)) eqn:E'; [|reflexivity].
    apply Qc_is_zero_iff in E'.
    assert (q = Q2Qc 0) by (rewrite <- (Qcopp_involutive q), E'; reflexivity).
    apply Qc_is_zero_iff in H. congruence.
Qed.

Lemma Qc_is_neg_iff (q : Qc) : Qc_is_neg q = true <-> (q < 0)%Qc.
Proof.
  unfold Qc_is_neg. rewrite negb_true_iff. split.
  - intros H. apply Qcnot_le_lt. intros Hle.
    assert (Ht : Qle_bool 0 q = true) by (apply Qle_bool_iff; exact Hle).
    congruence.
  - intros H. destruct (Qle_bool 0 q) eqn:E; [|reflexivity].
    apply Qle_bool_iff in E. exfalso. apply (Qclt_not_le _ _ H). exact E.
Qed.

Lemma Qc_is_neg_opp (q : Qc) :
  Qc_is_zero q = false -> Qc_is_neg (- q) = negb (Qc_is_neg q).
Proof.
  intros Hz.
  assert (Hq : q <> Q2Qc 0).
  { intros H. apply Qc_is_zero_iff in H. congruence. }
  destruct (Qc_is_neg q) eqn:E; simpl.
  - apply Qc_is_neg_iff in E.
    destruct (Qc_is_neg (- q)) eqn:E'; [|reflexivity].
    apply Qc_is_neg_iff in E'. exfalso.
    apply Qclt_le_weak, Qcopp_le_compat in E'.
    rewrite Qcopp_involutive in E'.
    apply (Qclt_not_le _ _ E). exact E'.
  - apply Qc_is_neg_iff. apply Qcnot_le_lt. intros Hle.
    apply Qcopp_le_compat in Hle. rewrite Qcopp_involutive in Hle.
    change (- 0)%Qc with (Q2Qc 0) in Hle.
    assert (Hge : (0 <= q)%Qc).
    { apply Qcnot_lt_le. intros Hlt. apply Qc_is_neg_iff in Hlt. congruence. }
    apply Hq. now apply Qcle_antisym.
Qed.

Lemma fadd_comm (x y : fval) : fadd x y = fadd y x.
Proof.
  destruct x as [|s|a], y as [|t|b]; cbn [fadd]; try reflexivity.
  - destruct s, t; reflexivity.
  - f_equal. ring.
Qed.

Lemma fmul_fneg_l (x y : fval) : fmul (fneg x) y = fneg (fmul x y).
Proof.
  destruct x as [|s|a], y as [|t|b]; cbn [fmul fneg]; try reflexivity.
  - now rewrite negb_xorb_l.
  - destruct (Qc_is_zero b); [reflexivity|].
    cbn [fneg]. now rewrite negb_xorb_l.
  - rewrite Qc_is_zero_opp. destruct (Qc_is_zero a) eqn:E; [reflexivity|].
    cbn [fneg]. rewrite (Qc_is_neg_opp a E). now rewrite negb_xorb_l.
  - f_equal. ring.
Qed.

Lemma fdiv_fneg_l (x y : fval) : fdiv (fneg x) y = fneg (fdiv x y).
Proof.
  destruct x as [|s|a], y as [|t|b]; cbn [fdiv fneg]; try reflexivity.
  - now rewrite negb_xorb_l.
  - destruct (Qc_is_zero b).
    + rewrite Qc_is_zero_opp. destruct (Qc_is_zero a) eqn:E; [reflexivity|].
      cbn [fneg]. now rewrite (Qc_is_neg_opp a E).
    + cbn [fneg]. f_equal. unfold Qcdiv. ring.
Qed.

(** What the loop of [_divide_block_block] computes on an entry is the
    quotient rule. *)
Lemma divide_formula (a b da db : fval) :
  fadd (fdiv (fmul (fneg a) db) (fsquare b)) (fdiv da b)
  = quotient_rule a b da db.
Proof.
  unfold quotient_rule, fsub.
  rewrite fmul_fneg_l, fdiv_fneg_l. apply fadd_comm.
Qed.

(** ** Rows of the same shape *)

Lemma map2_nil_r {A B C : Type} (f : A -> B -> C) (l : list A) :
  map2 f l [] = [].
Proof. destruct l; reflexivity. Qed.

Lemma divide_formula_inner (a b da db : list fval) :
  map2 fadd (map2 fdiv (map2 fmul (map fneg a) db) (map fsquare b))
    (map2 fdiv da b)
  = map2 fsub (map2 fdiv da b) (map2 fdiv (map2 fmul a db) (map fsquare b)).
Proof.
  revert b da db. induction a as [|x a IH]; intros b da db.
  - simpl. now rewrite map2_nil_r.
  - destruct db as [|y db]; [simpl; now rewrite map2_nil_r|].
    destruct b as [|z b]; [simpl; now rewrite !map2_nil_r|].
    destruct da as [|w da]; [reflexivity|].
    simpl. rewrite IH. f_equal. apply divide_formula.
Qed.

Lemma divide_formula_row (a b da db : row) :
  row_op fadd (row_op fdiv (row_op fmul (map_row fneg a) db)
                 (map_row fsquare b)) (row_op fdiv da b)
  = quotient_rule_row a b da db.
Proof.
  unfold quotient_rule_row, row_op, map_row.
  revert b da db. induction a as [|x a IH]; intros b da db.
  - simpl. now rewrite map2_nil_r.
  - destruct db as [|y db]; [simpl; now rewrite map2_nil_r|].
    destruct b as [|z b]; [simpl; now rewrite !map2_nil_r|].
    destruct da as [|w da]; [reflexivity|].
    simpl. rewrite IH. f_equal. apply divide_formula_inner.
Qed.

Lemma shape_ok_inv (v : array) (s : Labels) (cs : list Labels) (p : Labels) :
  shape_ok v s cs p = true ->
  List.length v = len s /\ Forall (row_shape (n_components cs) (len p)) v.
Proof.
  unfold shape_ok. rewrite andb_true_iff, Nat.eqb_eq, forallb_forall.
  intros [Hl Hr]. split; [assumption|].
  apply Forall_forall. intros r Hin. specialize (Hr r Hin).
  apply andb_true_iff in Hr as [Hc Hp]. split.
  - now apply Nat.eqb_eq.
  - apply Forall_forall. intros c Hc'.
    apply Nat.eqb_eq. rewrite forallb_forall in Hp. now apply Hp.
Qed.

Lemma zip_with_pure {A B C : Type} (f : A -> B -> result C) (h : A -> B -> C)
  (xs : list A) (ys : list B) :
  List.length xs = List.length ys ->
  (forall x y, In x xs -> In y ys -> f x y = Ok (h x y)) ->
  zip_with f xs ys = Ok (map2 h xs ys).
Proof.
  revert ys. induction xs as [|x xs IH]; intros [|y ys] Hl H;
    try discriminate; [reflexivity|].
  simpl. rewrite (H x y (or_introl eq_refl) (or_introl eq_refl)). simpl.
  rewrite IH; [reflexivity|now inversion Hl|].
  intros x' y' Hx Hy. apply H; now right.
Qed.

Lemma broadcast_same_length {A B C : Type} (inplace : bool)
  (f : A -> B -> result C) (xs : list A) (ys : list B) :
  List.length xs = List.length ys ->
  broadcast inplace f xs ys = zip_with f xs ys.
Proof.
  destruct ys as [|y [|y' ys]]; destruct xs as [|x [|x' xs]];
    simpl; intros H; try discriminate; reflexivity.
Qed.

Lemma ew_row_same_shape (inplace : bool) (f : fval -> fval -> fval)
  (C P : nat) (a b : row) :
  row_shape C P a -> row_shape C P b ->
  ew_row inplace f a b = Ok (row_op f a b).
Proof.
  intros [Ha Ha'] [Hb Hb']. unfold ew_row, row_op.
  rewrite broadcast_same_length by congruence.
  apply zip_with_pure; [congruence|].
  intros x y Hx Hy. rewrite Forall_forall in Ha', Hb'.
  rewrite broadcast_same_length by (rewrite (Ha' x Hx), (Hb' y Hy); reflexivity).
  apply zip_with_pure; [rewrite (Ha' x Hx), (Hb' y Hy); reflexivity|].
  reflexivity.
Qed.

Lemma map2_length {A B C : Type} (f : A -> B -> C) (l : list A) (l' : list B) :
  List.length l = List.length l' ->
  List.length (map2 f l l') = List.length l.
Proof.
  revert l'. induction l as [|x l IH]; intros [|y l'] H; try discriminate;
    [reflexivity|]. simpl. f_equal. apply IH. now inversion H.
Qed.

Lemma row_op_shape (f : fval -> fval -> fval) (C P : nat) (a b : row) :
  row_shape C P a -> row_shape C P b -> row_shape C P (row_op f a b).
Proof.
  intros [Ha Ha'] [Hb Hb']. unfold row_op. split.
  - rewrite map2_length; congruence.
  - clear Ha Hb. revert b Hb'.
    induction Ha' as [|x a Hx _ IH]; intros b Hb'; [constructor|].
    destruct Hb' as [|y b Hy Hb']; [constructor|].
    simpl. constructor; [|now apply IH].
    rewrite map2_length; congruence.
Qed.

Lemma map_row_shape (f : fval -> fval) (C P : nat) (a : row) :
  row_shape C P a -> row_shape C P (map_row f a).
Proof.
  intros [Ha Ha']. unfold map_row. split.
  - now rewrite length_map.
  - apply Forall_map. eapply Forall_impl; [|exact Ha'].
    intros c Hc. simpl. now rewrite length_map.
Qed.

Lemma map2_map {A B C D : Type} (h : B -> C -> D) (F : A -> B) (G : A -> C)
  (l : list A) :
  map2 h (map F l) (map G l) = map (fun x => h (F x) (G x)) l.
Proof. induction l as [|x l IH]; simpl; [reflexivity|now rewrite IH]. Qed.

(** ** Positions selected by [where] *)

Lemma where_from_spec (mask : list bool) (off j : nat) :
  In j (where_from mask off)
  <-> (off <= j)%nat /\ nth_error mask (j - off) = Some true.
Proof.
  revert off. induction mask as [|b mask IH]; intros off; simpl.
  - split; [contradiction|]. intros [_ H]. destruct (j - off)%nat; discriminate.
  - destruct b; simpl; rewrite ?IH.
    + split.
      * intros [<- | [Hle H]].
        -- split; [lia|]. now rewrite Nat.sub_diag.
        -- split; [lia|]. replace (j - off)%nat with (S (j - S off)) by lia.
           exact H.
      * intros [Hle H]. destruct (j - off)%nat as [|n] eqn:E.
        -- left. lia.
        -- right. split; [lia|]. replace (j - S off)%nat with n by lia.
           exact H.
    + split.
      * intros [Hle H]. split; [lia|].
        replace (j - off)%nat with (S (j - S off)) by lia. exact H.
      * intros [Hle H]. destruct (j - off)%nat as [|n] eqn:E; [discriminate|].
        split; [lia|]. replace (j - S off)%nat with n by lia. exact H.
Qed.

Lemma where_spec {A : Type} (p : A -> bool) (l : list A) (j : nat) :
  In j (where_ (map p l)) <-> exists x, nth_error l j = Some x /\ p x = true.
Proof.
  unfold where_. rewrite where_from_spec, Nat.sub_0_r, nth_error_map.
  split.
  - intros [_ H]. destruct (nth_error l j) as [x|]; [|discriminate].
    exists x. split; [reflexivity|]. now inversion H.
  - intros (x & -> & Hx). split; [lia|]. simpl. now rewrite Hx.
Qed.

Lemma selected_from_none (col : list Z) (off i : nat) :
  Forall (fun s => s <> Z.of_nat i) col -> selected_from col off i = [].
Proof.
  unfold selected_from. intros H. revert off.
  induction H as [|s col Hs _ IH]; intros off; [reflexivity|].
  simpl. apply Z.eqb_neq in Hs. rewrite Hs. apply IH.
Qed.

Lemma concat_insert (G : nat -> list nat) (t : nat -> bool) (off k : nat) :
  forall n lo,
    (lo <= k < lo + n)%nat ->
    (forall i, t i = true <-> i = k) ->
    (forall i, (lo <= i < k)%nat -> G i = []) ->
    List.concat (map (fun i => if t i then off :: G i else G i) (seq lo n))
    = off :: List.concat (map G (seq lo n)).
Proof.
  induction n as [|n IH]; intros lo Hk Ht HG; [lia|].
  simpl. destruct (Nat.eq_dec lo k) as [->|Hne].
  - rewrite (proj2 (Ht k) eq_refl). simpl. do 3 f_equal.
    apply map_ext_in. intros i Hi. apply in_seq in Hi.
    destruct (t i) eqn:E; [|reflexivity].
    apply Ht in E. lia.
  - assert (E : t lo = false).
    { destruct (t lo) eqn:E; [|reflexivity]. apply Ht in E. lia. }
    rewrite E, (HG lo) by lia. simpl.
    apply IH; [lia|assumption|]. intros i Hi. apply HG. lia.
Qed.

(** When the ["sample"] column is in ascending order, visiting the samples
    in turn and collecting the gradient rows of each visits the gradient
    rows in their own order. *)
Lemma concat_selected_sorted (n : nat) (col : list Z) :
  StronglySorted Z.le col ->
  Forall (fun s => (0 <= s < Z.of_nat n)%Z) col ->
  forall off,
    List.concat (map (selected_from col off) (seq 0 n))
    = seq off (List.length col).
Proof.
  induction 1 as [|x col Hs IH Hx]; intros Hr off.
  - simpl. induction (seq 0 n) as [|i l IHl]; [reflexivity|]. exact IHl.
  - inversion Hr as [|? ? Hxr Hcr]; subst.
    transitivity
      (List.concat
         (map (fun i => if Z.eqb x (Z.of_nat i)
                        then off :: selected_from col (S off) i
                        else selected_from col (S off) i) (seq 0 n))).
    { reflexivity. }
    rewrite (concat_insert _ _ off (Z.to_nat x)).
    + simpl. f_equal. apply IH. exact Hcr.
    + lia.
    + intros i. rewrite Z.eqb_eq. lia.
    + intros i Hi. apply selected_from_none.
      eapply Forall_impl; [|exact Hx]. simpl. intros s Hle. lia.
Qed.

Lemma selected_from_spec (col : list Z) (i j : nat) :
  In j (selected_from col 0 i) <-> nth_error col j = Some (Z.of_nat i).
Proof.
  unfold selected_from.
  rewrite (where_spec (fun s => Z.eqb s (Z.of_nat i)) col j). split.
  - intros (x & Hx & E). apply Z.eqb_eq in E. now subst.
  - intros H. exists (Z.of_nat i). split; [assumption|apply Z.eqb_refl].
Qed.

Lemma concat_map_in {A B : Type} (F : nat -> A -> B) (G : A -> B)
  (idx : nat -> list A) (l : list nat) :
  (forall i j, In i l -> In j (idx i) -> F i j = G j) ->
  List.concat (map (fun i => map (F i) (idx i)) l)
  = map G (List.concat (map idx l)).
Proof.
  induction l as [|i l IH]; intros H; [reflexivity|].
  simpl. rewrite map_app, IH.
  - f_equal. apply map_ext_in. intros j Hj. apply H; [now left|assumption].
  - intros i' j Hi Hj. apply H; [now right|assumption].
Qed.

(** ** The gradient computed by [_divide_block_block] *)

Lemma getitem_nth (a : array) (i : nat) :
  (i < List.length a)%nat -> getitem a i = Ok (nth i a []).
Proof.
  intros H. unfold getitem.
  now rewrite (nth_error_nth' a [] H).
Qed.

Lemma take_nth (a : array) (idx : list nat) :
  Forall (fun j => (j < List.length a)%nat) idx ->
  take a idx = Ok (map (fun j => nth j a []) idx).
Proof.
  intros H. unfold take. apply mapR_pure.
  intros j Hj. apply getitem_nth. rewrite Forall_forall in H. now apply H.
Qed.

Lemma selected_from_bound (col : list Z) (i : nat) :
  Forall (fun j => (j < List.length col)%nat) (selected_from col 0 i).
Proof.
  apply Forall_forall. intros j Hj. apply selected_from_spec in Hj.
  apply nth_error_Some. congruence.
Qed.

Lemma nth_shape (C P : nat) (v : array) (j : nat) :
  Forall (row_shape C P) v -> (j < List.length v)%nat ->
  row_shape C P (nth j v []).
Proof.
  intros H Hj. rewrite Forall_forall in H. apply H. now apply nth_In.
Qed.

Lemma gradient_rows_value (b1 b2 g1 g2 : TensorBlock) (C P : nat)
  (col : list Z) (i : nat) :
  column (samples g1) "sample" = Ok col ->
  column (samples g2) "sample" = Ok col ->
  (i < List.length (values b1))%nat ->
  (i < List.length (values b2))%nat ->
  List.length (values g1) = List.length col ->
  List.length (values g2) = List.length col ->
  Forall (row_shape C P) (values b1) ->
  Forall (row_shape C P) (values b2) ->
  Forall (row_shape C P) (values g1) ->
  Forall (row_shape C P) (values g2) ->
  Divide.gradient_rows b1 b2 g1 g2 i
  = Ok (map (rule_row b1 b2 g1 g2 i) (selected_from col 0 i)).
Proof.
  intros Hc1 Hc2 Hi1 Hi2 Hl1 Hl2 Hs1 Hs2 Hg1 Hg2.
  assert (Ha := nth_shape C P _ i Hs1 Hi1).
  assert (Hb := nth_shape C P _ i Hs2 Hi2).
  assert (Hidx := selected_from_bound col i).
  assert (Hrow1 : forall j, In j (selected_from col 0 i) ->
                            row_shape C P (nth j (values g1) [])).
  { intros j Hj. apply nth_shape; [assumption|].
    rewrite Forall_forall in Hidx. rewrite Hl1. now apply Hidx. }
  assert (Hrow2 : forall j, In j (selected_from col 0 i) ->
                            row_shape C P (nth j (values g2) [])).
  { intros j Hj. apply nth_shape; [assumption|].
    rewrite Forall_forall in Hidx. rewrite Hl2. now apply Hidx. }
  unfold Divide.gradient_rows. rewrite Hc1, Hc2. cbn [bindR].
  change (where_ (map (fun s => Z.eqb s (Z.of_nat i)) col))
    with (selected_from col 0 i).
  rewrite (getitem_nth _ i Hi1). cbn [bindR].
  rewrite take_nth by (rewrite Hl2; exact Hidx). cbn [bindR].
  unfold ew_row_array.
  rewrite (mapR_pure _ (row_op fmul (map_row fneg (nth i (values b1) [])))).
  2:{ intros r Hr. apply in_map_iff in Hr as (j & <- & Hj).
      apply (ew_row_same_shape _ _ C P);
        [now apply map_row_shape|now apply Hrow2]. }
  cbn [bindR]. rewrite (getitem_nth _ i Hi2). cbn [bindR].
  unfold ew_array_row. rewrite map_map.
  rewrite (mapR_pure _
             (fun r => row_op fdiv r (map_row fsquare (nth i (values b2) [])))).
  2:{ intros r Hr. apply in_map_iff in Hr as (j & <- & Hj).
      apply (ew_row_same_shape _ _ C P).
      - apply row_op_shape; [now apply map_row_shape|now apply Hrow2].
      - now apply map_row_shape. }
  cbn [bindR]. rewrite map_map.
  rewrite take_nth by (rewrite Hl1; exact Hidx). cbn [bindR].
  rewrite (mapR_pure _ (fun r => row_op fdiv r (nth i (values b2) []))).
  2:{ intros r Hr. apply in_map_iff in Hr as (j & <- & Hj).
      apply (ew_row_same_shape _ _ C P); [now apply Hrow1|assumption]. }
  cbn [bindR]. rewrite map_map.
  unfold ew_array.
  rewrite broadcast_same_length by (now rewrite !length_map).
  rewrite (zip_with_pure _ (row_op fadd)).
  - rewrite map2_map. f_equal. apply map_ext. intros j.
    unfold rule_row. apply divide_formula_row.
  - now rewrite !length_map.
  - intros x y Hx Hy.
    apply in_map_iff in Hx as (j & <- & Hj).
    apply in_map_iff in Hy as (j' & <- & Hj').
    apply (ew_row_same_shape _ _ C P).
    + apply row_op_shape; [|now apply map_row_shape].
      apply row_op_shape; [now apply map_row_shape|now apply Hrow2].
    + apply row_op_shape; [now apply Hrow1|assumption].
Qed.

(** ** What a successful [divide] went through *)

Lemma new_TensorBlock_inv (v : array) (s : Labels) (cs : list Labels)
  (p : Labels) (b : TensorBlock) :
  new_TensorBlock v s cs p = Ok b ->
  b = mkBlock v s cs p [] /\ shape_ok v s cs p = true.
Proof.
  unfold new_TensorBlock. destruct (shape_ok v s cs p); [|discriminate].
  intros H; inversion H; auto.
Qed.

Lemma add_gradient_inv (b : TensorBlock) (p : string) (g b' : TensorBlock) :
  add_gradient b p g = Ok b' ->
  b' = mkBlock (values b) (samples b) (components b) (properties b)
         (gradient_store b ++ [(p, g)]).
Proof.
  unfold add_gradient.
  destruct (mem String.eqb p (gradients_list b)); [discriminate|].
  destruct (_ && _); [|discriminate].
  intros H; now inversion H.
Qed.

Lemma divide_gradient_inv (b1 b2 s : TensorBlock) (pg : string * TensorBlock)
  (s' : TensorBlock) :
  outcome (Divide.divide_gradient b1 b2 s pg) = Ok s' ->
  exists pgR,
    divided_gradient b1 b2 pg pgR
    /\ s' = mkBlock (values s) (samples s) (components s) (properties s)
              (gradient_store s ++ [pgR]).
Proof.
  unfold Divide.divide_gradient. cbv zeta. intros H.
  apply outcome_bindM_inv in H as (g2 & Hg2 & H).
  rewrite outcome_liftM in Hg2.
  destruct (Divide.has_gradients (snd pg)); [discriminate H|].
  destruct (Divide.has_gradients g2); [discriminate H|].
  apply outcome_bindM_inv in H as (vg & Hvg & H).
  rewrite outcome_kernel in Hvg.
  apply outcome_bindM_inv in H as (g & Hg & H).
  rewrite outcome_liftM in Hg, H.
  apply new_TensorBlock_inv in Hg as [-> _].
  apply add_gradient_inv in H.
  eexists (fst pg, _). split; [|exact H].
  split; [reflexivity|]. exists g2, vg. auto.
Qed.

Lemma foldM_divide_gradient_inv (b1 b2 : TensorBlock)
  (gs : list (string * TensorBlock)) :
  forall s s',
    outcome (foldM (Divide.divide_gradient b1 b2) gs s) = Ok s' ->
    exists added,
      Forall2 (divided_gradient b1 b2) gs added
      /\ s' = mkBlock (values s) (samples s) (components s) (properties s)
                (gradient_store s ++ added).
Proof.
  induction gs as [|pg gs IH]; intros s s' H.
  - exists []. split; [constructor|]. simpl in H. inversion H.
    destruct s'; simpl. now rewrite app_nil_r.
  - simpl in H. apply outcome_bindM_inv in H as (s1 & H1 & H).
    apply divide_gradient_inv in H1 as (pgR & HpgR & ->).
    apply IH in H as (added & Hadded & ->). simpl.
    exists (pgR :: added). split; [now constructor|].
    now rewrite <- app_assoc.
Qed.

Lemma divide_block_block_inv (b1 b2 bR : TensorBlock) :
  outcome (Divide._divide_block_block b1 b2) = Ok bR ->
  samples bR = samples b1
  /\ components bR = components b1
  /\ properties bR = properties b1
  /\ ew_array false fdiv (values b1) (values b2) = Ok (values bR)
  /\ Forall2 (divided_gradient b1 b2) (gradients b1) (gradient_store bR).
Proof.
  unfold Divide._divide_block_block. intros H.
  apply outcome_bindM_inv in H as (v & Hv & H).
  rewrite outcome_kernel in Hv.
  apply outcome_bindM_inv in H as (rb & Hrb & H).
  rewrite outcome_liftM in Hrb.
  apply new_TensorBlock_inv in Hrb as [-> _].
  apply foldM_divide_gradient_inv in H as (added & Hadded & ->).
  simpl. auto.
Qed.

Lemma divide_item_inv (B : TensorMap) (key : LabelsEntry)
  (bA bR : TensorBlock) :
  outcome (Divide.divide_item B (key, bA)) = Ok bR ->
  exists bB,
    block B [ByEntry key] [] = Ok bB
    /\ Utils._check_blocks_raise bA bB "divide" = Ok tt
    /\ Utils._check_same_gradients_raise bA bB "divide" = Ok tt
    /\ outcome (Divide._divide_block_block bA bB) = Ok bR.
Proof.
  unfold Divide.divide_item. cbv zeta. cbn [fst snd]. intros H.
  apply outcome_bindM_inv in H as (bB & HbB & H).
  rewrite outcome_liftM in HbB.
  apply outcome_bindM_inv in H as ([] & H1 & H).
  rewrite outcome_validation in H1.
  apply outcome_bindM_inv in H as ([] & H2 & H).
  rewrite outcome_validation in H2.
  exists bB. auto.
Qed.

Lemma divide_inv (A B R : TensorMap) :
  outcome (Divide.divide A (Divide.Map B)) = Ok R ->
  keys R = keys A
  /\ Forall2 (fun item bR => outcome (Divide.divide_item B item) = Ok bR)
       (items A) (block_store R).
Proof.
  unfold Divide.divide. intros H.
  apply outcome_bindM_inv in H as (bs & Hbs & H).
  apply outcome_bindM_inv in Hbs as ([] & _ & Hbs).
  apply outcome_forM_inv in Hbs.
  rewrite outcome_liftM in H. unfold new_TensorMap in H.
  destruct (negb (nodupb _ _)); [discriminate|].
  destruct (negb (_ =? _)%nat); [discriminate|].
  destruct (negb (same_names bs)); [discriminate|].
  inversion H; subst. simpl. auto.
Qed.

Lemma first_mismatch_all_inv (a b : TensorBlock) :
  Utils.first_mismatch a b Utils.all_props = None ->
  samples a = samples b /\ components a = components b
  /\ properties a = properties b.
Proof.
  unfold Utils.all_props. simpl.
  destruct (labels_eqb (samples a) (samples b)) eqn:Es; [|discriminate].
  destruct (list_eqb labels_eqb (components a) (components b)) eqn:Ec;
    [|discriminate].
  destruct (labels_eqb (properties a) (properties b)) eqn:Ep; [|discriminate].
  intros _. repeat split.
  - now apply labels_eqb_eq.
  - now apply (list_eqb_eq labels_eqb labels_eqb_eq).
  - now apply labels_eqb_eq.
Qed.

Lemma check_blocks_raise_inv (a b : TensorBlock) (fname : string) :
  Utils._check_blocks_raise a b fname = Ok tt ->
  Utils.first_mismatch a b Utils.all_props = None.
Proof.
  unfold Utils._check_blocks_raise.
  destruct (Utils.first_mismatch a b Utils.all_props); [discriminate|auto].
Qed.

Lemma gradients_mismatch_inv (gs : list (string * TensorBlock))
  (b : TensorBlock) (props : list string) :
  Utils.gradients_mismatch gs b props = None ->
  forall p g, In (p, g) gs ->
    exists g', assoc p (gradient_store b) = Some g'
               /\ Utils.first_mismatch g g' props = None.
Proof.
  induction gs as [|[q h] gs IH]; simpl; intros H p g Hin; [contradiction|].
  destruct (assoc q (gradient_store b)) as [h'|] eqn:Eq; [|discriminate].
  destruct (Utils.first_mismatch h h' props) eqn:Em; [discriminate|].
  destruct Hin as [E|Hin].
  - inversion E; subst. eauto.
  - now apply IH.
Qed.

Lemma check_same_gradients_raise_inv (a b : TensorBlock) (fname : string) :
  Utils._check_same_gradients_raise a b fname = Ok tt ->
  Utils.gradients_mismatch (gradients a) b Utils.all_props = None.
Proof.
  unfold Utils._check_same_gradients_raise, Utils._check_same_gradients.
  destruct (negb (Utils.same_parameters a b)); [discriminate|].
  destruct (Utils.gradients_mismatch _ _ _); [discriminate|auto].
Qed.

Lemma assoc_In {A : Type} (l : list (string * A)) (p : string) (g : A) :
  assoc p l = Some g -> In (p, g) l.
Proof.
  induction l as [|[q h] l IH]; simpl; [discriminate|].
  destruct (String.eqb p q) eqn:E.
  - apply String.eqb_eq in E. intros H; inversion H; subst. now left.
  - intros H. right. now apply IH.
Qed.

Lemma block_In (T : TensorMap) (args : list selector)
  (kwargs : list (string * Z)) (b : TensorBlock) :
  block T args kwargs = Ok b -> In b (block_store T).
Proof.
  unfold block. destruct (blocks_matching T args kwargs) as [m|e];
    simpl; [|discriminate].
  destruct (fst m) as [|i [|i' l]]; try discriminate.
  unfold block_by_id.
  destruct (nth_error (block_store T) i) as [b'|] eqn:E; [|discriminate].
  intros H; inversion H; subst. eapply nth_error_In. exact E.
Qed.

Lemma gradient_wf_inv (parent g : TensorBlock) :
  gradient_wf parent g = true ->
  shape_ok (values g) (samples g) (components g) (properties g) = true
  /\ components g = components parent
  /\ properties g = properties parent
  /\ column (samples g) "sample" = Ok (sample_column g)
  /\ Forall (fun s => (0 <= s < Z.of_nat (len (samples parent)))%Z)
       (sample_column g).
Proof.
  unfold gradient_wf. rewrite !andb_true_iff.
  intros [[[[Hs Hc] Hp] Hn] Hr]. repeat split.
  - assumption.
  - now apply (list_eqb_eq labels_eqb labels_eqb_eq).
  - now apply labels_eqb_eq.
  - unfold column, sample_column.
    destruct (names (samples g)) as [|n ns]; [discriminate|].
    cbn [index_of]. now rewrite String.eqb_sym, Hn.
  - unfold sample_column. apply Forall_map. apply Forall_forall.
    intros r Hin. rewrite forallb_forall in Hr. specialize (Hr r Hin).
    destruct r as [|i r]; [discriminate|]. simpl.
    apply andb_true_iff in Hr as [H0 H1].
    apply Z.leb_le in H0. apply Z.ltb_lt in H1. lia.
Qed.

(** The values of a gradient of the result: the rows of the samples 0, 1,
    ... in turn; and, when the gradient samples are in ascending order of
    the sample they refer to, row after row the quotient rule. *)
Lemma divided_gradient_values (bA bB g1 g2 : TensorBlock) (p : string)
  (vg : array) :
  block_wf bA = true -> block_wf bB = true ->
  Utils.first_mismatch bA bB Utils.all_props = None ->
  In (p, g1) (gradient_store bA) ->
  gradient bB p = Ok g2 ->
  Utils.first_mismatch g1 g2 Utils.all_props = None ->
  Divide.gradient_values bA bB g1 g2 = Ok vg ->
  vg = List.concat
         (map (fun i => map (rule_row bA bB g1 g2 i)
                          (selected_from (sample_column g1) 0 i))
            (seq 0 (len (samples bA))))
  /\ (sorted_by_sample g1 ->
      forall j s,
        nth_error (sample_column g1) j = Some s ->
        nth_error vg j = Some (rule_row bA bB g1 g2 (Z.to_nat s) j)).
Proof.
  intros HwfA HwfB Hsame Hin Hg2 Hgsame Hvg.
  apply block_wf_inv in HwfA as (HsA & _ & HgA).
  apply block_wf_inv in HwfB as (HsB & _ & HgB).
  apply first_mismatch_all_inv in Hsame as (Hss & Hcc & Hpp).
  apply first_mismatch_all_inv in Hgsame as (Hgss & Hgcc & Hgpp).
  specialize (HgA _ Hin). simpl in HgA.
  apply gradient_wf_inv in HgA as (Hs1 & Hc1 & Hp1 & Hcol1 & Hr1).
  assert (Hin2 : In (p, g2) (gradient_store bB)).
  { apply assoc_In. unfold gradient in Hg2.
    destruct (assoc p (gradient_store bB)); [|discriminate].
    now inversion Hg2. }
  specialize (HgB _ Hin2). simpl in HgB.
  apply gradient_wf_inv in HgB as (Hs2 & Hc2 & Hp2 & Hcol2 & _).
  assert (Hcol : sample_column g2 = sample_column g1)
    by (unfold sample_column; now rewrite Hgss).
  rewrite Hcol in Hcol2.
  apply shape_ok_inv in HsA as [HlA HshA].
  apply shape_ok_inv in HsB as [HlB HshB].
  apply shape_ok_inv in Hs1 as [Hl1 Hsh1].
  apply shape_ok_inv in Hs2 as [Hl2 Hsh2].
  rewrite <- Hcc, <- Hpp in HshB.
  rewrite Hc1, Hp1 in Hsh1.
  rewrite Hc2, Hp2, <- Hcc, <- Hpp in Hsh2.
  assert (Hlen1 : List.length (values g1) = List.length (sample_column g1))
    by (unfold sample_column; rewrite length_map; exact Hl1).
  assert (Hlen2 : List.length (values g2) = List.length (sample_column g1)).
  { unfold sample_column. rewrite length_map, Hl2. unfold len.
    now rewrite Hgss. }
  set (pieces :=
         map (fun i => map (rule_row bA bB g1 g2 i)
                         (selected_from (sample_column g1) 0 i))
           (seq 0 (len (samples bA)))).
  assert (Hpieces : mapR (Divide.gradient_rows bA bB g1 g2)
                      (seq 0 (len (samples bA))) = Ok pieces).
  { apply mapR_pure. intros i Hi. apply in_seq in Hi.
    apply (gradient_rows_value bA bB g1 g2
             (n_components (components bA)) (len (properties bA))
             (sample_column g1) i); try assumption.
    - lia.
    - rewrite HlB, <- Hss. lia. }
  unfold Divide.gradient_values in Hvg. rewrite Hpieces in Hvg.
  cbn [bindR] in Hvg. unfold concatenate in Hvg.
  assert (Hvg' : vg = List.concat pieces).
  { destruct pieces; [discriminate|]. now inversion Hvg. }
  split; [exact Hvg'|].
  intros Hsorted j s Hj.
  rewrite Hvg'. unfold pieces.
  rewrite (concat_map_in _
             (fun j => rule_row bA bB g1 g2
                         (Z.to_nat (nth j (sample_column g1) 0%Z)) j)).
  - rewrite (concat_selected_sorted _ _ Hsorted Hr1 0).
    assert (Hlt : (j < List.length (sample_column g1))%nat)
      by (apply nth_error_Some; congruence).
    rewrite nth_error_map.
    rewrite (nth_error_nth' _ 0%nat)
      by (now rewrite length_seq).
    rewrite seq_nth by assumption. simpl.
    now rewrite (nth_error_nth _ _ 0%Z Hj).
  - intros i j' _ Hj'. apply selected_from_spec in Hj'.
    rewrite (nth_error_nth _ _ 0%Z Hj'). now rewrite Nat2Z.id.
Qed.

Lemma Forall2_nth_error {A B : Type} (P : A -> B -> Prop) (l : list A)
  (l' : list B) (k : nat) (x : A) :
  Forall2 P l l' -> nth_error l k = Some x ->
  exists y, nth_error l' k = Some y /\ P x y.
Proof.
  intros H. revert k. induction H as [|a b l l' Hab _ IH]; intros [|k] Hk;
    try discriminate.
  - inversion Hk; subst. exists b. auto.
  - now apply IH.
Qed.

Lemma Forall2_impl_In {A B : Type} (P Q : A -> B -> Prop) (l : list A)
  (l' : list B) :
  Forall2 P l l' ->
  (forall x y, In x l -> P x y -> Q x y) ->
  Forall2 Q l l'.
Proof.
  induction 1 as [|a b l l' Hab _ IH]; intros H; constructor.
  - apply H; [now left|assumption].
  - apply IH. intros x y Hx. apply H. now right.
Qed.

Lemma list_eqb_refl {A : Type} (eqb : A -> A -> bool) :
  (forall x, eqb x x = true) -> forall l, list_eqb eqb l l = true.
Proof.
  intros H. induction l as [|x l IH]; simpl; [reflexivity|].
  now rewrite H, IH.
Qed.

Lemma feqb_refl (x : fval) : feqb x x = true.
Proof.
  destruct x as [|s|q]; simpl; [reflexivity|apply eqb_reflx|].
  apply Qeq_bool_iff. reflexivity.
Qed.

Lemma rows_differ (r r' : row) :
  list_eqb (list_eqb feqb) r r' = false -> r <> r'.
Proof.
  intros H E. subst r'.
  rewrite (list_eqb_refl _ (list_eqb_refl _ feqb_refl)) in H. discriminate.
Qed.

Lemma option_row_differs (o : option row) (r' : row) :
  match o with
  | Some r => list_eqb (list_eqb feqb) r r'
  | None => false
  end = false ->
  o <> Some r'.
Proof.
  destruct o as [r|]; intros H E; [|discriminate].
  inversion E; subst. now apply rows_differ in H.
Qed.

(** C10: in [divide(A, B)] with well-formed maps, every gradient of every
    block of the result has the samples, components and properties of the
    gradient of [A] it comes from, verbatim, and its rows are rebuilt sample
    after sample of the block; when the gradient samples of [A] are in
    ascending order of the ["sample"] column, row [j] of the values is the
    quotient rule for the gradient sample [j].  The order is needed: with
    gradient samples that refer to sample 1 and then to sample 0, row 0 of
    the result is not the quotient rule for gradient sample 0. *)
Theorem divide_gradient_layout :
  (forall A B R : TensorMap,
      tensormap_wf A = true ->
      tensormap_wf B = true ->
      outcome (Divide.divide A (Divide.Map B)) = Ok R ->
      forall k key bA,
        nth_error (items A) k = Some (key, bA) ->
        exists bB bR,
          block B [ByEntry key] [] = Ok bB
          /\ nth_error (block_store R) k = Some bR
          /\ Forall2 (gradient_layout bA bB) (gradient_store bA)
               (gradient_store bR))
  /\ (exists R bR gR,
        tensormap_wf unsorted_A = true
        /\ tensormap_wf unsorted_B = true
        /\ outcome (Divide.divide unsorted_A (Divide.Map unsorted_B)) = Ok R
        /\ block_store R = [bR]
        /\ gradient_store bR = [("g", gR)]
        /\ samples gR = labels1 "sample" [1; 0]%Z
        /\ nth_error (values gR) 0
           <> Some (rule_row (unsorted_block 2 4 10 20)
                      (unsorted_block 1 2 0 0)
                      (mkBlock [[[num 10]]; [[num 20]]]
                         (labels1 "sample" [1; 0]%Z) []
                         (labels1 "p" [0%Z]) [])
                      (mkBlock [[[num 0]]; [[num 0]]]
                         (labels1 "sample" [1; 0]%Z) []
                         (labels1 "p" [0%Z]) [])
                      1 0)).
Proof.
  split.
  - intros A B R HwfA HwfB Hout k key bA Hk.
    apply divide_inv in Hout as [_ Hall].
    destruct (Forall2_nth_error _ _ _ k _ Hall Hk) as (bR & HbR & Hitem).
    apply divide_item_inv in Hitem as (bB & HbB & Hchk & Hgchk & Hblock).
    exists bB, bR. split; [exact HbB|]. split; [exact HbR|].
    apply divide_block_block_inv in Hblock as (_ & _ & _ & _ & Hgr).
    assert (HbAwf : block_wf bA = true).
    { apply items_nth in Hk as (r & _ & _ & Hb).
      apply tensormap_wf_inv in HwfA as (_ & _ & H). apply H.
      eapply nth_error_In. exact Hb. }
    assert (HbBwf : block_wf bB = true).
    { apply tensormap_wf_inv in HwfB as (_ & _ & H). apply H.
      eapply block_In. exact HbB. }
    apply check_blocks_raise_inv in Hchk.
    apply check_same_gradients_raise_inv in Hgchk.
    eapply Forall2_impl_In; [exact Hgr|].
    intros [p g1] [pR gR] Hin (Hfst & g2 & vg & Hg2 & Hvg & Hsnd).
    cbn [fst snd] in *. subst pR gR.
    unfold gradient_layout. cbn [fst snd samples components properties values].
    repeat split. exists g2. split; [exact Hg2|].
    destruct (gradients_mismatch_inv _ _ _ Hgchk p g1 Hin) as (g' & Hg' & Hm).
    assert (g' = g2).
    { unfold gradient in Hg2. rewrite Hg' in Hg2. now inversion Hg2. }
    subst g'.
    apply (divided_gradient_values bA bB g1 g2 p vg); assumption.
  - do 3 eexists.
    split; [vm_compute; reflexivity|].
    split; [vm_compute; reflexivity|].
    split; [vm_compute; reflexivity|].
    split; [reflexivity|].
    split; [reflexivity|].
    split; [reflexivity|].
    apply option_row_differs. vm_compute. reflexivity.
Qed.

Lemma divide_gradient_layout_witness :
  exists R bB bR,
    outcome (Divide.divide sorted_A (Divide.Map sorted_B)) = Ok R
    /\ block sorted_B [ByEntry (mkEntry ["key"] [0%Z])] [] = Ok bB
    /\ nth_error (block_store R) 0 = Some bR
    /\ Forall2 (gradient_layout (sorted_block 2 4 20 10) bB)
         (gradient_store (sorted_block 2 4 20 10)) (gradient_store bR).
Proof.
  destruct (outcome (Divide.divide sorted_A (Divide.Map sorted_B)))
    as [R|e] eqn:E; [|vm_compute in E; discriminate E].
  destruct (proj1 divide_gradient_layout sorted_A sorted_B R
              eq_refl eq_refl E 0%nat (mkEntry ["key"] [0%Z])
              (sorted_block 2 4 20 10) eq_refl) as (bB & bR & H).
  exists R, bB, bR. split; [reflexivity|exact H].
Defined.

Lemma arrays_differ (a b : array) : array_eqb a b = false -> a <> b.
Proof.
  intros H E. subst b. unfold array_eqb in H.
  rewrite (list_eqb_refl _ (list_eqb_refl _ (list_eqb_refl _ feqb_refl))) in H.
  discriminate.
Qed.

(** C2 fails on gradient samples that are not in ascending order of the
    sample they refer to.  With a block of two samples (values 2 and 4 in
    [A], 1 and 2 in [B]) and two gradient samples that refer to sample 1 and
    then to sample 0 (gradient values 10 and 20 in [A], 0 and 0 in [B]),
    [divide] succeeds; the row of the result that refers to sample 1 holds
    20, where the quotient rule gives 10 / 2 - 4 * 0 / 2 ** 2 = 5. *)
Theorem divide_misplaces_unsorted_gradient_rows :
  exists R bR gR rows rowsA rowsB a b,
    outcome (Divide.divide unsorted_A (Divide.Map unsorted_B)) = Ok R
    /\ block_store R = [bR]
    /\ gradient bR "g" = Ok gR
    /\ rows_referencing gR 1 = Ok rows
    /\ rows_referencing
         (mkBlock [[[num 10]]; [[num 20]]] (labels1 "sample" [1; 0]%Z) []
            (labels1 "p" [0%Z]) []) 1 = Ok rowsA
    /\ rows_referencing
         (mkBlock [[[num 0]]; [[num 0]]] (labels1 "sample" [1; 0]%Z) []
            (labels1 "p" [0%Z]) []) 1 = Ok rowsB
    /\ getitem (values (unsorted_block 2 4 10 20)) 1 = Ok a
    /\ getitem (values (unsorted_block 1 2 0 0)) 1 = Ok b
    /\ rows <> map2 (quotient_rule_row a b) rowsA rowsB
    /\ array_eqb rows (nums [[[20%Z]]]) = true
    /\ array_eqb (map2 (quotient_rule_row a b) rowsA rowsB) (nums [[[5%Z]]])
       = true.
Proof.
  do 8 eexists.
  split; [vm_compute; reflexivity|].
  split; [reflexivity|].
  split; [reflexivity|].
  split; [vm_compute; reflexivity|].
  split; [vm_compute; reflexivity|].
  split; [vm_compute; reflexivity|].
  split; [reflexivity|].
  split; [reflexivity|].
  split; [apply arrays_differ; vm_compute; reflexivity|].
  split; vm_compute; reflexivity.
Qed.

(** * Further properties of the operations *)

(** ** More on the dispatch *)

Lemma dispatch_refuses_other_witness :
  Dispatch.run
    (Dispatch.call_index_add (Dispatch.NdArray 2 false)
       (Dispatch.Other "list" None) (Dispatch.NdArray 1 true))
  = Dispatch.Raises (TypeError Dispatch.UNKNOWN_ARRAY_TYPE).
Proof.
  apply dispatch_refuses_other; [reflexivity|reflexivity|simpl; exact I].
Defined.

Lemma guard_calls (r : result unit) (k : Dispatch.answer) (l : Dispatch.lib)
  (f : string) :
  Dispatch.guard r k = Dispatch.Calls l f -> r = Ok tt /\ k = Dispatch.Calls l f.
Proof.
  destruct r as [[]|e]; simpl; [auto|discriminate].
Qed.

Lemma check_all_np_ndarray_ok (arrays : list Dispatch.pyobj) :
  Dispatch._check_all_np_ndarray arrays = Ok tt
  <-> Forall (fun a => library_of a = Some Dispatch.numpy) arrays.
Proof.
  induction arrays as [|a arrays IH]; simpl.
  - split; [constructor|reflexivity].
  - destruct a; simpl.
    + rewrite IH. split; [now constructor|now inversion 1].
    + split; [discriminate|]. inversion 1; discriminate.
    + split; [discriminate|]. inversion 1; discriminate.
Qed.

Lemma check_all_torch_tensor_ok (arrays : list Dispatch.pyobj) :
  Dispatch._check_all_torch_tensor arrays = Ok tt
  <-> Forall (fun a => library_of a = Some Dispatch.torch) arrays.
Proof.
  induction arrays as [|a arrays IH]; simpl.
  - split; [constructor|reflexivity].
  - destruct a; simpl.
    + split; [discriminate|]. inversion 1; discriminate.
    + rewrite IH. split; [now constructor|now inversion 1].
    + split; [discriminate|]. inversion 1; discriminate.
Qed.

Lemma same_class_library (a b : Dispatch.pyobj) (l : Dispatch.lib) :
  library_of b = Some l -> library_of a = Some l -> same_class a b = true.
Proof.
  destruct a, b; simpl; intros H1 H2; congruence.
Qed.

Lemma to_index_array_ok (a v : Dispatch.pyobj) :
  Dispatch.to_index_array a = Ok v ->
  Dispatch.ndim_of a = Some 1%nat
  /\ has_integer_entries a = true
  /\ library_of v = library_of a
  /\ Dispatch.ndim_of v = Some 1%nat
  /\ has_integer_entries v = true.
Proof.
  unfold Dispatch.to_index_array.
  destruct (Dispatch.ndim_of a) as [n|] eqn:En; [|discriminate].
  destruct (n =? 1)%nat eqn:E1; simpl; [|discriminate].
  apply Nat.eqb_eq in E1. subst n.
  destruct a as [n integral|n floating|cls n]; simpl in *.
  - destruct integral; simpl; [|discriminate].
    intros H; inversion H; subst. simpl. auto.
  - destruct floating; simpl; [discriminate|].
    intros H; inversion H; subst. simpl. auto.
  - discriminate.
Qed.

Lemma same_class_of_library (xs : list Dispatch.pyobj) (d : Dispatch.pyobj)
  (l : Dispatch.lib) :
  Forall (fun a => library_of a = Some l) xs ->
  library_of d = Some l ->
  Forall (fun a => same_class a d = true) xs.
Proof.
  intros H Hd. eapply Forall_impl; [|exact H].
  intros a Ha. now apply (same_class_library a d l).
Qed.

Ltac open_call H :=
  unfold Dispatch.allclose, Dispatch.bincount, Dispatch.dot, Dispatch.solve,
    Dispatch.lstsq, Dispatch.concatenate, Dispatch.index_add, Dispatch.to in H;
  cbv beta iota in H.

Ltac checked_arrays H :=
  open_call H;
  apply guard_calls in H as [H _];
  first [apply check_all_np_ndarray_ok in H
        |apply check_all_torch_tensor_ok in H].

(** X2: When a function of the module reaches a backend, every array it was
    given is of the class of the argument it dispatched on: arrays of the two
    libraries are never mixed in one call. *)
Theorem backend_call_has_one_array_class (c : Dispatch.call)
  (l : Dispatch.lib) (f : string) :
  Dispatch.run c = Dispatch.Calls l f ->
  Forall (fun a => same_class a (Dispatch.dispatched_on c) = true)
    (array_arguments c).
Proof.
  intros H.
  destruct c as
    [a|a b|input weights|arr|arr|arr|arr|A B|X Y|arr|X Y|X|a0 others
    |output_array input_array index|arr|arr|arr|arr|arr|arr
    |scripting arr backend|arr|arr|arr|arr];
    cbn [array_arguments Dispatch.dispatched_on Dispatch.run] in *;
    try (match goal with
         | H : _ ?a = Dispatch.Calls _ _ |- Forall _ [?a] =>
             destruct a; try discriminate H; repeat constructor
         end).
  - (* allclose *)
    destruct a; try discriminate H; checked_arrays H;
      (constructor; [reflexivity|]);
      (eapply same_class_of_library; [exact H|reflexivity]).
  - (* bincount *)
    destruct weights as [w|].
    + destruct input; try discriminate H; checked_arrays H;
        (constructor; [reflexivity|]);
        (eapply same_class_of_library; [exact H|reflexivity]).
    + destruct input; try discriminate H; repeat constructor.
  - (* dot *)
    destruct A; try discriminate H; checked_arrays H;
      (constructor; [reflexivity|]);
      (eapply same_class_of_library; [exact H|reflexivity]).
  - (* solve *)
    destruct X; try discriminate H; checked_arrays H;
      (constructor; [reflexivity|]);
      (eapply same_class_of_library; [exact H|reflexivity]).
  - (* lstsq *)
    destruct X; try discriminate H; checked_arrays H;
      (constructor; [reflexivity|]);
      (eapply same_class_of_library; [exact H|reflexivity]).
  - (* concatenate *)
    destruct a0; try discriminate H; checked_arrays H;
      (eapply same_class_of_library; [exact H|reflexivity]).
  - (* index_add *)
    unfold Dispatch.index_add in H.
    destruct (Dispatch.to_index_array index) as [index'|e] eqn:Hidx;
      [|discriminate H].
    apply to_index_array_ok in Hidx as (_ & _ & Hlib & _ & _).
    destruct input_array; try discriminate H; checked_arrays H;
      inversion H as [|? ? Ho H']; subst;
      inversion H' as [|? ? _ H'']; subst;
      inversion H'' as [|? ? Hi _]; subst;
      rewrite Hlib in Hi;
      repeat constructor;
      first [now apply (same_class_library _ _ Dispatch.numpy)
            |now apply (same_class_library _ _ Dispatch.torch)].
  - (* to *)
    destruct arr; try discriminate H; repeat constructor.
  - (* to_index_array *)
    destruct (Dispatch.to_index_array arr); discriminate H.
Qed.

Lemma backend_call_has_one_array_class_witness :
  Forall (fun a => same_class a (Dispatch.NdArray 2 false) = true)
    [Dispatch.NdArray 2 false; Dispatch.NdArray 2 false;
     Dispatch.NdArray 1 true].
Proof.
  apply (backend_call_has_one_array_class
           (Dispatch.call_index_add (Dispatch.NdArray 2 false)
              (Dispatch.NdArray 2 false) (Dispatch.NdArray 1 true))
           Dispatch.numpy "add.at").
  reflexivity.
Defined.

(** X3: The function [norm] and the conversions [to(array, backend)] that name
    a backend aside, a call reaches the library of the array it dispatched
    on, never the other one. *)
Theorem backend_call_uses_own_library (c : Dispatch.call)
  (l : Dispatch.lib) (f : string) :
  is_norm c = false ->
  names_backend c = false ->
  Dispatch.run c = Dispatch.Calls l f ->
  library_of (Dispatch.dispatched_on c) = Some l.
Proof.
  intros Hn Hb H.
  destruct c as
    [a|a b|input weights|arr|arr|arr|arr|A B|X Y|arr|X Y|X|a0 others
    |output_array input_array index|arr|arr|arr|arr|arr|arr
    |scripting arr backend|arr|arr|arr|arr];
    cbn [is_norm names_backend Dispatch.dispatched_on Dispatch.run] in *;
    try discriminate Hn;
    try (match goal with
         | H : _ ?a = Dispatch.Calls _ _ |- library_of ?a = _ =>
             destruct a; try discriminate H; now inversion H
         end).
  - destruct a; try discriminate H; open_call H;
      apply guard_calls in H as [_ H]; now inversion H.
  - destruct input; try discriminate H; open_call H;
      apply guard_calls in H as [_ H]; now inversion H.
  - destruct A; try discriminate H; open_call H;
      apply guard_calls in H as [_ H]; unfold Dispatch.assert_2d in H;
      destruct (Dispatch.ndim_of B) as [[|[|[|?]]]|]; try discriminate H;
      try (match type of H with
           | context [(?n =? 2)%nat] => destruct (n =? 2)%nat
           end); now inversion H.
  - destruct X; try discriminate H; open_call H;
      apply guard_calls in H as [_ H]; now inversion H.
  - destruct X; try discriminate H; open_call H;
      apply guard_calls in H as [_ H]; now inversion H.
  - destruct a0; try discriminate H; open_call H;
      apply guard_calls in H as [_ H]; now inversion H.
  - unfold Dispatch.index_add in H.
    destruct (Dispatch.to_index_array index); [|discriminate H].
    destruct input_array; try discriminate H;
      apply guard_calls in H as [_ H]; now inversion H.
  - destruct backend; [discriminate Hb|].
    destruct arr; try discriminate H; simpl in H; now inversion H.
  - destruct (Dispatch.to_index_array arr); discriminate H.
Qed.

Lemma backend_call_uses_own_library_witness :
  library_of (Dispatch.dispatched_on
                (Dispatch.call_dot (Dispatch.Tensor 2 true)
                   (Dispatch.Tensor 2 true)))
  = Some Dispatch.torch.
Proof.
  apply (backend_call_uses_own_library _ Dispatch.torch "matmul");
    reflexivity.
Defined.



(** X5: [concatenate] fails on an empty list and otherwise reaches a backend
    exactly when every array of the list is of that backend; the older
    [vstack] looks at the first array only. *)
Theorem concatenate_checks_every_array :
  Dispatch.concatenate [] = Dispatch.Raises (IndexError "list index out of range")
  /\ (forall arrays l f,
        Dispatch.concatenate arrays = Dispatch.Calls l f
        <-> arrays <> []
            /\ Forall (fun a => library_of a = Some l) arrays
            /\ f = "concatenate")
  /\ (forall a others l,
        library_of a = Some l ->
        EquistoreDispatch.vstack (a :: others) = Dispatch.Calls l "vstack").
Proof.
  split; [reflexivity|]. split.
  - intros arrays l f. split.
    + intros H. destruct arrays as [|a others]; [discriminate H|].
      split; [discriminate|].
      destruct a; try discriminate H; unfold Dispatch.concatenate in H;
        apply guard_calls in H as [Hc H]; inversion H; subst;
        (split; [|reflexivity]).
      * now apply check_all_np_ndarray_ok.
      * now apply check_all_torch_tensor_ok.
    + intros (Hne & Hall & ->). destruct arrays as [|a others]; [congruence|].
      assert (Ha : library_of a = Some l) by now inversion Hall.
      destruct a; try discriminate Ha; inversion Ha; subst;
        unfold Dispatch.concatenate.
      * apply check_all_np_ndarray_ok in Hall. now rewrite Hall.
      * apply check_all_torch_tensor_ok in Hall. now rewrite Hall.
  - intros a others l Ha. destruct a; try discriminate Ha; now inversion Ha.
Qed.

Lemma concatenate_checks_every_array_witness :
  EquistoreDispatch.vstack [Dispatch.NdArray 2 false; Dispatch.Tensor 2 true]
  = Dispatch.Calls Dispatch.numpy "vstack"
  /\ Dispatch.concatenate [Dispatch.NdArray 2 false; Dispatch.NdArray 2 true]
     = Dispatch.Calls Dispatch.numpy "concatenate".
Proof.
  split.
  - exact (proj2 (proj2 concatenate_checks_every_array)
             (Dispatch.NdArray 2 false) [Dispatch.Tensor 2 true]
             Dispatch.numpy eq_refl).
  - apply (proj1 (proj2 concatenate_checks_every_array)).
    split; [discriminate|]. split; [|reflexivity].
    repeat constructor.
Defined.

(** X6: The two generations of the module agree on [solve] and on [lstsq]:
    both reach the library of the two arguments when these are arrays of one
    class, and both raise a [TypeError] otherwise. *)
Theorem solve_and_lstsq_agree_across_modules (X Y : Dispatch.pyobj) :
  (same_class X Y = true ->
   Dispatch.solve X Y = EquistoreDispatch.solve X Y
   /\ Dispatch.lstsq X Y = EquistoreDispatch.lstsq X Y
   /\ exists l,
        library_of X = Some l
        /\ Dispatch.solve X Y = Dispatch.Calls l "linalg.solve"
        /\ Dispatch.lstsq X Y = Dispatch.Calls l "linalg.lstsq")
  /\ (same_class X Y = false ->
      EquistoreDispatch.solve X Y
      = Dispatch.Raises (TypeError Dispatch.UNKNOWN_ARRAY_TYPE)
      /\ EquistoreDispatch.lstsq X Y
         = Dispatch.Raises (TypeError Dispatch.UNKNOWN_ARRAY_TYPE)
      /\ exists msg,
           Dispatch.solve X Y = Dispatch.Raises (TypeError msg)
           /\ Dispatch.lstsq X Y = Dispatch.Raises (TypeError msg)).
Proof.
  split; intros H; destruct X, Y; try discriminate H; simpl;
    repeat split; eexists; repeat split; reflexivity.
Qed.

Lemma solve_and_lstsq_agree_across_modules_witness :
  Dispatch.solve (Dispatch.NdArray 2 false) (Dispatch.NdArray 1 false)
  = EquistoreDispatch.solve (Dispatch.NdArray 2 false) (Dispatch.NdArray 1 false).
Proof.
  exact (proj1 (proj1 (solve_and_lstsq_agree_across_modules
                         (Dispatch.NdArray 2 false) (Dispatch.NdArray 1 false))
                  eq_refl)).
Defined.

(** X7: [dot] in the two generations.  On numpy arrays with a second argument
    of two dimensions they pick the same routine; a second argument of any
    other rank fails the assertion of the newer module, where the older one
    calls [np.dot].  On torch tensors the older module never reaches
    [torch.matmul], which the newer one calls whenever the second argument
    has two dimensions. *)
Theorem dot_across_modules :
  (forall n flag flag',
      Dispatch.dot (Dispatch.NdArray n flag) (Dispatch.NdArray 2 flag')
      = EquistoreDispatch.dot (Dispatch.NdArray n flag) (Dispatch.NdArray 2 flag'))
  /\ (forall n m flag flag',
        m <> 2%nat ->
        Dispatch.dot (Dispatch.NdArray n flag) (Dispatch.NdArray m flag')
        = Dispatch.Raises AssertionError
        /\ EquistoreDispatch.dot (Dispatch.NdArray n flag) (Dispatch.NdArray m flag')
           = Dispatch.Calls Dispatch.numpy "dot")
  /\ (forall A B, EquistoreDispatch.dot A B <> Dispatch.Calls Dispatch.torch "matmul")
  /\ (forall n flag flag',
        Dispatch.dot (Dispatch.Tensor n flag) (Dispatch.Tensor 2 flag')
        = Dispatch.Calls Dispatch.torch "matmul"
        /\ EquistoreDispatch.dot (Dispatch.Tensor n flag) (Dispatch.Tensor 2 flag')
           <> Dispatch.dot (Dispatch.Tensor n flag) (Dispatch.Tensor 2 flag')).
Proof.
  repeat split.
  - intros n flag flag'. simpl. unfold Dispatch.assert_2d. simpl.
    rewrite andb_true_r. reflexivity.
  - simpl. unfold Dispatch.assert_2d. simpl.
    destruct m as [|[|[|m]]]; try reflexivity. congruence.
  - simpl. assert (E : (m =? 2)%nat = false) by now apply Nat.eqb_neq.
    rewrite E, andb_false_r. reflexivity.
  - intros A B. destruct A as [n1 ?|n1 ?|? ?], B as [n2 ?|n2 ?|? ?]; simpl;
      try discriminate.
    + destruct (_ && _); discriminate.
    + destruct (_ && _); discriminate.
  - simpl. rewrite andb_false_r. discriminate.
Qed.

Lemma dot_across_modules_witness :
  Dispatch.dot (Dispatch.NdArray 2 false) (Dispatch.NdArray 1 false)
  = Dispatch.Raises AssertionError
  /\ EquistoreDispatch.dot (Dispatch.NdArray 2 false) (Dispatch.NdArray 1 false)
     = Dispatch.Calls Dispatch.numpy "dot".
Proof.
  apply (proj1 (proj2 dot_across_modules)). discriminate.
Defined.

(** ** Conversions between the backends *)

(** X8: [to(array, backend)] on a numpy array or a torch tensor: without a
    backend it behaves as with the name of the library of the array; a name
    other than "numpy" and "torch" is refused with a [ValueError] that
    quotes it; both names are served outside torch-scripting; and
    torch-scripting changes nothing but the conversion of a tensor to numpy,
    which it refuses. *)
Theorem to_backend_selection (scripting : bool) (a : Dispatch.pyobj) :
  Dispatch.is_other a = false ->
  Dispatch.to scripting a None
  = Dispatch.to scripting a (Some (backend_name a))
  /\ (forall b,
        b <> "numpy" -> b <> "torch" ->
        Dispatch.to scripting a (Some b)
        = Dispatch.Raises (ValueError ("Unknown backend: " ++ b)))
  /\ (forall b,
        b = "numpy" \/ b = "torch" ->
        exists l f, Dispatch.to false a (Some b) = Dispatch.Calls l f)
  /\ (forall backend,
        torch_to_numpy a backend = false ->
        Dispatch.to true a backend = Dispatch.to false a backend)
  /\ (forall backend,
        torch_to_numpy a backend = true ->
        Dispatch.to true a backend
        = Dispatch.Raises
            (ValueError "cannot call numpy conversion when torch-scripting")).
Proof.
  intros Ha. destruct a as [n i|n f|cls n]; [| |discriminate Ha];
    (split; [reflexivity|]); (split; [|split; [|split]]).
  - intros b Hn Ht. unfold Dispatch.to.
    apply String.eqb_neq in Hn, Ht. now rewrite Hn, Ht.
  - intros b [-> | ->]; eexists; eexists; reflexivity.
  - reflexivity.
  - discriminate.
  - intros b Hn Ht. unfold Dispatch.to.
    apply String.eqb_neq in Hn, Ht. now rewrite Hn, Ht.
  - intros b [-> | ->]; eexists; eexists; reflexivity.
  - intros [b|] H; [|reflexivity]. unfold Dispatch.to. cbn in H.
    destruct (String.eqb b "torch"); [reflexivity|]. now rewrite H.
  - intros [b|] H; [|discriminate H]. cbn in H.
    apply String.eqb_eq in H. subst b. reflexivity.
Qed.

Lemma to_backend_selection_witness :
  Dispatch.to true (Dispatch.Tensor 2 true) (Some "numpy")
  = Dispatch.Raises
      (ValueError "cannot call numpy conversion when torch-scripting").
Proof.
  apply (to_backend_selection true (Dispatch.Tensor 2 true) eq_refl).
  reflexivity.
Defined.

(** ** The boolean comparisons *)

Lemma bool_view (m : M unit) :
  let v := catch_NotEqualError (_ <~ m ;; retM true) (fun _ => retM false) in
  (outcome v = Ok true <-> outcome m = Ok tt)
  /\ (outcome v = Ok false
      <-> exists msg cause, outcome m = Raise (NotEqualError msg cause))
  /\ (forall e,
        outcome v = Raise e
        <-> outcome m = Raise e /\ forall msg cause, e <> NotEqualError msg cause)
  /\ trace v = trace m.
Proof.
  destruct m as [t [[]|e]]; cbn.
  - rewrite app_nil_r. repeat split; try discriminate; try tauto;
      try (intros (msg & cause & H); discriminate H);
      try (intros [H _]; discriminate H).
  - destruct e; cbn; rewrite ?app_nil_r;
      (split; [split; discriminate|]);
      (split;
       [split;
        [first [discriminate|intros _; eexists; eexists; reflexivity]
        |first [intros _; reflexivity|intros (? & ? & H); discriminate H]]|]);
      (split; [|reflexivity]);
      intros e';
      (split;
       [first [discriminate
              |intros H; inversion H; subst;
               split; [reflexivity|intros ? ?; discriminate]]
       |intros [H Hne]; inversion H; subst;
        first [reflexivity|exfalso; eapply Hne; reflexivity]]).
Qed.

(** X9: [allclose] and [allclose_block] are the boolean readings of
    [allclose_raise] and [allclose_block_raise]: [True] when these raise
    nothing, [False] when they raise a [NotEqualError]; an exception of any
    other class passes through, and a [NotEqualError] never does. *)
Theorem allclose_reads_allclose_raise (t1 t2 : TensorMap)
  (b1 b2 : TensorBlock) (rtol atol : Qc) (equal_nan : bool) :
  let raising := Allclose.allclose_raise t1 t2 rtol atol equal_nan in
  let reading := Allclose.allclose t1 t2 rtol atol equal_nan in
  let raising_block := Allclose.allclose_block_raise b1 b2 rtol atol equal_nan in
  let reading_block := Allclose.allclose_block b1 b2 rtol atol equal_nan in
  ((outcome reading = Ok true <-> outcome raising = Ok tt)
   /\ (outcome reading = Ok false
       <-> exists msg cause, outcome raising = Raise (NotEqualError msg cause))
   /\ (forall e,
         outcome reading = Raise e
         <-> outcome raising = Raise e
             /\ forall msg cause, e <> NotEqualError msg cause)
   /\ trace reading = trace raising)
  /\ ((outcome reading_block = Ok true <-> outcome raising_block = Ok tt)
      /\ (outcome reading_block = Ok false
          <-> exists msg cause,
                outcome raising_block = Raise (NotEqualError msg cause))
      /\ (forall e,
            outcome reading_block = Raise e
            <-> outcome raising_block = Raise e
                /\ forall msg cause, e <> NotEqualError msg cause)
      /\ trace reading_block = trace raising_block).
Proof.
  split.
  - apply (bool_view (Allclose.allclose_raise t1 t2 rtol atol equal_nan)).
  - apply (bool_view (Allclose.allclose_block_raise b1 b2 rtol atol equal_nan)).
Qed.

(** ** Element-wise operations, position by position *)








(** ** Wider tolerances *)

Lemma isclose_monotone (rtol atol rtol' atol' : Qc) (equal_nan equal_nan' : bool)
  (x y : fval) :
  (rtol <= rtol')%Qc -> (atol <= atol')%Qc ->
  (equal_nan = true -> equal_nan' = true) ->
  isclose rtol atol equal_nan x y = true ->
  isclose rtol' atol' equal_nan' x y = true.
Proof.
  intros Hr Ha Hn. destruct x as [|s|a], y as [|t|b]; simpl; auto.
  intros H. apply Qle_bool_iff in H. apply Qle_bool_iff.
  change ((Qcabs (a - b) <= atol + rtol * Qcabs b)%Qc) in H.
  change ((Qcabs (a - b) <= atol' + rtol' * Qcabs b)%Qc).
  eapply Qcle_trans; [exact H|].
  apply Qcplus_le_compat; [assumption|].
  apply Qcmult_le_compat_r; [assumption|apply Qcabs_nonneg].
Qed.

Lemma mapR_rel {A B B' : Type} (R : B -> B' -> Prop) (f : A -> result B)
  (f' : A -> result B') (l : list A) (bs : list B) :
  (forall x b, f x = Ok b -> exists b', f' x = Ok b' /\ R b b') ->
  mapR f l = Ok bs ->
  exists bs', mapR f' l = Ok bs' /\ Forall2 R bs bs'.
Proof.
  intros Hf. revert bs. induction l as [|a l IH]; intros bs H.
  - inversion H. exists []. split; [reflexivity|constructor].
  - simpl in H. destruct (f a) as [b|e] eqn:Ea; [|discriminate H].
    simpl in H. destruct (mapR f l) as [bs0|e] eqn:El; [|discriminate H].
    inversion H; subst.
    destruct (Hf a b Ea) as (b' & Eb' & Rb).
    destruct (IH bs0 eq_refl) as (bs' & Ebs' & Rbs).
    exists (b' :: bs'). simpl. rewrite Eb'. simpl. rewrite Ebs'.
    split; [reflexivity|now constructor].
Qed.

Lemma zip_with_rel {A B C C' : Type} (R : C -> C' -> Prop)
  (f : A -> B -> result C) (f' : A -> B -> result C') (xs : list A)
  (ys : list B) (cs : list C) :
  (forall x y c, f x y = Ok c -> exists c', f' x y = Ok c' /\ R c c') ->
  zip_with f xs ys = Ok cs ->
  exists cs', zip_with f' xs ys = Ok cs' /\ Forall2 R cs cs'.
Proof.
  intros Hf. revert ys cs. induction xs as [|a xs IH]; intros [|b ys] cs H;
    try discriminate H.
  - inversion H. exists []. split; [reflexivity|constructor].
  - simpl in H. destruct (f a b) as [c|e] eqn:Ea; [|discriminate H].
    simpl in H. destruct (zip_with f xs ys) as [cs0|e] eqn:El;
      [|discriminate H].
    inversion H; subst.
    destruct (Hf a b c Ea) as (c' & Ec' & Rc).
    destruct (IH ys cs0 El) as (cs' & Ecs' & Rcs).
    exists (c' :: cs'). simpl. rewrite Ec'. simpl. rewrite Ecs'.
    split; [reflexivity|now constructor].
Qed.

Lemma broadcast_rel {A B C C' : Type} (R : C -> C' -> Prop) (inplace : bool)
  (f : A -> B -> result C) (f' : A -> B -> result C') (xs : list A)
  (ys : list B) (cs : list C) :
  (forall x y c, f x y = Ok c -> exists c', f' x y = Ok c' /\ R c c') ->
  broadcast inplace f xs ys = Ok cs ->
  exists cs', broadcast inplace f' xs ys = Ok cs' /\ Forall2 R cs cs'.
Proof.
  intros Hf H.
  destruct ys as [|y0 [|y1 ys]];
    [|unfold broadcast in *;
      apply (mapR_rel R (fun x => f x y0)); [intros x b; apply Hf|exact H]|];
    destruct xs as [|x0 [|x1 xs]]; unfold broadcast in *;
    try (apply (zip_with_rel R f); assumption);
    (destruct inplace; [discriminate H|]);
    (apply (mapR_rel R (fun y => f x0 y)); [intros y b; apply Hf|exact H]).
Qed.

Lemma forallb_rel {A : Type} (p : A -> bool) (l l' : list A) :
  Forall2 (fun x y => p x = true -> p y = true) l l' ->
  forallb p l = true -> forallb p l' = true.
Proof.
  induction 1 as [|x y l l' Hxy _ IH]; simpl; [auto|].
  rewrite !andb_true_iff. intros [Hx Hl]. auto.
Qed.

Lemma ew_array_rel (inplace : bool) (f f' : fval -> fval -> bool)
  (a b : array) (cs : list (list (list bool))) :
  (forall x y, f x y = true -> f' x y = true) ->
  ew_array inplace f a b = Ok cs ->
  exists cs',
    ew_array inplace f' a b = Ok cs'
    /\ Forall2 (Forall2 (Forall2 implies)) cs cs'.
Proof.
  intros Hf H. unfold ew_array, ew_row in *.
  eapply broadcast_rel; [|exact H].
  intros r1 r2 c Hc. eapply broadcast_rel; [|exact Hc].
  intros c1 c2 d Hd. eapply broadcast_rel; [|exact Hd].
  intros x y z Hz. inversion Hz; subst. eexists. split; [reflexivity|].
  unfold implies. apply Hf.
Qed.

Lemma all_true_rel (cs cs' : list (list (list bool))) :
  Forall2 (Forall2 (Forall2 implies)) cs cs' ->
  forallb (forallb (forallb (fun z : bool => z))) cs = true ->
  forallb (forallb (forallb (fun z : bool => z))) cs' = true.
Proof.
  intros H. apply forallb_rel. eapply Forall2_impl; [|exact H].
  intros r r' Hr. apply forallb_rel. eapply Forall2_impl; [|exact Hr].
  intros c c' Hc. apply forallb_rel. exact Hc.
Qed.

Lemma array_allclose_monotone (a b : array) (rtol atol rtol' atol' : Qc)
  (equal_nan equal_nan' : bool) :
  (rtol <= rtol')%Qc -> (atol <= atol')%Qc ->
  (equal_nan = true -> equal_nan' = true) ->
  array_allclose a b rtol atol equal_nan = Ok true ->
  array_allclose a b rtol' atol' equal_nan' = Ok true.
Proof.
  intros Hr Ha Hn. unfold array_allclose. intros H.
  destruct (ew_array false (isclose rtol atol equal_nan) a b) as [cs|e] eqn:E;
    [|discriminate H].
  simpl in H.
  assert (Hall : forallb (forallb (forallb (fun z : bool => z))) cs = true)
    by congruence.
  destruct (ew_array_rel false (isclose rtol atol equal_nan)
              (isclose rtol' atol' equal_nan') a b cs)
    as (cs' & E' & Rcs); [|exact E|].
  - intros x y. now apply isclose_monotone.
  - rewrite E'. simpl. f_equal. now apply (all_true_rel cs cs').
Qed.

(** ** When [allclose_block_raise] and [allclose_raise] pass *)

Lemma outcome_check_blocks_caught (b1 b2 : TensorBlock) :
  outcome
    (catch_ValueError
       (validation "_check_blocks"
          (Utils._check_blocks b1 b2 Allclose.compared_props "allclose"))
       (fun e => raiseM (NotEqualError (exn_message e) None)))
  = match Utils.first_mismatch b1 b2 Allclose.compared_props with
    | None => Ok tt
    | Some m => Raise (NotEqualError (Utils.mismatch_message "allclose" m) None)
    end.
Proof.
  unfold Utils._check_blocks.
  destruct (Utils.first_mismatch b1 b2 Allclose.compared_props); reflexivity.
Qed.

Lemma Forall2_Forall_l {A B : Type} (P : A -> Prop) (l : list A) (l' : list B) :
  Forall2 (fun x _ => P x) l l' -> Forall P l.
Proof. induction 1; constructor; assumption. Qed.

Lemma outcome_forM_unit {A : Type} (f : A -> M unit) (l : list A) :
  Forall (fun x => outcome (f x) = Ok tt) l ->
  exists us, outcome (forM f l) = Ok us.
Proof.
  intros H. exists (map (fun _ => tt) l).
  now apply (outcome_forM_ok f (fun _ => tt)).
Qed.

Lemma allclose_gradient_ok_iff (b2 : TensorBlock) (rtol atol : Qc)
  (equal_nan : bool) (pg : string * TensorBlock) (u : unit) :
  outcome (Allclose.allclose_gradient b2 rtol atol equal_nan pg) = Ok u
  <-> gradients_close b2 rtol atol equal_nan pg.
Proof.
  unfold Allclose.allclose_gradient, gradients_close. cbv zeta.
  rewrite outcome_bindM, outcome_liftM.
  destruct (gradient b2 (fst pg)) as [g2|e].
  - rewrite outcome_bindM, outcome_kernel.
    destruct (array_allclose _ _ _ _ _) as [[|]|e'] eqn:E; cbn.
    + destruct u. split; [intros _; eauto|reflexivity].
    + split; [discriminate|]. intros (g & Hg & Hc). inversion Hg; subst.
      congruence.
    + split; [discriminate|]. intros (g & Hg & Hc). inversion Hg; subst.
      congruence.
  - split; [discriminate|]. intros (g & Hg & _). discriminate Hg.
Qed.

Lemma allclose_block_raise_ok_iff (b1 b2 : TensorBlock) (rtol atol : Qc)
  (equal_nan : bool) :
  outcome (Allclose.allclose_block_raise b1 b2 rtol atol equal_nan) = Ok tt
  <-> blocks_close b1 b2 rtol atol equal_nan.
Proof.
  unfold blocks_close. split.
  - unfold Allclose.allclose_block_raise. intros H.
    apply outcome_bindM_inv in H as ([] & H1 & H).
    rewrite outcome_validation in H1.
    destruct (shape_eqb _ _); [|discriminate H1].
    apply outcome_bindM_inv in H as (close & H2 & H).
    rewrite outcome_kernel in H2.
    apply outcome_bindM_inv in H as ([] & H3 & H).
    destruct close; [|discriminate H3].
    apply outcome_bindM_inv in H as ([] & H4 & H).
    rewrite outcome_check_blocks_caught in H4.
    destruct (Utils.first_mismatch b1 b2 Allclose.compared_props);
      [discriminate H4|].
    apply outcome_bindM_inv in H as ([] & H5 & H).
    rewrite outcome_validation in H5.
    apply outcome_bindM_inv in H as (us & H6 & _).
    apply outcome_forM_inv in H6.
    repeat split; try assumption.
    apply (Forall2_Forall_l _ _ us).
    eapply Forall2_impl; [|exact H6].
    intros pg u Hu. now apply allclose_gradient_ok_iff in Hu.
  - intros (Hs & Hv & Hm & Hg & Hgs).
    unfold Allclose.allclose_block_raise.
    rewrite Hs. cbn [negb].
    erewrite outcome_bindM_ok; [|reflexivity].
    erewrite outcome_bindM_ok; [|rewrite outcome_kernel; exact Hv].
    cbn [negb].
    erewrite outcome_bindM_ok; [|reflexivity].
    erewrite outcome_bindM_ok;
      [|rewrite outcome_check_blocks_caught, Hm; reflexivity].
    erewrite outcome_bindM_ok; [|rewrite outcome_validation; exact Hg].
    destruct (outcome_forM_unit
                (Allclose.allclose_gradient b2 rtol atol equal_nan)
                (gradients b1)) as [us Hus].
    { eapply Forall_impl; [|exact Hgs].
      intros pg Hpg. now apply allclose_gradient_ok_iff. }
    erewrite outcome_bindM_ok; [reflexivity|exact Hus].
Qed.

Lemma outcome_catch_NotEqualError_raising {A : Type} (m : M A)
  (h : exn -> M A) (a : A) :
  (forall e, exists e', outcome (h e) = Raise e') ->
  outcome (catch_NotEqualError m h) = Ok a <-> outcome m = Ok a.
Proof.
  intros Hh. destruct m as [t [x|e]]; [reflexivity|].
  split; [|discriminate].
  destruct e; try discriminate.
  unfold catch_NotEqualError, outcome.
  destruct (Hh (NotEqualError msg cause)) as [e' He'].
  destruct (h (NotEqualError msg cause)) as [t' r]. cbn in *. congruence.
Qed.

Lemma allclose_item_ok_iff (t2 : TensorMap) (rtol atol : Qc)
  (equal_nan : bool) (item : LabelsEntry * TensorBlock) (u : unit) :
  outcome (Allclose.allclose_item t2 rtol atol equal_nan item) = Ok u
  <-> items_close t2 rtol atol equal_nan item.
Proof.
  unfold Allclose.allclose_item, items_close. cbv zeta.
  rewrite outcome_catch_NotEqualError_raising
    by (intros e; eexists; reflexivity).
  rewrite outcome_bindM, outcome_liftM.
  destruct (block t2 [ByEntry (fst item)] []) as [b2|e] eqn:Eb.
  - destruct u. rewrite allclose_block_raise_ok_iff. split.
    + eauto.
    + intros (b & Hb & Hc). inversion Hb; subst. exact Hc.
  - split; [discriminate|]. intros (b & Hb & _). discriminate Hb.
Qed.

Lemma allclose_raise_ok_iff (t1 t2 : TensorMap) (rtol atol : Qc)
  (equal_nan : bool) :
  outcome (Allclose.allclose_raise t1 t2 rtol atol equal_nan) = Ok tt
  <-> Utils.same_keys t1 t2 = true
      /\ Forall (items_close t2 rtol atol equal_nan) (items t1).
Proof.
  unfold Allclose.allclose_raise, Utils._check_same_keys. split.
  - intros H. destruct (Utils.same_keys t1 t2); [|discriminate H].
    split; [reflexivity|].
    apply outcome_bindM_inv in H as ([] & _ & H).
    apply outcome_bindM_inv in H as (us & H & _).
    apply outcome_forM_inv in H.
    apply (Forall2_Forall_l _ _ us).
    eapply Forall2_impl; [|exact H].
    intros item u Hu. now apply allclose_item_ok_iff in Hu.
  - intros [Hk Hall]. rewrite Hk.
    erewrite outcome_bindM_ok; [|reflexivity].
    destruct (outcome_forM_unit
                (Allclose.allclose_item t2 rtol atol equal_nan) (items t1))
      as [us Hus].
    { eapply Forall_impl; [|exact Hall].
      intros item Hitem. now apply allclose_item_ok_iff. }
    erewrite outcome_bindM_ok; [reflexivity|exact Hus].
Qed.

Lemma blocks_close_monotone (b1 b2 : TensorBlock) (rtol atol rtol' atol' : Qc)
  (equal_nan equal_nan' : bool) :
  (rtol <= rtol')%Qc -> (atol <= atol')%Qc ->
  (equal_nan = true -> equal_nan' = true) ->
  blocks_close b1 b2 rtol atol equal_nan ->
  blocks_close b1 b2 rtol' atol' equal_nan'.
Proof.
  intros Hr Ha Hn (Hs & Hv & Hm & Hg & Hgs). repeat split; try assumption.
  - now apply (array_allclose_monotone _ _ rtol atol _ _ equal_nan).
  - eapply Forall_impl; [|exact Hgs].
    intros pg (g2 & Hg2 & Hc). exists g2. split; [exact Hg2|].
    now apply (array_allclose_monotone _ _ rtol atol _ _ equal_nan).
Qed.

(** X10: Widening the tolerances, or letting NaN equal NaN, never turns a
    positive comparison into a negative one: blocks and maps that are close
    stay close. *)
Theorem allclose_wider_tolerances (rtol atol rtol' atol' : Qc)
  (equal_nan equal_nan' : bool) :
  (rtol <= rtol')%Qc -> (atol <= atol')%Qc ->
  (equal_nan = true -> equal_nan' = true) ->
  (forall b1 b2,
      outcome (Allclose.allclose_block b1 b2 rtol atol equal_nan) = Ok true ->
      outcome (Allclose.allclose_block b1 b2 rtol' atol' equal_nan') = Ok true)
  /\ (forall t1 t2,
        outcome (Allclose.allclose t1 t2 rtol atol equal_nan) = Ok true ->
        outcome (Allclose.allclose t1 t2 rtol' atol' equal_nan') = Ok true).
Proof.
  intros Hr Ha Hn. split.
  - intros b1 b2 H.
    apply (proj1 (bool_view _)) in H.
    apply (proj1 (bool_view _)).
    apply allclose_block_raise_ok_iff in H. apply allclose_block_raise_ok_iff.
    now apply (blocks_close_monotone _ _ rtol atol _ _ equal_nan).
  - intros t1 t2 H.
    apply (proj1 (bool_view _)) in H.
    apply (proj1 (bool_view _)).
    apply allclose_raise_ok_iff in H as [Hk Hall].
    apply allclose_raise_ok_iff. split; [exact Hk|].
    eapply Forall_impl; [|exact Hall].
    intros item (b2 & Hb2 & Hc). exists b2. split; [exact Hb2|].
    now apply (blocks_close_monotone _ _ rtol atol _ _ equal_nan).
Qed.

Lemma allclose_wider_tolerances_witness :
  outcome (Allclose.allclose doc_tensor_1 doc_tensor_3 (Q2Qc (1 # 1000))
             Allclose.atol_default true) = Ok true.
Proof.
  apply (proj2 (allclose_wider_tolerances (Q2Qc (1 # 100000))
                  Allclose.atol_default (Q2Qc (1 # 1000))
                  Allclose.atol_default false true
                  ltac:(discriminate) ltac:(discriminate)
                  ltac:(discriminate))).
  vm_compute. reflexivity.
Defined.

(** ** What a positive comparison says *)





(** ** Maps with the same blocks under the same keys *)

Lemma items_rows (T : TensorMap) (r : list Z) :
  len (keys T) = List.length (block_store T) ->
  In r (rows (keys T))
  <-> exists b, In (mkEntry (names (keys T)) r, b) (items T).
Proof.
  intros Hlen. unfold items. split.
  - intros Hin. apply In_nth_error in Hin as [k Hk].
    assert (Hlt : (k < List.length (block_store T))%nat).
    { rewrite <- Hlen. apply nth_error_Some. unfold len. congruence. }
    destruct (nth_error (block_store T) k) as [b|] eqn:Eb;
      [|apply nth_error_None in Eb; lia].
    exists b. apply (nth_error_In _ k).
    rewrite nth_error_combine, nth_error_map, Hk, Eb. reflexivity.
  - intros [b Hin]. apply in_combine_l in Hin.
    apply in_map_iff in Hin as (r' & E & Hr'). now inversion E; subst.
Qed.

(** X12: The order of the keys does not matter to [allclose]: two well-formed
    maps that hold the same blocks under the same keys, in any order, are
    close as soon as no value is NaN. *)
Theorem allclose_ignores_key_order (T1 T2 : TensorMap) (rtol atol : Qc)
  (equal_nan : bool) :
  (0 <= rtol)%Qc -> (0 <= atol)%Qc ->
  tensormap_wf T1 = true -> tensormap_wf T2 = true ->
  names (keys T1) = names (keys T2) ->
  Permutation (items T1) (items T2) ->
  tensormap_has_nan T1 = false ->
  outcome (Allclose.allclose T1 T2 rtol atol equal_nan) = Ok true.
Proof.
  intros Hr Ha Hwf1 Hwf2 Hnames Hperm Hnan.
  apply (proj1 (bool_view _)). apply allclose_raise_ok_iff.
  destruct (tensormap_wf_inv _ Hwf1) as (_ & Hlen1 & Hblocks1).
  destruct (tensormap_wf_inv _ Hwf2) as (_ & Hlen2 & _).
  split.
  - apply same_keys_iff. split; [exact Hnames|].
    intros r. rewrite (items_rows T1 r Hlen1), (items_rows T2 r Hlen2).
    rewrite <- Hnames.
    split; intros [b Hb]; exists b.
    + eapply Permutation_in; [exact Hperm|exact Hb].
    + eapply Permutation_in; [apply Permutation_sym; exact Hperm|exact Hb].
  - apply Forall_forall. intros [key b] Hin.
    assert (Hin2 : In (key, b) (items T2))
      by (eapply Permutation_in; [exact Hperm|exact Hin]).
    destruct (block_of_item T2 key b Hwf2 Hin2) as [Hb _].
    exists b. split; [exact Hb|]. cbn [snd].
    apply allclose_block_raise_ok_iff.
    assert (Hstore : In b (block_store T1)).
    { unfold items in Hin. now apply in_combine_r in Hin. }
    apply allclose_block_raise_refl; try assumption.
    + now apply Hblocks1.
    + apply (existsb_false _ _ Hnan b Hstore).
Qed.

Lemma allclose_ignores_key_order_witness :
  outcome (Allclose.allclose tensor reordered_tensor Allclose.rtol_default
             Allclose.atol_default false) = Ok true.
Proof.
  apply allclose_ignores_key_order;
    try discriminate; try (vm_compute; reflexivity).
  change (items reordered_tensor) with (rev (items tensor)).
  apply Permutation_rev.
Defined.

(** ** Arrays of one shape *)

Lemma ew_row_rect {C : Type} (inplace : bool) (f : fval -> fval -> C)
  (Cn P : nat) (a b : row) :
  row_shape Cn P a -> row_shape Cn P b ->
  ew_row inplace f a b = Ok (map2 (map2 f) a b).
Proof.
  intros [Ha Ha'] [Hb Hb']. unfold ew_row.
  rewrite broadcast_same_length by congruence.
  apply zip_with_pure; [congruence|].
  intros x y Hx Hy. rewrite Forall_forall in Ha', Hb'.
  rewrite broadcast_same_length by (rewrite (Ha' x Hx), (Hb' y Hy); reflexivity).
  apply zip_with_pure; [rewrite (Ha' x Hx), (Hb' y Hy); reflexivity|].
  reflexivity.
Qed.

Lemma ew_array_rect {C : Type} (inplace : bool) (f : fval -> fval -> C)
  (Cn P : nat) (a b : array) :
  List.length a = List.length b ->
  Forall (row_shape Cn P) a -> Forall (row_shape Cn P) b ->
  ew_array inplace f a b = Ok (map2 (map2 (map2 f)) a b).
Proof.
  intros Hl Ha Hb. unfold ew_array.
  rewrite broadcast_same_length by exact Hl.
  apply zip_with_pure; [exact Hl|].
  intros x y Hx Hy. rewrite Forall_forall in Ha, Hb.
  apply (ew_row_rect _ _ Cn P); auto.
Qed.





(** ** The comparisons never fail on well-formed input *)






Lemma block_of_same_keys (t1 t2 : TensorMap) (key : LabelsEntry)
  (b : TensorBlock) :
  tensormap_wf t2 = true -> Utils.same_keys t1 t2 = true ->
  In (key, b) (items t1) ->
  exists b2, block t2 [ByEntry key] [] = Ok b2 /\ block_wf b2 = true.
Proof.
  intros Hwf Hk Hin.
  apply same_keys_iff in Hk as [Hnames Hrows].
  apply In_nth_error in Hin as [k Hin].
  apply items_nth in Hin as (r & -> & Hr & _).
  apply nth_error_In, Hrows, In_nth_error in Hr as [k2 Hk2].
  destruct (tensormap_wf_inv _ Hwf) as (_ & Hlen & Hblocks).
  destruct (nth_error (block_store t2) k2) as [b2|] eqn:Eb.
  - exists b2. rewrite Hnames. split.
    + now apply (block_of_key t2 k2).
    + apply Hblocks. eapply nth_error_In. exact Eb.
  - apply nth_error_None in Eb.
    assert (k2 < len (keys t2))%nat
      by (apply nth_error_Some; unfold len; congruence).
    lia.
Qed.





(** ** A map compared with itself, NaN included *)

Lemma isclose_refl_equal_nan (rtol atol : Qc) (x : fval) :
  (0 <= rtol)%Qc -> (0 <= atol)%Qc -> isclose rtol atol true x x = true.
Proof.
  intros Hr Ha. destruct x as [|s|a]; [reflexivity| |];
    now apply isclose_refl.
Qed.

Lemma array_allclose_refl_equal_nan (rtol atol : Qc) (v : array) :
  (0 <= rtol)%Qc -> (0 <= atol)%Qc ->
  array_allclose v v rtol atol true = Ok true.
Proof.
  intros Hr Ha. unfold array_allclose, ew_array, ew_row.
  rewrite (broadcast_diag _ _
             (map (map (fun x => isclose rtol atol true x x)))).
  - simpl. f_equal. apply forallb_forall. intros r' Hr'.
    apply in_map_iff in Hr' as (r & <- & Hin).
    apply forallb_forall. intros c' Hc'.
    apply in_map_iff in Hc' as (c & <- & Hc).
    apply forallb_forall. intros x' Hx'.
    apply in_map_iff in Hx' as (x & <- & Hx).
    now apply isclose_refl_equal_nan.
  - intros r _. apply broadcast_diag. intros c _.
    apply broadcast_diag. reflexivity.
Qed.

(** X14: With [equal_nan=True] every well-formed map is close to itself, NaN or
    not, under any tolerances that are not negative. *)
Theorem allclose_reflexive_with_equal_nan (T : TensorMap) (rtol atol : Qc) :
  (0 <= rtol)%Qc -> (0 <= atol)%Qc ->
  tensormap_wf T = true ->
  outcome (Allclose.allclose T T rtol atol true) = Ok true.
Proof.
  intros Hr Ha Hwf.
  apply (proj1 (bool_view _)). apply allclose_raise_ok_iff. split.
  - apply same_keys_iff. split; [reflexivity|tauto].
  - apply Forall_forall. intros [key b] Hin.
    destruct (block_of_item T key b Hwf Hin) as [Hb Hbwf].
    exists b. split; [exact Hb|]. cbn [snd].
    apply block_wf_inv in Hbwf as (_ & Hnd & _).
    repeat split.
    + apply shape_eqb_refl.
    + now apply array_allclose_refl_equal_nan.
    + apply first_mismatch_refl.
    + unfold Utils._check_same_gradients.
      rewrite same_parameters_refl. cbn [negb].
      now rewrite (gradients_mismatch_refl b _ (gradients b) Hnd (fun _ h => h)).
    + apply Forall_forall. intros [p g] Hg. exists g. cbn [fst snd]. split.
      * unfold gradient. now rewrite (assoc_nodup _ p g Hnd Hg).
      * now apply array_allclose_refl_equal_nan.
Qed.

Lemma allclose_reflexive_with_equal_nan_witness :
  outcome (Allclose.allclose nan_tensor nan_tensor Allclose.rtol_default
             Allclose.atol_default true) = Ok true.
Proof.
  apply allclose_reflexive_with_equal_nan; try discriminate. reflexivity.
Defined.

(** ** Division by a constant *)

Lemma shape_ok_intro (v : array) (s : Labels) (cs : list Labels) (p : Labels) :
  List.length v = len s ->
  Forall (row_shape (n_components cs) (len p)) v ->
  shape_ok v s cs p = true.
Proof.
  intros Hl Hv. unfold shape_ok.
  rewrite Hl, Nat.eqb_refl. simpl. apply forallb_forall. intros r Hr.
  rewrite Forall_forall in Hv. destruct (Hv r Hr) as [Hc Hp].
  rewrite Hc, Nat.eqb_refl. simpl. apply forallb_forall. intros c Hin.
  rewrite Forall_forall in Hp. rewrite (Hp c Hin). apply Nat.eqb_refl.
Qed.

Lemma shape_ok_map_array (f : fval -> fval) (v : array) (s : Labels)
  (cs : list Labels) (p : Labels) :
  shape_ok v s cs p = true -> shape_ok (map_array f v) s cs p = true.
Proof.
  intros H. apply shape_ok_inv in H as [Hl Hv]. apply shape_ok_intro.
  - unfold map_array. now rewrite length_map.
  - unfold map_array. apply Forall_map. eapply Forall_impl; [|exact Hv].
    intros r. apply map_row_shape.
Qed.

Lemma has_gradients_false (g : TensorBlock) :
  Divide.has_gradients g = false <-> gradient_store g = [].
Proof.
  unfold Divide.has_gradients, gradients_list.
  rewrite negb_false_iff, Nat.eqb_eq, length_map.
  destruct (gradient_store g); simpl; split; congruence.
Qed.

Lemma divide_block_constant_loop (b : TensorBlock) (c : fval) :
  Divide._divide_block_constant b c
  = (values' <~ kernel "divide"
       (Ok (map_array (fun x => fdiv x c) (values b))) ;;
     result_block <~ liftM
       (new_TensorBlock values' (samples b) (components b) (properties b)) ;;
     foldM (divide_constant_gradient c) (gradients b) result_block).
Proof. reflexivity. Qed.

Lemma outcome_foldM_app {A St : Type} (f : St -> A -> M St) (l l' : list A)
  (s : St) :
  outcome (foldM f (l ++ l') s)
  = match outcome (foldM f l s) with
    | Ok s' => outcome (foldM f l' s')
    | Raise e => Raise e
    end.
Proof.
  revert s. induction l as [|x l IH]; intros s; [reflexivity|].
  simpl. rewrite !outcome_bindM. destruct (outcome (f s x)); [apply IH|reflexivity].
Qed.

Lemma add_gradient_ok (s g : TensorBlock) (p : string) :
  ~ In p (gradients_list s) ->
  components g = components s -> properties g = properties s ->
  add_gradient s p g
  = Ok (mkBlock (values s) (samples s) (components s) (properties s)
          (gradient_store s ++ [(p, g)])).
Proof.
  intros Hp Hc Hpr. unfold add_gradient.
  destruct (mem String.eqb p (gradients_list s)) eqn:E.
  - apply (mem_In String.eqb String.eqb_eq) in E. contradiction.
  - rewrite Hc, Hpr, components_eqb_refl, labels_eqb_refl. reflexivity.
Qed.

Lemma addable_step (s : TensorBlock) (p : string) (g g' : TensorBlock)
  (gs : list (string * TensorBlock)) :
  addable s ((p, g) :: gs) ->
  addable (mkBlock (values s) (samples s) (components s) (properties s)
             (gradient_store s ++ [(p, g')])) gs.
Proof.
  intros [Hnd Hall]. split.
  - unfold gradients_list in *. cbn [gradient_store map fst] in *.
    rewrite map_app. cbn [map fst]. rewrite <- app_assoc. exact Hnd.
  - inversion Hall; subst. assumption.
Qed.

Lemma addable_head (s : TensorBlock) (p : string) (g : TensorBlock)
  (gs : list (string * TensorBlock)) :
  addable s ((p, g) :: gs) ->
  ~ In p (gradients_list s)
  /\ shape_ok (values g) (samples g) (components g) (properties g) = true
  /\ components g = components s /\ properties g = properties s.
Proof.
  intros [Hnd Hall]. split.
  - cbn [map fst] in Hnd. apply NoDup_remove_2 in Hnd.
    intros Hin. apply Hnd. apply in_or_app. now left.
  - inversion Hall as [|? ? Hg _]; subst. exact Hg.
Qed.

Lemma divide_constant_gradients_value (c : fval)
  (gs : list (string * TensorBlock)) :
  forall s,
    addable s gs ->
    forallb (fun pg => negb (Divide.has_gradients (snd pg))) gs = true ->
    outcome (foldM (divide_constant_gradient c) gs s)
    = Ok (mkBlock (values s) (samples s) (components s) (properties s)
            (gradient_store s
             ++ map (fun pg => (fst pg, scaled_values c (snd pg))) gs)).
Proof.
  induction gs as [|[p g] gs IH]; intros s Hadd Hnn.
  - simpl. rewrite app_nil_r. now destruct s.
  - simpl in Hnn. apply andb_true_iff in Hnn as [Hg Hnn].
    apply negb_true_iff in Hg.
    destruct (addable_head _ _ _ _ Hadd) as (Hp & Hs & Hc & Hpr).
    cbn [foldM]. rewrite outcome_bindM.
    unfold divide_constant_gradient at 1. cbn [fst snd]. rewrite Hg.
    rewrite outcome_bindM, outcome_kernel.
    rewrite outcome_bindM, outcome_liftM.
    unfold new_TensorBlock. rewrite (shape_ok_map_array _ _ _ _ _ Hs).
    rewrite outcome_liftM.
    change (mkBlock (map_array (fun x => fdiv x c) (values g)) (samples g)
              (components g) (properties g) []) with (scaled_values c g).
    rewrite (add_gradient_ok s (scaled_values c g) p Hp Hc Hpr).
    rewrite (IH _ (addable_step _ _ _ (scaled_values c g) _ Hadd) Hnn).
    cbn [values samples components properties gradient_store map fst snd].
    now rewrite <- app_assoc.
Qed.

Lemma divide_constant_gradient_nested (c : fval) (s : TensorBlock)
  (pg : string * TensorBlock) (gs : list (string * TensorBlock)) :
  Divide.has_gradients (snd pg) = true ->
  outcome (foldM (divide_constant_gradient c) (pg :: gs) s)
  = Raise (NotImplementedError Divide.NESTED).
Proof.
  intros H. cbn [foldM]. rewrite outcome_bindM.
  unfold divide_constant_gradient at 1. rewrite H. reflexivity.
Qed.

Lemma forallb_first_false {A : Type} (p : A -> bool) (l : list A) :
  forallb p l = false ->
  exists pre x post,
    l = pre ++ x :: post /\ forallb p pre = true /\ p x = false.
Proof.
  induction l as [|a l IH]; simpl; [discriminate|].
  destruct (p a) eqn:Ea; simpl.
  - intros H. destruct (IH H) as (pre & x & post & -> & Hpre & Hx).
    exists (a :: pre), x, post. simpl. rewrite Ea. auto.
  - intros _. exists [], a, l. auto.
Qed.

Lemma addable_gradients (b : TensorBlock) (v : array) :
  block_wf b = true ->
  addable (mkBlock v (samples b) (components b) (properties b) [])
    (gradient_store b).
Proof.
  intros Hwf. apply block_wf_inv in Hwf as (_ & Hnd & Hg). split.
  - cbn. apply (nodupb_NoDup String.eqb String.eqb_eq). exact Hnd.
  - apply Forall_forall. intros pg Hin. specialize (Hg pg Hin).
    apply gradient_wf_inv in Hg as (Hs & Hc & Hp & _). cbn. auto.
Qed.

Lemma addable_prefix (s : TensorBlock) (pre post : list (string * TensorBlock)) :
  addable s (pre ++ post) -> addable s pre.
Proof.
  intros [Hnd Hall]. split.
  - rewrite map_app, app_assoc in Hnd. now apply NoDup_app_remove_r in Hnd.
  - now apply Forall_app in Hall as [H _].
Qed.

(** X15: [_divide_block_constant] on a well-formed block: every value and every
    gradient value is divided by the constant, row for row, under the labels
    of the block, copied; a gradient that has gradients of its own makes it
    raise [NotImplementedError]. *)
Theorem divide_block_constant_value (b : TensorBlock) (c : fval) :
  block_wf b = true ->
  outcome (Divide._divide_block_constant b c)
  = if no_nested_gradients b then Ok (scaled_block c b)
    else Raise (NotImplementedError Divide.NESTED).
Proof.
  intros Hwf. rewrite divide_block_constant_loop.
  rewrite outcome_bindM, outcome_kernel.
  rewrite outcome_bindM, outcome_liftM.
  unfold new_TensorBlock.
  destruct (block_wf_inv _ Hwf) as (Hs & _ & _).
  rewrite (shape_ok_map_array _ _ _ _ _ Hs).
  assert (Hadd := addable_gradients b (map_array (fun x => fdiv x c) (values b))
                    Hwf).
  unfold gradients.
  destruct (no_nested_gradients b) eqn:Hnn.
  - rewrite (divide_constant_gradients_value c _ _ Hadd Hnn). reflexivity.
  - apply forallb_first_false in Hnn as (pre & pg & post & E & Hpre & Hpg).
    rewrite E in *. apply negb_false_iff in Hpg.
    rewrite outcome_foldM_app.
    rewrite (divide_constant_gradients_value c _ _
               (addable_prefix _ _ _ Hadd) Hpre).
    now apply divide_constant_gradient_nested.
Qed.

Lemma divide_block_constant_value_witness :
  outcome (Divide._divide_block_constant (unsorted_block 2 4 10 20) (num 2))
  = Ok (scaled_block (num 2) (unsorted_block 2 4 10 20)).
Proof.
  apply (divide_block_constant_value (unsorted_block 2 4 10 20) (num 2)).
  vm_compute. reflexivity.
Defined.

Lemma where_from_all {A : Type} (l : list A) (off : nat) :
  where_from (map (fun _ => true) l) off = seq off (List.length l).
Proof.
  revert off. induction l as [|x l IH]; intros off; [reflexivity|].
  simpl. now rewrite IH.
Qed.

Lemma mapR_nth_error_seq {A : Type} (e : exn) (pre l : list A) :
  mapR (fun i => match nth_error (pre ++ l) i with
                 | Some b => Ok b
                 | None => Raise e
                 end) (seq (List.length pre) (List.length l))
  = Ok l.
Proof.
  revert pre. induction l as [|x l IH]; intros pre; [reflexivity|].
  simpl. rewrite nth_error_app2 by lia. rewrite Nat.sub_diag. simpl.
  replace (pre ++ x :: l) with ((pre ++ [x]) ++ l) by now rewrite <- app_assoc.
  replace (S (List.length pre)) with (List.length (pre ++ [x]))
    by (rewrite length_app; simpl; lia).
  now rewrite IH.
Qed.

(** Without a selection, [blocks] returns all the blocks, in order. *)
Lemma blocks_all (T : TensorMap) :
  len (keys T) = List.length (block_store T) ->
  blocks T [] [] = Ok (block_store T).
Proof.
  intros Hlen. unfold blocks, blocks_matching. cbn [bindR fst].
  unfold where_, row_matches. cbn [forallb].
  rewrite where_from_all. fold (len (keys T)). rewrite Hlen.
  apply (mapR_nth_error_seq _ [] (block_store T)).
Qed.


Lemma labels_wf_nodupb (l : Labels) :
  labels_wf l = true -> nodupb row_eqb (rows l) = true.
Proof.
  unfold labels_wf. rewrite !andb_true_iff. tauto.
Qed.

Lemma divide_scalar_blocks (A : TensorMap) (c : fval) :
  tensormap_wf A = true ->
  forallb no_nested_gradients (block_store A) = true ->
  outcome (forM (fun block_A => Divide._divide_block_constant block_A c)
             (block_store A))
  = Ok (map (scaled_block c) (block_store A)).
Proof.
  intros Hwf Hnn. apply outcome_forM_ok. apply Forall_forall. intros b Hin.
  destruct (tensormap_wf_inv _ Hwf) as (_ & _ & Hb).
  rewrite (divide_block_constant_value b c (Hb b Hin)).
  rewrite forallb_forall in Hnn. now rewrite (Hnn b Hin).
Qed.

Lemma new_TensorMap_ok (k : Labels) (bs : list TensorBlock) :
  labels_wf k = true -> len k = List.length bs -> same_names bs = true ->
  new_TensorMap k bs = Ok (mkTensorMap k bs).
Proof.
  intros Hk Hl Hn. unfold new_TensorMap.
  rewrite (labels_wf_nodupb _ Hk), Hl, Nat.eqb_refl, Hn. reflexivity.
Qed.



(** ** Division by one *)

Lemma fdiv_one (x : fval) : fdiv x fone = x.
Proof.
  destruct x as [|s|a]; cbn; [reflexivity| |].
  - now destruct s.
  - f_equal. unfold Qcdiv. change (/ Q2Qc 1)%Qc with (Q2Qc 1). ring.
Qed.

Lemma map_array_id (f : fval -> fval) (v : array) :
  (forall x, f x = x) -> map_array f v = v.
Proof.
  intros H. unfold map_array, map_row.
  rewrite <- (map_id v) at 2. apply map_ext. intros r.
  rewrite <- (map_id r) at 2. apply map_ext. intros c.
  rewrite <- (map_id c) at 2. apply map_ext. exact H.
Qed.

Lemma scaled_block_one (b : TensorBlock) :
  no_nested_gradients b = true -> scaled_block fone b = b.
Proof.
  intros Hnn. unfold scaled_block, scaled_values.
  rewrite (map_array_id _ _ fdiv_one).
  destruct b as [v s cs p gs]. cbn in *. f_equal.
  unfold no_nested_gradients in Hnn. cbn in Hnn.
  rewrite <- (map_id gs) at 2. apply map_ext_in. intros [q g] Hin.
  rewrite forallb_forall in Hnn. specialize (Hnn _ Hin). cbn in *.
  apply negb_true_iff, has_gradients_false in Hnn.
  rewrite (map_array_id _ _ fdiv_one).
  destruct g as [gv gsam gcs gp ggs]. cbn in *. now subst.
Qed.

(** X17: Dividing by one changes nothing: under the same conditions,
    [divide(A, 1)] is [A]. *)
Theorem divide_by_one_is_identity (A : TensorMap) :
  tensormap_wf A = true ->
  same_names (block_store A) = true ->
  forallb no_nested_gradients (block_store A) = true ->
  outcome (Divide.divide A (Divide.Scalar fone)) = Ok A.
Proof.
  intros Hwf Hsn Hnn.
  destruct (tensormap_wf_inv _ Hwf) as (Hk & Hlen & _).
  unfold Divide.divide.
  rewrite outcome_bindM, outcome_bindM, outcome_liftM.
  rewrite (blocks_all A Hlen).
  rewrite (divide_scalar_blocks A fone Hwf Hnn).
  rewrite outcome_liftM.
  assert (E : map (scaled_block fone) (block_store A) = block_store A).
  { rewrite <- (map_id (block_store A)) at 2. apply map_ext_in.
    intros b Hin. apply scaled_block_one.
    rewrite forallb_forall in Hnn. now apply Hnn. }
  rewrite E. rewrite (new_TensorMap_ok _ _ Hk Hlen Hsn). now destruct A.
Qed.

Lemma divide_by_one_is_identity_witness :
  outcome (Divide.divide tensor (Divide.Scalar fone)) = Ok tensor.
Proof.
  apply divide_by_one_is_identity; vm_compute; reflexivity.
Defined.

(** ** Division by a map: errors that come first *)

(** X18: [divide] refuses a second argument that is neither a number nor a map
    before it does anything; and when the two maps do not have the same
    keys, it stops at the comparison of the keys: no block is looked at and
    no array divided. *)
Theorem divide_fails_fast :
  (forall A,
      Divide.divide A Divide.Object
      = ([], Raise (TypeError "B should be a TensorMap or a scalar value")))
  /\ (forall A B,
        Utils.same_keys A B = false ->
        exists msg cause,
          Divide.divide A (Divide.Map B)
          = ([Validation "_check_same_keys_raise"],
             Raise (NotEqualError msg cause))).
Proof.
  split; [reflexivity|].
  intros A B H. unfold Divide.divide, Utils._check_same_keys_raise,
    Utils._check_same_keys.
  rewrite H. eexists. eexists. reflexivity.
Qed.

Lemma divide_fails_fast_witness :
  exists msg cause,
    Divide.divide doc_tensor_1 (Divide.Map doc_tensor_2)
    = ([Validation "_check_same_keys_raise"], Raise (NotEqualError msg cause)).
Proof.
  apply (proj2 divide_fails_fast). reflexivity.
Defined.

(** ** Division by a map: the values *)

Lemma divide_values_rect (v1 v2 : array) (s : Labels) (cs : list Labels)
  (p : Labels) :
  shape_ok v1 s cs p = true -> shape_ok v2 s cs p = true ->
  ew_array false fdiv v1 v2 = Ok (map2 (row_op fdiv) v1 v2).
Proof.
  intros H1 H2.
  apply shape_ok_inv in H1 as [Hl1 Hv1]. apply shape_ok_inv in H2 as [Hl2 Hv2].
  apply (ew_array_rect _ _ (n_components cs) (len p)); congruence.
Qed.

Lemma divided_gradient_names (b1 b2 : TensorBlock)
  (gs gsR : list (string * TensorBlock)) :
  Forall2 (divided_gradient b1 b2) gs gsR -> map fst gsR = map fst gs.
Proof.
  induction 1 as [|pg pgR gs gsR [Hfst _] _ IH]; [reflexivity|].
  simpl. now rewrite Hfst, IH.
Qed.

(** X19: In [divide(A, B)] on well-formed maps, the result has the keys of [A];
    each of its blocks has the samples, components and properties of the
    block of [A] at the same position and gradients for the same
    parameters, and its values are those of the block of [A] divided, entry
    by entry, by those of the block of [B] under the same key. *)
Theorem divide_by_map_values (A B R : TensorMap) :
  tensormap_wf A = true ->
  tensormap_wf B = true ->
  outcome (Divide.divide A (Divide.Map B)) = Ok R ->
  keys R = keys A
  /\ forall k key bA,
       nth_error (items A) k = Some (key, bA) ->
       exists bB bR,
         block B [ByEntry key] [] = Ok bB
         /\ nth_error (block_store R) k = Some bR
         /\ samples bR = samples bA
         /\ components bR = components bA
         /\ properties bR = properties bA
         /\ gradients_list bR = gradients_list bA
         /\ values bR = map2 (row_op fdiv) (values bA) (values bB).
Proof.
  intros HwfA HwfB Hout.
  apply divide_inv in Hout as [Hkeys Hall]. split; [exact Hkeys|].
  intros k key bA Hk.
  destruct (Forall2_nth_error _ _ _ k _ Hall Hk) as (bR & HbR & Hitem).
  apply divide_item_inv in Hitem as (bB & HbB & Hchk & _ & Hblock).
  exists bB, bR. split; [exact HbB|]. split; [exact HbR|].
  apply divide_block_block_inv in Hblock as (Hs & Hc & Hp & Hv & Hg).
  repeat split; try assumption.
  - unfold gradients_list. now apply (divided_gradient_names bA bB).
  - assert (HbAwf : block_wf bA = true).
    { apply items_nth in Hk as (r & _ & _ & Hb).
      apply tensormap_wf_inv in HwfA as (_ & _ & H). apply H.
      eapply nth_error_In. exact Hb. }
    assert (HbBwf : block_wf bB = true).
    { apply tensormap_wf_inv in HwfB as (_ & _ & H). apply H.
      eapply block_In. exact HbB. }
    apply block_wf_inv in HbAwf as (HsA & _).
    apply block_wf_inv in HbBwf as (HsB & _).
    apply check_blocks_raise_inv, first_mismatch_all_inv in Hchk
      as (Hss & Hcc & Hpp).
    rewrite <- Hss, <- Hcc, <- Hpp in HsB.
    rewrite (divide_values_rect _ _ _ _ _ HsA HsB) in Hv. now inversion Hv.
Qed.

Lemma divide_by_map_values_witness :
  exists R, keys R = keys sorted_A.
Proof.
  destruct (outcome (Divide.divide sorted_A (Divide.Map sorted_B)))
    as [R|e] eqn:E; [|vm_compute in E; discriminate E].
  exists R.
  exact (proj1 (divide_by_map_values sorted_A sorted_B R eq_refl eq_refl E)).
Defined.

(** ** Division by a map: a block without samples *)

(** X20: A block without samples that carries a gradient cannot be divided by a
    block: the list of the pieces of the new gradient is empty, and
    [concatenate] fails on its first element with an [IndexError]. *)
Theorem divide_empty_block_with_gradient (b1 b2 g1 g2 : TensorBlock)
  (parameter : string) (others : list (string * TensorBlock)) :
  values b1 = [] -> values b2 = [] -> len (samples b1) = 0%nat ->
  gradient_store b1 = (parameter, g1) :: others ->
  gradient b2 parameter = Ok g2 ->
  Divide.has_gradients g1 = false ->
  Divide.has_gradients g2 = false ->
  outcome (Divide._divide_block_block b1 b2)
  = Raise (IndexError "list index out of range").
Proof.
  intros Hv1 Hv2 Hlen Hstore Hg2 Hn1 Hn2.
  unfold Divide._divide_block_block.
  rewrite outcome_bindM, outcome_kernel, Hv1, Hv2. cbn [ew_array broadcast zip_with].
  rewrite outcome_bindM, outcome_liftM.
  unfold new_TensorBlock, shape_ok. cbn [List.length forallb].
  rewrite Hlen. cbn [Nat.eqb andb].
  unfold gradients. rewrite Hstore. cbn [foldM]. rewrite outcome_bindM.
  unfold Divide.divide_gradient at 1. cbv zeta. cbn [fst snd].
  rewrite outcome_bindM, outcome_liftM, Hg2, Hn1, Hn2.
  rewrite outcome_bindM, outcome_kernel.
  unfold Divide.gradient_values. rewrite Hlen. reflexivity.
Qed.

Lemma divide_empty_block_with_gradient_witness :
  block_wf empty_block = true
  /\ outcome (Divide._divide_block_block empty_block empty_block)
     = Raise (IndexError "list index out of range").
Proof.
  split; [reflexivity|].
  apply (divide_empty_block_with_gradient empty_block empty_block
           (mkBlock [] (labels1 "sample" []) [] (labels1 "p" [0%Z]) [])
           (mkBlock [] (labels1 "sample" []) [] (labels1 "p" [0%Z]) [])
           "g" []); reflexivity.
Defined.

(** ** Division by a map: the rows of the gradients, in any order *)

Lemma selected_from_cons (x : Z) (col : list Z) (off i : nat) :
  selected_from (x :: col) off i
  = if Z.eqb x (Z.of_nat i) then off :: selected_from col (S off) i
    else selected_from col (S off) i.
Proof. reflexivity. Qed.

Lemma concat_insert_perm (G : nat -> list nat) (t : nat -> bool)
  (off k : nat) (l : list nat) :
  NoDup l -> In k l ->
  (forall i, t i = true <-> i = k) ->
  Permutation
    (List.concat (map (fun i => if t i then off :: G i else G i) l))
    (off :: List.concat (map G l)).
Proof.
  intros Hnd Hin Ht. induction Hnd as [|a l Ha Hnd IH]; [contradiction|].
  simpl. destruct (t a) eqn:Ea.
  - apply Ht in Ea. subst a. simpl. apply perm_skip.
    apply Permutation_app_head.
    assert (E : map (fun i => if t i then off :: G i else G i) l = map G l).
    { apply map_ext_in. intros i Hi. destruct (t i) eqn:Ei; [|reflexivity].
      apply Ht in Ei. subst i. contradiction. }
    rewrite E. apply Permutation_refl.
  - destruct Hin as [->|Hin].
    + rewrite (proj2 (Ht k) eq_refl) in Ea. discriminate.
    + eapply Permutation_trans.
      * apply Permutation_app_head. apply IH. exact Hin.
      * apply Permutation_sym. apply Permutation_middle.
Qed.

(** Visiting the samples in turn and collecting the gradient rows of each
    visits every gradient row once. *)
Lemma concat_selected_perm (n : nat) (col : list Z) :
  Forall (fun s => (0 <= s < Z.of_nat n)%Z) col ->
  forall off,
    Permutation (List.concat (map (selected_from col off) (seq 0 n)))
      (seq off (List.length col)).
Proof.
  induction 1 as [|x col Hx _ IH]; intros off.
  - simpl. replace (List.concat (map (selected_from [] off) (seq 0 n)))
      with (@nil nat); [constructor|].
    induction (seq 0 n) as [|i l IHl]; [reflexivity|exact IHl].
  - eapply Permutation_trans.
    + apply (concat_insert_perm (selected_from col (S off))
               (fun i => Z.eqb x (Z.of_nat i)) off (Z.to_nat x)).
      * apply seq_NoDup.
      * apply in_seq. lia.
      * intros i. rewrite Z.eqb_eq. lia.
    + simpl. apply perm_skip. apply IH.
Qed.

Lemma gradient_rows_rearranged_of_values (bA bB g1 g2 : TensorBlock)
  (p : string) (vg : array) :
  block_wf bA = true -> block_wf bB = true ->
  Utils.first_mismatch bA bB Utils.all_props = None ->
  In (p, g1) (gradient_store bA) ->
  gradient bB p = Ok g2 ->
  Utils.first_mismatch g1 g2 Utils.all_props = None ->
  Divide.gradient_values bA bB g1 g2 = Ok vg ->
  exists order,
    Permutation order (seq 0 (len (samples g1)))
    /\ vg = map (fun j =>
                   rule_row bA bB g1 g2
                     (Z.to_nat (nth j (sample_column g1) 0%Z)) j) order.
Proof.
  intros HwfA HwfB Hsame Hin Hg2 Hgsame Hvg.
  destruct (divided_gradient_values bA bB g1 g2 p vg HwfA HwfB Hsame Hin Hg2
              Hgsame Hvg) as [Hval _].
  apply block_wf_inv in HwfA as (_ & _ & HgA).
  specialize (HgA _ Hin). cbn [snd] in HgA.
  apply gradient_wf_inv in HgA as (_ & _ & _ & _ & Hrange).
  exists (List.concat (map (selected_from (sample_column g1) 0)
                         (seq 0 (len (samples bA))))).
  split.
  - replace (len (samples g1)) with (List.length (sample_column g1))
      by (unfold sample_column, len; now rewrite length_map).
    now apply concat_selected_perm.
  - rewrite Hval. apply concat_map_in.
    intros i j _ Hj. apply selected_from_spec in Hj.
    rewrite (nth_error_nth _ _ 0%Z Hj). now rewrite Nat2Z.id.
Qed.

(** X21: Whatever the order of the gradient samples, [divide(A, B)] on
    well-formed maps computes the quotient rule once for every gradient row
    of [A], against the sample that row refers to: the rows of each gradient
    of the result are these, in some order. *)
Theorem divide_rearranges_gradient_rows (A B R : TensorMap) :
  tensormap_wf A = true ->
  tensormap_wf B = true ->
  outcome (Divide.divide A (Divide.Map B)) = Ok R ->
  forall k key bA,
    nth_error (items A) k = Some (key, bA) ->
    exists bB bR,
      block B [ByEntry key] [] = Ok bB
      /\ nth_error (block_store R) k = Some bR
      /\ Forall2 (gradient_rows_rearranged bA bB) (gradient_store bA)
           (gradient_store bR).
Proof.
  intros HwfA HwfB Hout k key bA Hk.
  apply divide_inv in Hout as [_ Hall].
  destruct (Forall2_nth_error _ _ _ k _ Hall Hk) as (bR & HbR & Hitem).
  apply divide_item_inv in Hitem as (bB & HbB & Hchk & Hgchk & Hblock).
  exists bB, bR. split; [exact HbB|]. split; [exact HbR|].
  apply divide_block_block_inv in Hblock as (_ & _ & _ & _ & Hgr).
  assert (HbAwf : block_wf bA = true).
  { apply items_nth in Hk as (r & _ & _ & Hb).
    apply tensormap_wf_inv in HwfA as (_ & _ & H). apply H.
    eapply nth_error_In. exact Hb. }
  assert (HbBwf : block_wf bB = true).
  { apply tensormap_wf_inv in HwfB as (_ & _ & H). apply H.
    eapply block_In. exact HbB. }
  apply check_blocks_raise_inv in Hchk.
  apply check_same_gradients_raise_inv in Hgchk.
  eapply Forall2_impl_In; [exact Hgr|].
  intros [p g1] [pR gR] Hin (Hfst & g2 & vg & Hg2 & Hvg & Hsnd).
  cbn [fst snd] in *. subst pR gR.
  unfold gradient_rows_rearranged. cbn [fst snd values].
  split; [reflexivity|]. exists g2.
  destruct (gradients_mismatch_inv _ _ _ Hgchk p g1 Hin) as (g' & Hg' & Hm).
  assert (g' = g2).
  { unfold gradient in Hg2. rewrite Hg' in Hg2. now inversion Hg2. }
  subst g'.
  destruct (gradient_rows_rearranged_of_values bA bB g1 g2 p vg HbAwf HbBwf
              Hchk Hin Hg2 Hm Hvg) as (order & Hperm & Hval).
  exists order. auto.
Qed.

Lemma divide_rearranges_gradient_rows_witness :
  exists R bB bR,
    outcome (Divide.divide unsorted_A (Divide.Map unsorted_B)) = Ok R
    /\ block unsorted_B [ByEntry (mkEntry ["key"] [0%Z])] [] = Ok bB
    /\ nth_error (block_store R) 0 = Some bR
    /\ Forall2 (gradient_rows_rearranged (unsorted_block 2 4 10 20) bB)
         (gradient_store (unsorted_block 2 4 10 20)) (gradient_store bR).
Proof.
  destruct (outcome (Divide.divide unsorted_A (Divide.Map unsorted_B)))
    as [R|e] eqn:E; [|vm_compute in E; discriminate E].
  destruct (divide_rearranges_gradient_rows unsorted_A unsorted_B R
              eq_refl eq_refl E 0%nat (mkEntry ["key"] [0%Z])
              (unsorted_block 2 4 10 20) eq_refl) as (bB & bR & H).
  exists R, bB, bR. split; [reflexivity|exact H].
Defined.

(** ** Division by a map: when it goes through *)

Lemma quotient_rule_row_shape (C P : nat) (a b da db : row) :
  row_shape C P a -> row_shape C P b -> row_shape C P da ->
  row_shape C P db -> row_shape C P (quotient_rule_row a b da db).
Proof.
  intros Ha Hb Hda Hdb. unfold quotient_rule_row.
  repeat (first [apply row_op_shape|apply map_row_shape]); assumption.
Qed.

Lemma Forall_map2 {A : Type} (P : A -> Prop) (f : A -> A -> A)
  (l l' : list A) :
  (forall a b, P a -> P b -> P (f a b)) ->
  Forall P l -> Forall P l' -> Forall P (map2 f l l').
Proof.
  intros Hf Hl. revert l'. induction Hl as [|a l Ha _ IH]; intros l' Hl';
    [constructor|].
  destruct Hl' as [|b l' Hb Hl']; [constructor|].
  simpl. constructor; auto.
Qed.

Lemma shape_ok_map2 (f : fval -> fval -> fval) (v1 v2 : array) (s : Labels)
  (cs : list Labels) (p : Labels) :
  shape_ok v1 s cs p = true -> shape_ok v2 s cs p = true ->
  shape_ok (map2 (row_op f) v1 v2) s cs p = true.
Proof.
  intros H1 H2.
  apply shape_ok_inv in H1 as [Hl1 Hv1]. apply shape_ok_inv in H2 as [Hl2 Hv2].
  apply shape_ok_intro.
  - rewrite map2_length; congruence.
  - apply Forall_map2; try assumption. intros a b. apply row_op_shape.
Qed.

Lemma gradient_values_ok (bA bB g1 g2 : TensorBlock) (p : string) :
  block_wf bA = true -> block_wf bB = true ->
  Utils.first_mismatch bA bB Utils.all_props = None ->
  In (p, g1) (gradient_store bA) ->
  gradient bB p = Ok g2 ->
  Utils.first_mismatch g1 g2 Utils.all_props = None ->
  len (samples bA) <> 0%nat ->
  exists vg,
    Divide.gradient_values bA bB g1 g2 = Ok vg
    /\ shape_ok vg (samples g1) (components g1) (properties g1) = true.
Proof.
  intros HwfA HwfB Hsame Hin Hg2 Hgsame Hn.
  apply block_wf_inv in HwfA as (HsA & _ & HgA).
  apply block_wf_inv in HwfB as (HsB & _ & HgB).
  apply first_mismatch_all_inv in Hsame as (Hss & Hcc & Hpp).
  apply first_mismatch_all_inv in Hgsame as (Hgss & Hgcc & Hgpp).
  specialize (HgA _ Hin). simpl in HgA.
  apply gradient_wf_inv in HgA as (Hs1 & Hc1 & Hp1 & Hcol1 & Hr1).
  assert (Hin2 : In (p, g2) (gradient_store bB)).
  { apply assoc_In. unfold gradient in Hg2.
    destruct (assoc p (gradient_store bB)); [|discriminate].
    now inversion Hg2. }
  specialize (HgB _ Hin2). simpl in HgB.
  apply gradient_wf_inv in HgB as (Hs2 & Hc2 & Hp2 & Hcol2 & _).
  assert (Hcol : sample_column g2 = sample_column g1)
    by (unfold sample_column; now rewrite Hgss).
  rewrite Hcol in Hcol2.
  apply shape_ok_inv in HsA as [HlA HshA].
  apply shape_ok_inv in HsB as [HlB HshB].
  apply shape_ok_inv in Hs1 as [Hl1 Hsh1].
  apply shape_ok_inv in Hs2 as [Hl2 Hsh2].
  rewrite <- Hcc, <- Hpp in HshB.
  rewrite Hc1, Hp1 in Hsh1.
  rewrite Hc2, Hp2, <- Hcc, <- Hpp in Hsh2.
  assert (Hlen1 : List.length (values g1) = List.length (sample_column g1))
    by (unfold sample_column; rewrite length_map; exact Hl1).
  assert (Hlen2 : List.length (values g2) = List.length (sample_column g1)).
  { unfold sample_column. rewrite length_map, Hl2. unfold len.
    now rewrite Hgss. }
  set (G := fun i => map (rule_row bA bB g1 g2 i)
                       (selected_from (sample_column g1) 0 i)).
  assert (Hpieces : mapR (Divide.gradient_rows bA bB g1 g2)
                      (seq 0 (len (samples bA)))
                    = Ok (map G (seq 0 (len (samples bA))))).
  { apply mapR_pure. intros i Hi. apply in_seq in Hi.
    apply (gradient_rows_value bA bB g1 g2
             (n_components (components bA)) (len (properties bA))
             (sample_column g1) i); try assumption.
    - lia.
    - rewrite HlB, <- Hss. lia. }
  exists (List.concat (map G (seq 0 (len (samples bA))))). split.
  - unfold Divide.gradient_values. rewrite Hpieces. cbn [bindR].
    unfold concatenate.
    destruct (len (samples bA)) as [|n]; [contradiction|reflexivity].
  - apply shape_ok_intro.
    + unfold G.
      rewrite (concat_map_in _
                 (fun j => rule_row bA bB g1 g2
                             (Z.to_nat (nth j (sample_column g1) 0%Z)) j)).
      * rewrite length_map.
        rewrite (Permutation_length (concat_selected_perm _ _ Hr1 0)).
        rewrite length_seq. unfold sample_column, len.
        now rewrite length_map.
      * intros i j _ Hj. apply selected_from_spec in Hj.
        rewrite (nth_error_nth _ _ 0%Z Hj). now rewrite Nat2Z.id.
    + rewrite Hc1, Hp1. apply Forall_concat. apply Forall_map.
      apply Forall_forall. intros i Hi. apply in_seq in Hi.
      unfold G. apply Forall_map. apply Forall_forall. intros j Hj.
      assert (Hlt : (j < List.length (sample_column g1))%nat).
      { apply selected_from_spec in Hj. apply nth_error_Some. congruence. }
      unfold rule_row. apply quotient_rule_row_shape.
      * apply nth_shape; [assumption|lia].
      * apply nth_shape; [assumption|]. rewrite HlB, <- Hss. lia.
      * apply nth_shape; [assumption|]. now rewrite Hlen1.
      * apply nth_shape; [assumption|]. now rewrite Hlen2.
Qed.

Lemma divide_gradients_ok (bA bB : TensorBlock)
  (gs : list (string * TensorBlock)) :
  forall s,
    components s = components bA -> properties s = properties bA ->
    NoDup (gradients_list s ++ map fst gs) ->
    Forall (gradient_divisible bA bB) gs ->
    exists s', outcome (foldM (Divide.divide_gradient bA bB) gs s) = Ok s'.
Proof.
  induction gs as [|[p g1] gs IH]; intros s Hc Hp Hnd Hall.
  - exists s. reflexivity.
  - inversion Hall as [|? ? Hg Hrest]; subst.
    destruct Hg as (g2 & vg & Hg2 & Hn1 & Hn2 & Hvg & Hsh & Hgc & Hgp).
    cbn [fst snd] in *.
    assert (Hnew : ~ In p (gradients_list s)).
    { cbn [map fst] in Hnd. apply NoDup_remove_2 in Hnd.
      intros Hin. apply Hnd. apply in_or_app. now left. }
    cbn [foldM]. rewrite outcome_bindM.
    unfold Divide.divide_gradient at 1. cbv zeta. cbn [fst snd].
    rewrite outcome_bindM, outcome_liftM, Hg2, Hn1, Hn2.
    rewrite outcome_bindM, outcome_kernel, Hvg.
    rewrite outcome_bindM, outcome_liftM.
    unfold new_TensorBlock. rewrite Hsh. rewrite outcome_liftM.
    rewrite add_gradient_ok;
      [|exact Hnew|cbn; congruence|cbn; congruence].
    apply IH; try assumption.
    unfold gradients_list in *. cbn [gradient_store map fst] in *.
    rewrite map_app. cbn [map fst]. now rewrite <- app_assoc.
Qed.

Lemma no_nested_gradients_inv (b : TensorBlock) (p : string)
  (g : TensorBlock) :
  no_nested_gradients b = true -> In (p, g) (gradient_store b) ->
  Divide.has_gradients g = false.
Proof.
  unfold no_nested_gradients. rewrite forallb_forall. intros H Hin.
  apply negb_true_iff. exact (H _ Hin).
Qed.

Lemma divide_block_block_ok (bA bB : TensorBlock) :
  block_wf bA = true -> block_wf bB = true -> divisible bA bB ->
  exists bR, outcome (Divide._divide_block_block bA bB) = Ok bR.
Proof.
  intros HwfA HwfB (Hchk & Hgchk & HnA & HnB & Hsamples).
  apply check_blocks_raise_inv in Hchk.
  apply check_same_gradients_raise_inv in Hgchk.
  destruct (block_wf_inv _ HwfA) as (HsA & HndA & HgA).
  destruct (block_wf_inv _ HwfB) as (HsB & _ & _).
  destruct (first_mismatch_all_inv _ _ Hchk) as (Hss & Hcc & Hpp).
  rewrite <- Hss, <- Hcc, <- Hpp in HsB.
  unfold Divide._divide_block_block.
  rewrite outcome_bindM, outcome_kernel.
  rewrite (divide_values_rect _ _ _ _ _ HsA HsB).
  rewrite outcome_bindM, outcome_liftM.
  unfold new_TensorBlock. rewrite (shape_ok_map2 _ _ _ _ _ _ HsA HsB).
  unfold gradients in *.
  apply divide_gradients_ok; try reflexivity.
  - cbn. apply (nodupb_NoDup String.eqb String.eqb_eq). exact HndA.
  - apply Forall_forall. intros [p g1] Hin.
    destruct (gradients_mismatch_inv _ _ _ Hgchk p g1 Hin)
      as (g2 & Hassoc & Hm).
    assert (Hg2 : gradient bB p = Ok g2)
      by (unfold gradient; now rewrite Hassoc).
    assert (Hlen : len (samples bA) <> 0%nat).
    { destruct Hsamples as [E|H]; [|exact H].
      rewrite E in Hin. contradiction. }
    destruct (gradient_values_ok bA bB g1 g2 p HwfA HwfB Hchk Hin Hg2 Hm Hlen)
      as (vg & Hvg & Hsh).
    specialize (HgA _ Hin). cbn [snd] in HgA.
    apply gradient_wf_inv in HgA as (_ & Hc1 & Hp1 & _).
    exists g2, vg. cbn [fst snd]. repeat split; try assumption.
    + exact (no_nested_gradients_inv bA p g1 HnA Hin).
    + exact (no_nested_gradients_inv bB p g2 HnB (assoc_In _ _ _ Hassoc)).
Qed.

Lemma outcome_forM_defined {A B : Type} (f : A -> M B) (l : list A) :
  (forall x, In x l -> exists b, outcome (f x) = Ok b) ->
  exists bs,
    outcome (forM f l) = Ok bs
    /\ Forall2 (fun x b => outcome (f x) = Ok b) l bs.
Proof.
  induction l as [|x l IH]; intros H.
  - exists []. split; [reflexivity|constructor].
  - destruct (H x (or_introl eq_refl)) as [b Hb].
    destruct IH as (bs & Hbs & Hall); [intros y Hy; apply H; now right|].
    exists (b :: bs). split; [|now constructor].
    simpl. rewrite outcome_bindM, Hb, outcome_bindM, Hbs. reflexivity.
Qed.

Lemma same_names_labels (bs bs' : list TensorBlock) :
  Forall2 (fun b b' => properties b' = properties b
                       /\ components b' = components b) bs bs' ->
  same_names bs' = same_names bs.
Proof.
  intros H. destruct H as [|b b' bs bs' [Hp Hc] H]; [reflexivity|].
  simpl. rewrite Hp, Hc. clear Hp Hc.
  induction H as [|c c' bs bs' [Hp Hc] _ IH]; [reflexivity|].
  simpl. now rewrite Hp, Hc, IH.
Qed.

Lemma items_blocks (T : TensorMap) :
  len (keys T) = List.length (block_store T) ->
  map snd (items T) = block_store T.
Proof.
  intros H. unfold items.
  generalize dependent (block_store T). unfold len.
  generalize (rows (keys T)).
  induction l as [|r l IH]; intros [|b bs] H; try discriminate; [reflexivity|].
  simpl. f_equal. apply IH. now inversion H.
Qed.

Lemma Forall2_map_l {A B C : Type} (P : B -> C -> Prop) (f : A -> B)
  (l : list A) (l' : list C) :
  Forall2 (fun x y => P (f x) y) l l' -> Forall2 P (map f l) l'.
Proof. induction 1; simpl; constructor; assumption. Qed.

(** X22: [divide(A, B)] goes through on compatible input: for well-formed maps
    with the same keys, whose blocks agree on the names of their components
    and properties and, pair by pair, on labels and gradients, without
    gradients of gradients and without an empty block that carries a
    gradient, it returns a map. *)
Theorem divide_succeeds_on_compatible_maps (A B : TensorMap) :
  tensormap_wf A = true ->
  tensormap_wf B = true ->
  same_names (block_store A) = true ->
  Utils.same_keys A B = true ->
  (forall key bA bB,
      In (key, bA) (items A) ->
      block B [ByEntry key] [] = Ok bB ->
      divisible bA bB) ->
  exists R, outcome (Divide.divide A (Divide.Map B)) = Ok R.
Proof.
  intros HwfA HwfB Hsn Hk Hpairs.
  destruct (tensormap_wf_inv _ HwfA) as (HkA & HlenA & HblocksA).
  unfold Divide.divide, Utils._check_same_keys_raise, Utils._check_same_keys.
  rewrite Hk.
  rewrite outcome_bindM, outcome_bindM, outcome_validation.
  destruct (outcome_forM_defined (Divide.divide_item B) (items A))
    as (bs & Hbs & Hall).
  { intros [key bA] Hin.
    destruct (block_of_same_keys A B key bA HwfB Hk Hin) as (bB & HbB & HwB).
    destruct (Hpairs key bA bB Hin HbB) as (Hchk & Hgchk & Hrest).
    unfold Divide.divide_item. cbv zeta. cbn [fst snd].
    rewrite outcome_bindM, outcome_liftM, HbB.
    rewrite outcome_bindM, outcome_validation, Hchk.
    rewrite outcome_bindM, outcome_validation, Hgchk.
    apply divide_block_block_ok; try assumption.
    - apply HblocksA. unfold items in Hin. now apply in_combine_r in Hin.
    - exact (Hpairs key bA bB Hin HbB). }
  rewrite Hbs, outcome_liftM.
  assert (Hlabels : Forall2 (fun b b' => properties b' = properties b
                                         /\ components b' = components b)
                      (block_store A) bs).
  { rewrite <- (items_blocks A HlenA). apply Forall2_map_l.
    eapply Forall2_impl; [|exact Hall].
    intros [key bA] bR Hitem.
    apply divide_item_inv in Hitem as (bB & _ & _ & _ & Hblock).
    apply divide_block_block_inv in Hblock as (_ & Hc & Hp & _).
    cbn [snd]. auto. }
  exists (mkTensorMap (keys A) bs). apply new_TensorMap_ok.
  - exact HkA.
  - rewrite HlenA. eapply Forall2_length. exact Hlabels.
  - now rewrite (same_names_labels _ _ Hlabels).
Qed.

Lemma divide_succeeds_on_compatible_maps_witness :
  exists R, outcome (Divide.divide unsorted_A (Divide.Map unsorted_B)) = Ok R.
Proof.
  apply divide_succeeds_on_compatible_maps; try reflexivity.
  intros key bA bB [Hin|[]] Hb. inversion Hin; subst.
  vm_compute in Hb. inversion Hb; subst.
  repeat split; try reflexivity. right. discriminate.
Defined.
